(** * Video Vision Engine: a shallow embedding of [video_vision_engine.py]

    The development follows the Python class [VideoVisionEngine]: the
    frame loop of [_analyze_video_content], the per-frame analysis, the
    scene-change heuristic, the summary, the comprehension score, the
    skill gauges and the control flow of [watch_video].

    Conventions.
    - Python [int] is [Z]; Python [float] is idealised as an exact rational
      [Q] (no rounding error); [==] is equality of rationals.
    - A [dict] with a fixed set of keys is a record; a key that may be
      absent ('error', 'video_duration') is an [option] field.
    - Exceptions are values of [Exc]; a method of the class is a computation
      in the monad [M], which threads the engine object and the
      [watch_result] dictionary, both of which are mutated in place by the
      source.  Mutations done before a [raise] stay visible afterwards.
    - OpenCV, the file system and the JSON store are collaborators; their
      answers are the fields of [Frame], [Capture] and [World].
    - The methods are first stated as they run on a console that raises
      nothing.  [console.print] can raise (rich raises [MarkupError] on a
      closing tag that matches no open tag); the module [Console] states
      [watch_video], [watch_video_file] and [analyze_video_batch] with
      the lines they print, through a collaborator [print]. *)

From Stdlib Require Import QArith Qminmax Qabs Qround ZArith List String Ascii.
From Stdlib Require Import Lqa Lia Bool DecimalString.
From Stdlib Require Import Sorting.Sorted Sorting.Permutation.
Import ListNotations.

Open Scope string_scope.
Open Scope Z_scope.
Open Scope Q_scope.

(* ================================================================== *)
(** ** Python values and operators *)
(* ================================================================== *)

Module Py.

(** The subclasses of [Exception] the model can raise; [str_exc] is
    Python's [str(e)]. *)
Inductive PyExc : Type :=
| ZeroDivisionError
| OSError (msg : string)
| KeyError (key : string)
| CvError (msg : string)
| RuntimeError (msg : string)
| MarkupError (msg : string).

Definition str_exc (e : PyExc) : string :=
  match e with
  | ZeroDivisionError => "division by zero"
  | OSError msg => msg
  | KeyError key => "'" ++ key ++ "'"
  | CvError msg => msg
  | RuntimeError msg => msg
  | MarkupError msg => msg
  end.

Inductive Exc (A : Type) : Type :=
| Ok (a : A)
| Raise (e : PyExc).
Arguments Ok {A} a.
Arguments Raise {A} e.

(** [a / b] on ints: true division. *)
Definition truediv (a b : Z) : Exc Q :=
  if (b =? 0)%Z then Raise ZeroDivisionError else Ok (inject_Z a / inject_Z b).

(** [a // b] on ints: floor division, as [Z.div]. *)
Definition floordiv (a b : Z) : Exc Z :=
  if (b =? 0)%Z then Raise ZeroDivisionError else Ok (a / b)%Z.

(** [a % b] on ints: the sign follows the divisor, as [Z.modulo]. *)
Definition mod_ (a b : Z) : Exc Z :=
  if (b =? 0)%Z then Raise ZeroDivisionError else Ok (a mod b)%Z.

(** Comparisons on floats. *)
Definition Qgtb (a b : Q) : bool := negb (Qle_bool a b).   (* a > b *)
Definition Qltb (a b : Q) : bool := negb (Qle_bool b a).   (* a < b *)

(** Truth value of a list: [if xs:]. *)
Definition truthy {A : Type} (xs : list A) : bool :=
  match xs with [] => false | _ :: _ => true end.

(** [len(xs)]. *)
Definition len {A : Type} (xs : list A) : Z := Z.of_nat (List.length xs).

(** [int(x)] on a float: truncation toward zero. *)
Definition int (x : Q) : Z := Z.quot (Qnum x) (Zpos (Qden x)).

(** [np.mean(xs)] on a non-empty list. *)
Definition mean (xs : list Q) : Q :=
  fold_right Qplus 0 xs / inject_Z (len xs).

(** [list(set(xs))] on strings.  The iteration order of a Python set is
    unspecified; the model keeps the first occurrence of each element. *)
Definition unique (xs : list string) : list string := nodup string_dec xs.

(** [sep.join(xs)]. *)
Fixpoint join (sep : string) (xs : list string) : string :=
  match xs with
  | [] => EmptyString
  | [x] => x
  | x :: rest => x ++ sep ++ join sep rest
  end.

(** [str(n)] on an int. *)
Definition str_int (n : Z) : string := NilZero.string_of_int (Z.to_int n).

(** Rounding to the nearest integer, ties to even. *)
Definition round_half_even (q : Q) : Z :=
  let fl := Qfloor q in
  match Qcompare (q - inject_Z fl) (1 # 2) with
  | Lt => fl
  | Gt => (fl + 1)%Z
  | Eq => if Z.even fl then fl else (fl + 1)%Z
  end.

Fixpoint zero_pad (width : nat) (s : string) : string :=
  match width with
  | O => s
  | S w => if (String.length s <? width)%nat then zero_pad w ("0" ++ s) else s
  end.

(** [f"{q:.Nf}"]: fixed-point formatting with [digits] decimals. *)
Definition format_fixed (digits : nat) (q : Q) : string :=
  let scale := (10 ^ Z.of_nat digits)%Z in
  let n := round_half_even (q * inject_Z scale) in
  let a := Z.abs n in
  (if (n <? 0)%Z then "-" else EmptyString)
    ++ str_int (a / scale)
    ++ match digits with
       | O => EmptyString
       | S _ => "." ++ zero_pad digits (str_int (a mod scale))
       end.

End Py.
Import Py.

(* ================================================================== *)
(** ** Data model: the dictionaries of the engine *)
(* ================================================================== *)

(** A rectangle as OpenCV returns it ([x, y, w, h], integer pixels). *)
Record Rect : Type := { rect_x : Z; rect_y : Z; rect_w : Z; rect_h : Z }.

(** The 'position' of a detected object, rescaled to the full frame. *)
Record Position : Type := { pos_x : Q; pos_y : Q; pos_w : Q; pos_h : Q }.

(** An entry of [objects_detected] / [objects_seen]. *)
Record DetectedObject : Type := {
  obj_type : string;
  obj_confidence : Q;
  obj_position : Position;
  obj_timestamp : Q
}.

(** An entry of [text_found]. *)
Record TextInstance : Type := {
  text : string;
  text_confidence : Q;
  text_timestamp : Q;
  regions_count : Z
}.

(** The [motion_info] dictionary of [_detect_motion]. *)
Record MotionInfo : Type := {
  motion_detected : bool;
  motion_intensity : Q;
  motion_areas : list Rect
}.

(** The fixed colour vocabulary of [_analyze_frame_colors]. *)
Inductive Color : Type := red | green | blue | white | black | mixed.

Definition color_name (c : Color) : string :=
  match c with
  | red => "red" | green => "green" | blue => "blue"
  | white => "white" | black => "black" | mixed => "mixed"
  end.

Record ColorInfo : Type := {
  color : Color;
  rgb : Z * Z * Z;
  dominance : Q
}.

(** The [frame_analysis] dictionary of [_analyze_single_frame]. *)
Record FrameAnalysis : Type := {
  fa_timestamp : Q;
  objects_detected : list DetectedObject;
  fa_text_found : list TextInstance;
  fa_motion_detected : option MotionInfo;
  scene_change : bool;
  scene_description : string;
  colors_dominant : list ColorInfo;
  brightness : Q
}.

(** An entry of [scenes_detected]. *)
Record Scene : Type := { scene_timestamp : Q; description : string }.

(** The [watch_result] dictionary of [watch_video].  ['start_time'] (the
    wall clock) and the two lists the engine never fills
    (['audio_insights'], ['learning_insights']) are left out. *)
Record WatchResult : Type := {
  video_url : string;
  frames_analyzed : Z;
  scenes_detected : list Scene;
  objects_seen : list DetectedObject;
  text_found : list TextInstance;
  motion_events : list MotionInfo;      (* key 'motion_detected' *)
  visual_summary : string;
  comprehension_score : Q;
  success : bool;
  error : option string;                (* key absent until set *)
  video_duration : option Q             (* key absent until set *)
}.

(** The eight gauges of [self.video_vision_skills]. *)
Record Skills : Type := {
  frame_analysis : Q;
  motion_detection : Q;
  scene_understanding : Q;
  text_recognition : Q;
  object_tracking : Q;
  audio_processing : Q;
  content_comprehension : Q;
  real_time_learning : Q
}.

(** What OpenCV measures on one decoded frame after [cv2.resize] and the
    colour conversions of [_analyze_single_frame]. *)
Record Frame : Type := {
  gray_mean : Q;               (* np.mean(gray) *)
  faces : list Rect;           (* object_detector.detectMultiScale(gray, 1.1, 4) *)
  edge_rects : list Rect;      (* cv2.boundingRect of each Canny contour *)
  mean_color : Q * Q * Q       (* np.mean(rgb_frame.reshape(-1, 3), axis=0) *)
}.

(** What OpenCV measures on a pair of frames in [_detect_motion]. *)
Record FrameDiff : Type := {
  changed_pixels : Z;               (* np.sum(thresh > 0) *)
  total_pixels : Z;                 (* thresh.shape[0] * thresh.shape[1] *)
  diff_contours : list (Q * Rect)   (* contourArea and boundingRect of each contour *)
}.

(** An opened [cv2.VideoCapture]. *)
Record Capture : Type := {
  cap_fps : Z;                 (* int(cap.get(cv2.CAP_PROP_FPS)) *)
  cap_frame_count : Z;         (* int(cap.get(cv2.CAP_PROP_FRAME_COUNT)) *)
  cap_frames : list Frame      (* successive results of cap.read() *)
}.

(** [self.processing_config], the entries the analysis reads. *)
Definition resolution_scale : Q := 0.5.
Definition motion_threshold : Z := 25.

(** The initial gauges of [__init__]. *)
Definition initial_skills : Skills := {|
  frame_analysis := 0.3;
  motion_detection := 0.2;
  scene_understanding := 0.4;
  text_recognition := 0.3;
  object_tracking := 0.2;
  audio_processing := 0.1;
  content_comprehension := 0.3;
  real_time_learning := 0.2
|}.

(* ================================================================== *)
(** ** Per-frame analysis: the pure helpers *)
(* ================================================================== *)

(** The filter of [_detect_text_in_frame]:
    [20 < w < 200 and 10 < h < 50 and 1.5 < aspect_ratio < 8]. *)
Definition text_like (r : Rect) : bool :=
  let w := rect_w r in
  let h := rect_h r in
  let aspect_ratio := if (0 <? h)%Z then inject_Z w / inject_Z h else 0 in
  (20 <? w)%Z && (w <? 200)%Z && (10 <? h)%Z && (h <? 50)%Z
    && Qltb 1.5 aspect_ratio && Qltb aspect_ratio 8.

Definition _detect_text_in_frame (gray_frame : Frame) (timestamp : Q)
  : list TextInstance :=
  let text_regions := len (filter text_like (edge_rects gray_frame)) in
  if (0 <? text_regions)%Z then
    [ {| text := "Text detected (" ++ str_int text_regions ++ " regions)";
         text_confidence := 0.6;
         text_timestamp := timestamp;
         regions_count := text_regions |} ]
  else [].

(** [_detect_motion].  A resized frame has at least one pixel, so the
    quotient is taken in [Q] directly. *)
Definition _detect_motion (d : FrameDiff) : MotionInfo :=
  let motion_intensity := inject_Z (changed_pixels d) / inject_Z (total_pixels d) in
  if Qgtb motion_intensity 0.01 then
    {| motion_detected := true;
       motion_intensity := motion_intensity;
       motion_areas :=
         map snd (filter (fun c => Qgtb (fst c) 100) (diff_contours d)) |}
  else
    {| motion_detected := false;
       motion_intensity := motion_intensity;
       motion_areas := [] |}.

(** The comparative rules of [_analyze_frame_colors], in source order. *)
Definition dominant_color (r g b : Q) : Color :=
  if Qgtb r g && Qgtb r b then red
  else if Qgtb g r && Qgtb g b then green
  else if Qgtb b r && Qgtb b g then blue
  else if Qgtb r 150 && Qgtb g 150 && Qgtb b 150 then white
  else if Qltb r 50 && Qltb g 50 && Qltb b 50 then black
  else mixed.

Definition _analyze_frame_colors (frame : Frame) : list ColorInfo :=
  let '(r, g, b) := mean_color frame in
  [ {| color := dominant_color r g b;
       rgb := (int r, int g, int b);
       dominance := 1.0 |} ].

Definition _describe_frame_scene (frame_analysis : FrameAnalysis) : string :=
  let brightness := brightness frame_analysis in
  let part_brightness :=
    if Qgtb brightness 0.7 then ["bright scene"]
    else if Qltb brightness 0.3 then ["dark scene"]
    else ["moderately lit scene"] in
  let objects := objects_detected frame_analysis in
  let part_objects :=
    if truthy objects then
      let unique_objects := unique (map obj_type objects) in
      match unique_objects with
      | [only] => ["containing " ++ only]
      | _ => ["containing " ++ str_int (len unique_objects) ++ " different objects"]
      end
    else [] in
  let part_colors :=
    match colors_dominant frame_analysis with
    | c :: _ => ["with " ++ color_name (color c) ++ " tones"]
    | [] => []
    end in
  let part_text :=
    if truthy (fa_text_found frame_analysis) then ["with visible text"] else [] in
  let part_motion :=
    match fa_motion_detected frame_analysis with
    | Some motion =>
        if motion_detected motion then
          if Qgtb (motion_intensity motion) 0.1
          then ["with significant movement"]
          else ["with subtle movement"]
        else []
    | None => []
    end in
  let description_parts :=
    (part_brightness ++ part_objects ++ part_colors ++ part_text
       ++ part_motion)%list in
  if truthy description_parts then join ", " description_parts else "static scene".

(** The face entries appended to [objects_detected]. *)
Definition face_object (timestamp : Q) (r : Rect) : DetectedObject :=
  let scale := resolution_scale in
  {| obj_type := "face";
     obj_confidence := 0.8;
     obj_position := {| pos_x := inject_Z (rect_x r) / scale;
                        pos_y := inject_Z (rect_y r) / scale;
                        pos_w := inject_Z (rect_w r) / scale;
                        pos_h := inject_Z (rect_h r) / scale |};
     obj_timestamp := timestamp |}.

(* ================================================================== *)
(** ** Aggregation: summary, comprehension score, skill gauges *)
(* ================================================================== *)

(** The sentences [_generate_video_summary] appends to [summary_parts],
    one constructor per f-string. *)
Inductive SummaryPart : Type :=
| Watched (duration : Q) (frames : Z)
| Identified (scenes : Z)
| SceneAt (index : Z) (timestamp : Q) (description : string)
| Detected (object_types : list string)
| FoundText (frames : Z) (regions : Z)
| HighMotion (avg_motion : Q)
| ModerateMotion (avg_motion : Q).

Definition render (p : SummaryPart) : string :=
  match p with
  | Watched duration frames =>
      "Watched " ++ format_fixed 1 duration ++ " second video, analyzing "
        ++ str_int frames ++ " frames"
  | Identified scenes =>
      "Identified " ++ str_int scenes ++ " distinct scenes"
  | SceneAt index timestamp description =>
      "Scene " ++ str_int index ++ " at " ++ format_fixed 1 timestamp ++ "s: "
        ++ description
  | Detected object_types =>
      "Detected " ++ str_int (len object_types) ++ " types of objects: "
        ++ join ", " object_types
  | FoundText frames regions =>
      "Found text in " ++ str_int frames ++ " frames (" ++ str_int regions
        ++ " text regions)"
  | HighMotion avg_motion =>
      "High motion content with average intensity " ++ format_fixed 2 avg_motion
  | ModerateMotion avg_motion =>
      "Moderate motion with average intensity " ++ format_fixed 2 avg_motion
  end.

(** [for i, scene in enumerate(scenes[:3])], rendered with [i+1]. *)
Fixpoint scene_lines (i : Z) (scenes : list Scene) : list SummaryPart :=
  match scenes with
  | [] => []
  | scene :: rest =>
      SceneAt (i + 1) (scene_timestamp scene) (description scene)
        :: scene_lines (i + 1) rest
  end.

(** The motion sentence of the summary (source lines 658-665). *)
Definition motion_part (motion_events : list MotionInfo) : list SummaryPart :=
  if truthy motion_events then
    let avg_motion := mean (map motion_intensity motion_events) in
    if Qgtb avg_motion 0.1 then [HighMotion avg_motion]
    else [ModerateMotion avg_motion]
  else [].

Definition summary_parts (watch_result : WatchResult) : list SummaryPart :=
  let duration :=
    match video_duration watch_result with Some d => d | None => 0 end in
  let overview := [Watched duration (frames_analyzed watch_result)] in
  let scenes := scenes_detected watch_result in
  let part_scenes :=
    if truthy scenes
    then Identified (len scenes) :: scene_lines 0 (firstn 3 scenes)
    else [] in
  let objects := objects_seen watch_result in
  let part_objects :=
    if truthy objects then [Detected (unique (map obj_type objects))] else [] in
  let text_instances := text_found watch_result in
  let part_text :=
    if truthy text_instances then
      let total_text_regions :=
        fold_right Z.add 0%Z (map regions_count text_instances) in
      [FoundText (len text_instances) total_text_regions]
    else [] in
  (overview ++ part_scenes ++ part_objects ++ part_text
     ++ motion_part (motion_events watch_result))%list.

Definition _generate_video_summary (watch_result : WatchResult) : string :=
  join ". " (map render (summary_parts watch_result)) ++ ".".

(** [_calculate_comprehension_score]: [max_score] grows by 0.2 after every
    block, whether or not the block contributed. *)
Definition _calculate_comprehension_score (watch_result : WatchResult) : Q :=
  let score := 0 in
  let max_score := 0 in
  let frames_analyzed := frames_analyzed watch_result in
  let score :=
    if (0 <? frames_analyzed)%Z
    then score + Qmin (inject_Z frames_analyzed / 100) 1.0 * 0.2 else score in
  let max_score := max_score + 0.2 in
  let scenes := scenes_detected watch_result in
  let score :=
    if truthy scenes
    then score + Qmin (inject_Z (len scenes) / 5) 1.0 * 0.2 else score in
  let max_score := max_score + 0.2 in
  let objects := objects_seen watch_result in
  let score :=
    if truthy objects
    then score + Qmin (inject_Z (len objects) / 10) 1.0 * 0.2 else score in
  let max_score := max_score + 0.2 in
  let text_found := text_found watch_result in
  let score :=
    if truthy text_found
    then score + Qmin (inject_Z (len text_found) / 5) 1.0 * 0.2 else score in
  let max_score := max_score + 0.2 in
  let motion_events := motion_events watch_result in
  let score :=
    if truthy motion_events
    then score + Qmin (inject_Z (len motion_events) / 20) 1.0 * 0.2 else score in
  let max_score := max_score + 0.2 in
  if Qgtb max_score 0 then score / max_score else 0.0.

(** [_update_video_vision_skills]: every gauge is rewritten from its own
    previous value only. *)
Definition _update_video_vision_skills (skills : Skills) (watch_result : WatchResult)
  : Skills :=
  {| frame_analysis :=
       if (0 <? frames_analyzed watch_result)%Z
       then Qmin 1.0 (frame_analysis skills + 0.01) else frame_analysis skills;
     scene_understanding :=
       if truthy (scenes_detected watch_result)
       then Qmin 1.0 (scene_understanding skills + 0.02)
       else scene_understanding skills;
     object_tracking :=
       if truthy (objects_seen watch_result)
       then Qmin 1.0 (object_tracking skills + 0.02) else object_tracking skills;
     text_recognition :=
       if truthy (text_found watch_result)
       then Qmin 1.0 (text_recognition skills + 0.02) else text_recognition skills;
     motion_detection :=
       if truthy (motion_events watch_result)
       then Qmin 1.0 (motion_detection skills + 0.02) else motion_detection skills;
     content_comprehension :=
       if Qgtb (comprehension_score watch_result) 0.5
       then Qmin 1.0 (content_comprehension skills + 0.01)
       else content_comprehension skills;
     real_time_learning := Qmin 1.0 (real_time_learning skills + 0.01);
     audio_processing := audio_processing skills |}.

(* ================================================================== *)
(** ** The monad of the methods: state and exceptions *)
(* ================================================================== *)

(** A computation reads and writes a state [S] and either returns or
    raises; the state reached when it raises is kept, as in Python. *)
Definition M (S A : Type) : Type := S -> Exc A * S.

Definition ret {S A : Type} (a : A) : M S A := fun s => (Ok a, s).

Definition bind {S A B : Type} (m : M S A) (k : A -> M S B) : M S B :=
  fun s =>
    match m s with
    | (Ok a, s') => k a s'
    | (Raise e, s') => (Raise e, s')
    end.

(** An operation that may raise and touches no state. *)
Definition lift {S A : Type} (r : Exc A) : M S A := fun s => (r, s).

Definition gets {S A : Type} (f : S -> A) : M S A := fun s => (Ok (f s), s).

Definition modify {S : Type} (f : S -> S) : M S unit := fun s => (Ok tt, f s).

(** [try: body / except Exception as e: handler e]. *)
Definition try_except {S A : Type} (body : M S A) (handler : PyExc -> M S A)
  : M S A :=
  fun s =>
    match body s with
    | (Ok a, s') => (Ok a, s')
    | (Raise e, s') => handler e s'
    end.

Declare Scope py_scope.
Delimit Scope py_scope with py.
Notation "x <- m ;; k" := (bind m (fun x => k))
  (at level 61, m at next level, right associativity) : py_scope.
Notation "m ;; k" := (bind m (fun _ => k))
  (at level 61, right associativity) : py_scope.
Open Scope py_scope.

(** Assignments to the keys of [watch_result]. *)
Definition set_frames_analyzed (v : Z) (r : WatchResult) : WatchResult :=
  {| video_url := video_url r; frames_analyzed := v;
     scenes_detected := scenes_detected r; objects_seen := objects_seen r;
     text_found := text_found r; motion_events := motion_events r;
     visual_summary := visual_summary r;
     comprehension_score := comprehension_score r; success := success r;
     error := error r; video_duration := video_duration r |}.

Definition set_scenes_detected (v : list Scene) (r : WatchResult) : WatchResult :=
  {| video_url := video_url r; frames_analyzed := frames_analyzed r;
     scenes_detected := v; objects_seen := objects_seen r;
     text_found := text_found r; motion_events := motion_events r;
     visual_summary := visual_summary r;
     comprehension_score := comprehension_score r; success := success r;
     error := error r; video_duration := video_duration r |}.

Definition set_objects_seen (v : list DetectedObject) (r : WatchResult)
  : WatchResult :=
  {| video_url := video_url r; frames_analyzed := frames_analyzed r;
     scenes_detected := scenes_detected r; objects_seen := v;
     text_found := text_found r; motion_events := motion_events r;
     visual_summary := visual_summary r;
     comprehension_score := comprehension_score r; success := success r;
     error := error r; video_duration := video_duration r |}.

Definition set_text_found (v : list TextInstance) (r : WatchResult)
  : WatchResult :=
  {| video_url := video_url r; frames_analyzed := frames_analyzed r;
     scenes_detected := scenes_detected r; objects_seen := objects_seen r;
     text_found := v; motion_events := motion_events r;
     visual_summary := visual_summary r;
     comprehension_score := comprehension_score r; success := success r;
     error := error r; video_duration := video_duration r |}.

Definition set_motion_events (v : list MotionInfo) (r : WatchResult)
  : WatchResult :=
  {| video_url := video_url r; frames_analyzed := frames_analyzed r;
     scenes_detected := scenes_detected r; objects_seen := objects_seen r;
     text_found := text_found r; motion_events := v;
     visual_summary := visual_summary r;
     comprehension_score := comprehension_score r; success := success r;
     error := error r; video_duration := video_duration r |}.

Definition set_visual_summary (v : string) (r : WatchResult) : WatchResult :=
  {| video_url := video_url r; frames_analyzed := frames_analyzed r;
     scenes_detected := scenes_detected r; objects_seen := objects_seen r;
     text_found := text_found r; motion_events := motion_events r;
     visual_summary := v;
     comprehension_score := comprehension_score r; success := success r;
     error := error r; video_duration := video_duration r |}.

Definition set_comprehension_score (v : Q) (r : WatchResult) : WatchResult :=
  {| video_url := video_url r; frames_analyzed := frames_analyzed r;
     scenes_detected := scenes_detected r; objects_seen := objects_seen r;
     text_found := text_found r; motion_events := motion_events r;
     visual_summary := visual_summary r;
     comprehension_score := v; success := success r;
     error := error r; video_duration := video_duration r |}.

Definition set_success (v : bool) (r : WatchResult) : WatchResult :=
  {| video_url := video_url r; frames_analyzed := frames_analyzed r;
     scenes_detected := scenes_detected r; objects_seen := objects_seen r;
     text_found := text_found r; motion_events := motion_events r;
     visual_summary := visual_summary r;
     comprehension_score := comprehension_score r; success := v;
     error := error r; video_duration := video_duration r |}.

Definition set_error (v : string) (r : WatchResult) : WatchResult :=
  {| video_url := video_url r; frames_analyzed := frames_analyzed r;
     scenes_detected := scenes_detected r; objects_seen := objects_seen r;
     text_found := text_found r; motion_events := motion_events r;
     visual_summary := visual_summary r;
     comprehension_score := comprehension_score r; success := success r;
     error := Some v; video_duration := video_duration r |}.

Definition set_video_duration (v : Q) (r : WatchResult) : WatchResult :=
  {| video_url := video_url r; frames_analyzed := frames_analyzed r;
     scenes_detected := scenes_detected r; objects_seen := objects_seen r;
     text_found := text_found r; motion_events := motion_events r;
     visual_summary := visual_summary r;
     comprehension_score := comprehension_score r; success := success r;
     error := error r; video_duration := Some v |}.

(** The dictionary [watch_video] starts from. *)
Definition new_watch_result (url : string) : WatchResult :=
  {| video_url := url; frames_analyzed := 0%Z;
     scenes_detected := []; objects_seen := []; text_found := [];
     motion_events := []; visual_summary := EmptyString;
     comprehension_score := 0.0; success := false;
     error := None; video_duration := None |}.

Definition with_scene_description (v : string) (a : FrameAnalysis)
  : FrameAnalysis :=
  {| fa_timestamp := fa_timestamp a; objects_detected := objects_detected a;
     fa_text_found := fa_text_found a;
     fa_motion_detected := fa_motion_detected a;
     scene_change := scene_change a; scene_description := v;
     colors_dominant := colors_dominant a; brightness := brightness a |}.

Definition with_scene_change (v : bool) (a : FrameAnalysis) : FrameAnalysis :=
  {| fa_timestamp := fa_timestamp a; objects_detected := objects_detected a;
     fa_text_found := fa_text_found a;
     fa_motion_detected := fa_motion_detected a;
     scene_change := v; scene_description := scene_description a;
     colors_dominant := colors_dominant a; brightness := brightness a |}.

(* ================================================================== *)
(** ** The engine object and its methods *)
(* ================================================================== *)

Section Engine.

(** [self.video_understanding], the knowledge store: its contents are
    written by the bookkeeping of [_learn_from_video_watching] only and
    read by no method modelled here, so its type is left open. *)
Variable Store : Type.

(** The attributes of a [VideoVisionEngine] instance. *)
Record Engine : Type := {
  video_vision_skills : Skills;
  video_understanding : Store;
  object_detector : bool;          (* [self.object_detector is not None] *)
  _last_brightness : option Q      (* absent until [_detect_scene_change] assigns it *)
}.

Definition set_skills (v : Skills) (e : Engine) : Engine :=
  {| video_vision_skills := v; video_understanding := video_understanding e;
     object_detector := object_detector e;
     _last_brightness := _last_brightness e |}.

Definition set_understanding (v : Store) (e : Engine) : Engine :=
  {| video_vision_skills := video_vision_skills e; video_understanding := v;
     object_detector := object_detector e;
     _last_brightness := _last_brightness e |}.

Definition set_last_brightness (v : Q) (e : Engine) : Engine :=
  {| video_vision_skills := video_vision_skills e;
     video_understanding := video_understanding e;
     object_detector := object_detector e;
     _last_brightness := Some v |}.

(** The collaborators of the engine. *)
Record World : Type := {
  (** [_prepare_video_for_analysis]: the local path of the video, or
      [None]; the method catches every exception of its own. *)
  resolve_video : string -> option string;
  (** [cv2.VideoCapture(path)], [None] when [cap.isOpened()] is false. *)
  open_capture : string -> option Capture;
  (** [cv2.absdiff], [cv2.threshold] and [cv2.findContours] on the
      current and the previous frame, for a threshold. *)
  absdiff : Z -> Frame -> Frame -> FrameDiff;
  (** [tempfile.gettempdir()]. *)
  gettempdir : Exc string;
  (** [os.remove(path)]. *)
  os_remove : string -> Exc unit;
  (** The bookkeeping of [_learn_from_video_watching] (source lines
      709-780) on the knowledge store; the store it leaves is kept
      also when it raises. *)
  remember : WatchResult -> Store -> Exc unit * Store;
  (** The [try] block of [save_video_vision_data]. *)
  json_dump : Engine -> Exc unit
}.

Variable w : World.

(** The state the methods of one [watch_video] call work on: the engine
    and the [watch_result] dictionary. *)
Record St : Type := { self : Engine; watch_result : WatchResult }.

Definition on_self (f : Engine -> Engine) (s : St) : St :=
  {| self := f (self s); watch_result := watch_result s |}.

Definition on_result (f : WatchResult -> WatchResult) (s : St) : St :=
  {| self := self s; watch_result := f (watch_result s) |}.

Definition _detect_scene_change (frame_analysis : FrameAnalysis) (timestamp : Q)
  : M St bool :=
  last <- gets (fun s => _last_brightness (self s)) ;;
  let scene_change_indicators := 0%Z in
  let scene_change_indicators :=
    match last with
    | Some last_brightness =>
        let brightness_diff := Qabs (brightness frame_analysis - last_brightness) in
        if Qgtb brightness_diff 0.3
        then (scene_change_indicators + 1)%Z else scene_change_indicators
    | None => scene_change_indicators
    end in
  modify (on_self (set_last_brightness (brightness frame_analysis))) ;;
  let scene_change_indicators :=
    if truthy (objects_detected frame_analysis)
    then (scene_change_indicators + 1)%Z else scene_change_indicators in
  let scene_change_indicators :=
    match fa_motion_detected frame_analysis with
    | Some motion =>
        if Qgtb (motion_intensity motion) 0.2
        then (scene_change_indicators + 1)%Z else scene_change_indicators
    | None => scene_change_indicators
    end in
  ret (2 <=? scene_change_indicators)%Z.

(** [_analyze_single_frame].  The OpenCV measurements are total in the
    model, so the [except] branch of the method is never taken. *)
Definition _analyze_single_frame (frame : Frame) (timestamp : Q)
    (previous_frame : option Frame) : M St FrameAnalysis :=
  detector <- gets (fun s => object_detector (self s)) ;;
  let objects :=
    if detector then map (face_object timestamp) (faces frame) else [] in
  let motion :=
    match previous_frame with
    | Some previous =>
        let motion_info := _detect_motion (absdiff w motion_threshold frame previous) in
        if motion_detected motion_info then Some motion_info else None
    | None => None
    end in
  let frame_analysis :=
    {| fa_timestamp := timestamp;
       objects_detected := objects;
       fa_text_found := _detect_text_in_frame frame timestamp;
       fa_motion_detected := motion;
       scene_change := false;
       scene_description := EmptyString;
       colors_dominant := _analyze_frame_colors frame;
       brightness := gray_mean frame / 255.0 |} in
  let frame_analysis :=
    with_scene_description (_describe_frame_scene frame_analysis) frame_analysis in
  change <- _detect_scene_change frame_analysis timestamp ;;
  ret (with_scene_change change frame_analysis).

(** "Collect insights": what one analysed frame adds to [watch_result]. *)
Definition collect (frame_analysis : FrameAnalysis) (frame_count fps : Z)
  : M St unit :=
  (if truthy (objects_detected frame_analysis)
   then modify (on_result (fun r =>
          set_objects_seen (objects_seen r ++ objects_detected frame_analysis)%list r))
   else ret tt) ;;
  (if truthy (fa_text_found frame_analysis)
   then modify (on_result (fun r =>
          set_text_found (text_found r ++ fa_text_found frame_analysis)%list r))
   else ret tt) ;;
  match fa_motion_detected frame_analysis with
  | Some motion =>
      modify (on_result (fun r =>
        set_motion_events (motion_events r ++ [motion])%list r))
  | None => ret tt
  end ;;
  if scene_change frame_analysis then
    timestamp <- lift (truediv frame_count fps) ;;
    modify (on_result (fun r =>
      set_scenes_detected
        (scenes_detected r ++
           [ {| scene_timestamp := timestamp;
                description := scene_description frame_analysis |} ])%list r))
  else ret tt.

(** The [while frame_count < max_frames] loop.  [frames] is what
    [cap.read()] still has to deliver; an exhausted capture answers
    [ret = False].  The result is the final [analyzed_frames]. *)
Fixpoint frame_loop (fps max_frames frame_skip : Z) (frames : list Frame)
    (frame_count analyzed_frames : Z) (previous_frame : option Frame)
  : M St Z :=
  if (frame_count <? max_frames)%Z then
    match frames with
    | [] => ret analyzed_frames
    | frame :: rest =>
        phase <- lift (mod_ frame_count frame_skip) ;;
        step <-
          (if (phase =? 0)%Z then
             timestamp <- lift (truediv frame_count fps) ;;
             frame_analysis <- _analyze_single_frame frame timestamp previous_frame ;;
             collect frame_analysis frame_count fps ;;
             ret ((analyzed_frames + 1)%Z, Some frame)
           else ret (analyzed_frames, previous_frame)) ;;
        let frame_count := (frame_count + 1)%Z in
        tick <- lift (mod_ frame_count (fps * 5)) ;;
        (if (tick =? 0)%Z
         then progress <- lift (truediv frame_count max_frames) ;; ret tt
         else ret tt) ;;
        frame_loop fps max_frames frame_skip rest frame_count (fst step) (snd step)
    end
  else ret analyzed_frames.

(** [frame_skip = max(1, fps // 2)]. *)
Definition frame_skip_of (fps : Z) : Exc Z :=
  match floordiv fps 2 with
  | Ok half => Ok (Z.max 1 half)
  | Raise e => Raise e
  end.

Definition _analyze_video_content (video_path : string) (duration_limit : Z)
  : M St unit :=
  try_except
    (match open_capture w video_path with
     | None => ret tt
     | Some cap =>
         let fps := cap_fps cap in
         let total_frames := cap_frame_count cap in
         video_duration <-
           (if (0 <? fps)%Z then lift (truediv total_frames fps) else ret 0) ;;
         let max_frames := Z.min total_frames (duration_limit * fps) in
         frame_skip <- lift (frame_skip_of fps) ;;
         analyzed_frames <-
           frame_loop fps max_frames frame_skip (cap_frames cap) 0 0 None ;;
         modify (on_result (set_frames_analyzed analyzed_frames)) ;;
         modify (on_result (set_video_duration video_duration))
     end)
    (fun e => modify (on_result (set_error (str_exc e)))).

Definition _learn_from_video_watching : M St unit :=
  try_except
    (result <- gets watch_result ;;
     (fun s =>
        let '(outcome, store) := remember w result (video_understanding (self s)) in
        (outcome, on_self (set_understanding store) s)) ;;
     modify (on_self (fun e =>
       set_skills (_update_video_vision_skills (video_vision_skills e) result) e)))
    (fun _ => ret tt).

Definition save_video_vision_data : M St unit :=
  try_except
    (engine <- gets self ;; lift (json_dump w engine))
    (fun _ => ret tt).

(** The body of [watch_video] after [watch_result] has been created, on
    a console that raises nothing. *)
Definition watch_video_body (video_url : string) (duration_limit : Z)
  : M St unit :=
  try_except
    (match resolve_video w video_url with
     | Some (String c rest as video_path) =>
         _analyze_video_content video_path duration_limit ;;
         modify (on_result (fun r =>
           set_visual_summary (_generate_video_summary r) r)) ;;
         modify (on_result (fun r =>
           set_comprehension_score (_calculate_comprehension_score r) r)) ;;
         _learn_from_video_watching ;;
         tmp <- lift (gettempdir w) ;;
         (if prefix tmp video_path
          then try_except (lift (os_remove w video_path)) (fun _ => ret tt)
          else ret tt) ;;
         modify (on_result (set_success true))
     | _ =>
         modify (on_result (set_error "Could not prepare video for analysis"))
     end)
    (fun e => modify (on_result (set_error (str_exc e)))) ;;
  save_video_vision_data.

(** [watch_video]: the value returned (or the exception raised) and the
    engine as the call leaves it, on a console that raises nothing.
    The lines the method prints, three of them before its [try]
    statement, are in [Console.watch_video]. *)
Definition watch_video (engine : Engine) (video_url : string)
    (duration_limit : Z) : Exc WatchResult * Engine :=
  match watch_video_body video_url duration_limit
          {| self := engine; watch_result := new_watch_result video_url |} with
  | (Ok _, s) => (Ok (watch_result s), self s)
  | (Raise e, s) => (Raise e, self s)
  end.

(** [watch_video] called once per entry of [calls] on the same engine. *)
Fixpoint watch_videos (engine : Engine) (calls : list (string * Z)) : Engine :=
  match calls with
  | [] => engine
  | (video_url, duration_limit) :: rest =>
      watch_videos (snd (watch_video engine video_url duration_limit)) rest
  end.

End Engine.

Arguments video_vision_skills {Store} e.
Arguments video_understanding {Store} e.
Arguments object_detector {Store} e.
Arguments _last_brightness {Store} e.
Arguments Build_Engine {Store}.
Arguments set_skills {Store} v e.
Arguments set_understanding {Store} v e.
Arguments set_last_brightness {Store} v e.
Arguments resolve_video {Store} w.
Arguments open_capture {Store} w.
Arguments absdiff {Store} w.
Arguments gettempdir {Store} w.
Arguments os_remove {Store} w.
Arguments remember {Store} w.
Arguments json_dump {Store} w.
Arguments Build_World {Store}.
Arguments self {Store} s.
Arguments watch_result {Store} s.
Arguments Build_St {Store}.
Arguments on_self {Store} f s.
Arguments on_result {Store} f s.
Arguments _detect_scene_change {Store} frame_analysis timestamp.
Arguments _analyze_single_frame {Store} w frame timestamp previous_frame.
Arguments collect {Store} frame_analysis frame_count fps.
Arguments frame_loop {Store} w fps max_frames frame_skip frames.
Arguments _analyze_video_content {Store} w video_path duration_limit.
Arguments _learn_from_video_watching {Store} w.
Arguments save_video_vision_data {Store} w.
Arguments watch_video_body {Store} w video_url duration_limit.
Arguments watch_video {Store} w engine video_url duration_limit.
Arguments watch_videos {Store} w engine calls.

(** The engine [__init__] builds when no saved data is loaded. *)
Definition new_engine {Store : Type} (store : Store) : Engine Store :=
  {| video_vision_skills := initial_skills;
     video_understanding := store;
     object_detector := true;
     _last_brightness := None |}.

(* ================================================================== *)
(** ** The specification's reading of the aggregation rules *)
(* ================================================================== *)

Module Spec.

(** Section 4.5: a sub-score is a saturating function of a count, worth
    up to 0.2. *)
Definition sub_score (count : Z) (cap : Q) : Q :=
  Qmin (inject_Z count / cap) 1 * 0.2.

(** Section 4.5: the weight of a sub-score counts only when the category
    had at least one contributing observation. *)
Definition weight (count : Z) : Q := if (0 <? count)%Z then 0.2 else 0.

Definition sub_scores (r : WatchResult) : Q :=
  sub_score (frames_analyzed r) 100
  + sub_score (len (scenes_detected r)) 5
  + sub_score (len (objects_seen r)) 10
  + sub_score (len (text_found r)) 5
  + sub_score (len (motion_events r)) 20.

Definition applicable_weights (r : WatchResult) : Q :=
  weight (frames_analyzed r)
  + weight (len (scenes_detected r))
  + weight (len (objects_seen r))
  + weight (len (text_found r))
  + weight (len (motion_events r)).

(** "summed and divided by the sum of weights for sub-scores that had at
    least one contributing observation". *)
Definition applicable_weight_score (r : WatchResult) : Q :=
  sub_scores r / applicable_weights r.

(** Section 4.5: "average motion intensity bucketed (>0.1 high, >0.05
    moderate, else low)". *)
Inductive MotionBucket : Type := high | moderate | low.

Definition motion_bucket (avg_motion : Q) : MotionBucket :=
  if Qgtb avg_motion 0.1 then high
  else if Qgtb avg_motion 0.05 then moderate
  else low.

(** Section 4.2: the stride the sampler is said to fall back to. *)
Definition fallback_stride : Z := 15.

End Spec.

(** The bucket a sentence of the summary reports, if it is the motion
    sentence. *)
Definition reported_bucket (p : SummaryPart) : option Spec.MotionBucket :=
  match p with
  | HighMotion _ => Some Spec.high
  | ModerateMotion _ => Some Spec.moderate
  | _ => None
  end.

(** At least two of three conditions hold. *)
Definition at_least_two (P Q R : Prop) : Prop :=
  (P /\ Q) \/ (P /\ R) \/ (Q /\ R).

(** Every gauge of [s] lies in [0, 1]. *)
Definition gauges_in_unit (s : Skills) : Prop :=
  (0 <= frame_analysis s <= 1) /\ (0 <= motion_detection s <= 1)
  /\ (0 <= scene_understanding s <= 1) /\ (0 <= text_recognition s <= 1)
  /\ (0 <= object_tracking s <= 1) /\ (0 <= audio_processing s <= 1)
  /\ (0 <= content_comprehension s <= 1) /\ (0 <= real_time_learning s <= 1).

(** Every gauge of [s'] is at least the gauge of [s] and at most [d]
    above it. *)
Definition gauges_moved_up_by (d : Q) (s s' : Skills) : Prop :=
  (frame_analysis s <= frame_analysis s' <= frame_analysis s + d)
  /\ (motion_detection s <= motion_detection s' <= motion_detection s + d)
  /\ (scene_understanding s <= scene_understanding s' <= scene_understanding s + d)
  /\ (text_recognition s <= text_recognition s' <= text_recognition s + d)
  /\ (object_tracking s <= object_tracking s' <= object_tracking s + d)
  /\ (audio_processing s <= audio_processing s' <= audio_processing s + d)
  /\ (content_comprehension s <= content_comprehension s'
        <= content_comprehension s + d)
  /\ (real_time_learning s <= real_time_learning s' <= real_time_learning s + d).

(* ================================================================== *)
(** ** Concrete videos and collaborators *)
(* ================================================================== *)

Module Scenario.

(** A world with no knowledge store to speak of, a temporary directory
    [/tmp], and frames that never differ from one another. *)
Definition still : FrameDiff :=
  {| changed_pixels := 0; total_pixels := 100; diff_contours := [] |}.

Definition world (resolve : string -> option string)
    (open : string -> option Capture) (remove : string -> Exc unit)
  : World unit :=
  {| resolve_video := resolve;
     open_capture := open;
     absdiff := fun _ _ _ => still;
     gettempdir := Ok "/tmp";
     os_remove := remove;
     remember := fun _ store => (Ok tt, store);
     json_dump := fun _ => Ok tt |}.

Definition found (path : string) : option string := Some path.

(** Scenario A of the specification: only frame analysis contributed,
    20 frames of a 10 second video. *)
Definition frames_only : WatchResult :=
  set_video_duration 10 (set_frames_analyzed 20 (new_watch_result "black.mp4")).

(** One motion event of intensity 0.03 and nothing else. *)
Definition slow_pan : WatchResult :=
  set_motion_events
    [ {| motion_detected := true; motion_intensity := 0.03; motion_areas := [] |} ]
    (set_frames_analyzed 2 (new_watch_result "pan.mp4")).

(** A frame that is white all over, and a black one with one face. *)
Definition white_frame : Frame :=
  {| gray_mean := 255; faces := []; edge_rects := [];
     mean_color := (255, 255, 255) |}.

Definition dark_face_frame : Frame :=
  {| gray_mean := 0;
     faces := [ {| rect_x := 10; rect_y := 10; rect_w := 40; rect_h := 40 |} ];
     edge_rects := [];
     mean_color := (0, 0, 0) |}.

(** A frame whose channel means all exceed 150 and are pairwise distinct. *)
Definition pale_frame : Frame :=
  {| gray_mean := 180; faces := []; edge_rects := [];
     mean_color := (200, 180, 160) |}.

Definition one_frame_video (frame : Frame) : Capture :=
  {| cap_fps := 10; cap_frame_count := 1; cap_frames := [frame] |}.

(** A capture whose metadata reports no frame rate. *)
Definition no_fps_video : Capture :=
  {| cap_fps := 0; cap_frame_count := 300;
     cap_frames := [white_frame; white_frame; white_frame] |}.

(** An existing file that OpenCV cannot open. *)
Definition corrupt_world : World unit :=
  world found (fun _ => None) (fun _ => Ok tt).

(** Two readable one-frame videos. *)
Definition two_videos : World unit :=
  world found
    (fun path => if String.eqb path "white.mp4"
                 then Some (one_frame_video white_frame)
                 else Some (one_frame_video dark_face_frame))
    (fun _ => Ok tt).


Definition no_fps_world : World unit :=
  world found (fun _ => Some no_fps_video) (fun _ => Ok tt).

End Scenario.

(* ================================================================== *)
(** ** What one watch leaves behind *)
(* ================================================================== *)

(** What [collect] writes into [watch_result] for one analysed frame. *)
Definition collected (frame_analysis : FrameAnalysis) (frame_count fps : Z)
    (r : WatchResult) : WatchResult :=
  let r :=
    if truthy (objects_detected frame_analysis)
    then set_objects_seen (objects_seen r ++ objects_detected frame_analysis)%list r
    else r in
  let r :=
    if truthy (fa_text_found frame_analysis)
    then set_text_found (text_found r ++ fa_text_found frame_analysis)%list r
    else r in
  let r :=
    match fa_motion_detected frame_analysis with
    | Some motion => set_motion_events (motion_events r ++ [motion])%list r
    | None => r
    end in
  if scene_change frame_analysis
  then set_scenes_detected
         (scenes_detected r ++
            [ {| scene_timestamp := inject_Z frame_count / inject_Z fps;
                 description := scene_description frame_analysis |} ])%list r
  else r.

(** The number of multiples of [k] below [n]. *)
Definition ceil_div (n k : Z) : Z := ((n + k - 1) / k)%Z.

(** The frame index at which the loop stops. *)
Definition loop_exit (frame_count : Z) (frames : list Frame) (max_frames : Z) : Z :=
  Z.min (frame_count + len frames) (Z.max frame_count max_frames).

(** The two assignments of [watch_video] after the analysis:
    ['visual_summary'], then ['comprehension_score']. *)
Definition summarised_and_scored (r : WatchResult) : WatchResult :=
  let r := set_visual_summary (_generate_video_summary r) r in
  set_comprehension_score (_calculate_comprehension_score r) r.

(** The observation lists and counters of two dictionaries agree. *)
Definition same_observations (r r' : WatchResult) : Prop :=
  frames_analyzed r = frames_analyzed r'
  /\ scenes_detected r = scenes_detected r'
  /\ objects_seen r = objects_seen r'
  /\ text_found r = text_found r'
  /\ motion_events r = motion_events r'
  /\ video_duration r = video_duration r'.

(** An object entry as the face detector writes it. *)
Definition is_face (o : DetectedObject) : Prop :=
  obj_type o = "face" /\ obj_confidence o = 0.8.

(** A motion entry that passed the 1% floor of [_detect_motion]. *)
Definition above_floor (m : MotionInfo) : Prop :=
  motion_detected m = true /\ 0.01 < motion_intensity m.

(** What holds of the observations once [analyzed] frames were analysed. *)
Definition observations_ok (analyzed : Z) (r : WatchResult) : Prop :=
  (0 <= analyzed)%Z
  /\ (len (scenes_detected r) <= analyzed)%Z
  /\ (len (text_found r) <= analyzed)%Z
  /\ (len (motion_events r) <= Z.max 0 (analyzed - 1))%Z
  /\ Forall is_face (objects_seen r)
  /\ Forall above_floor (motion_events r)
  /\ Forall (fun t => (0 < regions_count t)%Z) (text_found r).

(** How many of the five observation categories of a result are
    non-empty. *)
Definition nonempty_categories (r : WatchResult) : Z :=
  ((if (0 <? frames_analyzed r)%Z then 1 else 0)
   + (if truthy (scenes_detected r) then 1 else 0)
   + (if truthy (objects_seen r) then 1 else 0)
   + (if truthy (text_found r) then 1 else 0)
   + (if truthy (motion_events r) then 1 else 0))%Z.

(* ================================================================== *)
(** ** The knowledge store and the status report *)
(* ================================================================== *)

Module Knowledge.

(** A [dict] with string keys, in insertion order. *)
Definition Dict (V : Type) : Type := list (string * V).

(** [d.get(k)]. *)
Fixpoint get {V : Type} (k : string) (d : Dict V) : option V :=
  match d with
  | [] => None
  | (k', v) :: rest => if String.eqb k k' then Some v else get k rest
  end.

(** [d[k] = v]: an existing key keeps its place, a new key goes last. *)
Fixpoint set {V : Type} (k : string) (v : V) (d : Dict V) : Dict V :=
  match d with
  | [] => [(k, v)]
  | (k', v') :: rest =>
      if String.eqb k k' then (k, v) :: rest else (k', v') :: set k v rest
  end.

(** An entry of [video_understanding['objects_tracked']]; ['first_seen']
    (the wall clock) is left out. *)
Record ObjectMemory : Type := {
  total_sightings : Z;
  videos_seen_in : list string
}.

(** [x in xs] on strings. *)
Definition contains (x : string) (xs : list string) : bool :=
  existsb (String.eqb x) xs.

(** One round of the loop "Learn from objects" of
    [_learn_from_video_watching] (source lines 740-752). *)
Definition track_object (video_id : string) (objects_tracked : Dict ObjectMemory)
    (obj : DetectedObject) : Dict ObjectMemory :=
  let obj_type := obj_type obj in
  let objects_tracked :=
    match get obj_type objects_tracked with
    | None =>
        set obj_type {| total_sightings := 0; videos_seen_in := [] |}
          objects_tracked
    | Some _ => objects_tracked
    end in
  match get obj_type objects_tracked with
  | Some obj_data =>
      let seen :=
        if contains video_id (videos_seen_in obj_data)
        then videos_seen_in obj_data
        else (videos_seen_in obj_data ++ [video_id])%list in
      set obj_type
        {| total_sightings := (total_sightings obj_data + 1)%Z;
           videos_seen_in := seen |}
        objects_tracked
  | None => objects_tracked
  end.

(** The whole loop over [watch_result['objects_seen']]. *)
Definition track_objects (video_id : string) (objects : list DetectedObject)
    (objects_tracked : Dict ObjectMemory) : Dict ObjectMemory :=
  fold_left (track_object video_id) objects objects_tracked.

(** The sightings recorded for a type, 0 when the type is unknown. *)
Definition sightings_of (obj_type : string) (objects_tracked : Dict ObjectMemory) : Z :=
  match get obj_type objects_tracked with
  | Some obj_data => total_sightings obj_data
  | None => 0%Z
  end.

(** An entry of the list [_get_most_detected_objects] returns. *)
Record ObjectCount : Type := {
  count_type : string;
  sightings : Z;
  videos : Z
}.

(** [sorted(xs, key=key, reverse=True)]: descending and stable. *)
Fixpoint insert_desc {A : Type} (key : A -> Z) (x : A) (sorted : list A) : list A :=
  match sorted with
  | [] => [x]
  | y :: rest =>
      if (key x <? key y)%Z then y :: insert_desc key x rest else x :: y :: rest
  end.

Definition sorted_desc {A : Type} (key : A -> Z) (xs : list A) : list A :=
  fold_right (insert_desc key) [] xs.

Definition _get_most_detected_objects (objects_tracked : Dict ObjectMemory)
  : list ObjectCount :=
  let objects :=
    map (fun entry =>
           {| count_type := fst entry;
              sightings := total_sightings (snd entry);
              videos := len (videos_seen_in (snd entry)) |})
        objects_tracked in
  firstn 5 (sorted_desc sightings objects).

(** [_get_average_comprehension] over the ['comprehension_score'] of the
    watched videos. *)
Definition _get_average_comprehension (scores : list Q) : Q :=
  if truthy scores
  then fold_right Qplus 0 scores / inject_Z (len scores)
  else 0.0.

(** ['overall_video_vision'] of [get_video_vision_status]:
    [sum(skills.values()) / len(skills)]. *)
Definition overall_video_vision (s : Skills) : Q :=
  (frame_analysis s + motion_detection s + scene_understanding s
   + text_recognition s + object_tracking s + audio_processing s
   + content_comprehension s + real_time_learning s) / 8.

(** An entry of the list [_generate_learning_insights] returns;
    ['timestamp'] (the wall clock) is left out. *)
Record Insight : Type := { insight_type : string; insight : string }.

Definition _generate_learning_insights (watch_result : WatchResult) : list Insight :=
  let comprehension := comprehension_score watch_result in
  let part_comprehension :=
    if Qgtb comprehension 0.8 then
      [ {| insight_type := "comprehension";
           insight := "Achieved high video comprehension ("
                        ++ format_fixed 2 comprehension ++ ")" |} ]
    else [] in
  let scenes := scenes_detected watch_result in
  let part_scenes :=
    if (3 <? len scenes)%Z then
      [ {| insight_type := "scene_analysis";
           insight := "Successfully identified " ++ str_int (len scenes)
                        ++ " distinct scenes" |} ]
    else [] in
  let unique_objects := unique (map obj_type (objects_seen watch_result)) in
  let part_objects :=
    if (2 <? len unique_objects)%Z then
      [ {| insight_type := "object_detection";
           insight := "Detected " ++ str_int (len unique_objects)
                        ++ " different object types" |} ]
    else [] in
  let motion_events := motion_events watch_result in
  let part_motion :=
    if truthy motion_events then
      let avg_motion := mean (map motion_intensity motion_events) in
      [ {| insight_type := "motion_analysis";
           insight := "Analyzed motion patterns with " ++ format_fixed 2 avg_motion
                        ++ " average intensity" |} ]
    else [] in
  (part_comprehension ++ part_scenes ++ part_objects ++ part_motion)%list.

End Knowledge.

(* ================================================================== *)
(** ** Callers of [watch_video] *)
(* ================================================================== *)

Module Callers.

(** *** [VideoFunctionsManager.execute_video_vision] *)

(** [self.performance_metrics], the two entries the method writes. *)
Record Metrics : Type := {
  total_videos_processed : Z;
  average_comprehension : Q
}.

(** The dictionary the method returns. *)
Inductive VisionResponse : Type :=
| VisionDone (comprehension_score : Q) (frames_analyzed : Z)
    (text_found : list TextInstance) (objects_detected : list DetectedObject)
    (visual_summary : string) (video_path : string)
| VisionFailed (error : string).

Definition vision_succeeded (response : VisionResponse) : bool :=
  match response with VisionDone _ _ _ _ _ _ => true | VisionFailed _ => false end.

Definition vision_score (response : VisionResponse) : Q :=
  match response with VisionDone c _ _ _ _ _ => c | VisionFailed _ => 0 end.

(** [execute_video_vision]: the response, the engine of [self.ai] and the
    metrics as the call leaves them.  ['total_videos_processed'] is
    incremented before the division, and stays so when the division
    raises.  [watch_result] has no key ['objects_detected'], so
    [vision_result.get('objects_detected', [])] is the empty list. *)
Definition execute_video_vision {Store : Type} (w : World Store)
    (ai : option (Engine Store)) (metrics : Metrics) (video_path : string)
  : VisionResponse * option (Engine Store) * Metrics :=
  match ai with
  | None => (VisionFailed "AI instance not available", ai, metrics)
  | Some engine =>
      match watch_video w engine video_path 300 with
      | (Raise e, engine') => (VisionFailed (str_exc e), Some engine', metrics)
      | (Ok vision_result, engine') =>
          if success vision_result then
            let total_videos := (total_videos_processed metrics + 1)%Z in
            let comprehension := comprehension_score vision_result in
            let current_avg := average_comprehension metrics in
            if (total_videos =? 0)%Z then
              (VisionFailed "float division by zero", Some engine',
               {| total_videos_processed := total_videos;
                  average_comprehension := current_avg |})
            else
              (VisionDone comprehension (frames_analyzed vision_result)
                 (text_found vision_result) [] (visual_summary vision_result)
                 video_path,
               Some engine',
               {| total_videos_processed := total_videos;
                  average_comprehension :=
                    ((current_avg * inject_Z (total_videos - 1)) + comprehension)
                    / inject_Z total_videos |})
          else (VisionFailed "Video analysis failed", Some engine', metrics)
      end
  end.

(** [execute_video_vision] once per path, on the same manager. *)
Fixpoint execute_video_visions {Store : Type} (w : World Store)
    (ai : option (Engine Store)) (metrics : Metrics) (paths : list string)
  : list VisionResponse * option (Engine Store) * Metrics :=
  match paths with
  | [] => ([], ai, metrics)
  | path :: rest =>
      let '(response, ai1, metrics1) := execute_video_vision w ai metrics path in
      let '(responses, ai2, metrics2) := execute_video_visions w ai1 metrics1 rest in
      (response :: responses, ai2, metrics2)
  end.

(** The metrics of a new manager. *)
Definition new_metrics : Metrics :=
  {| total_videos_processed := 0; average_comprehension := 0.0 |}.

(** *** [PersonalityAI._watch_video_real]: the remarks it prints

    The remark on the comprehension score and the remark on the average
    motion intensity, each without the emoji or bullet that the printed
    line starts with.  [comprehension] is the float the
    program holds; the properties take it within rounding distance of
    the exact score. *)

Definition comprehension_remark (comprehension : Q) : string :=
  if Qgtb comprehension 0.8
  then "Excellent understanding - I grasped the video content very well!"
  else if Qgtb comprehension 0.6
  then "Good understanding - I understood most of the video content"
  else if Qgtb comprehension 0.4
  then "Moderate understanding - I caught some key elements"
  else "Basic understanding - I need to improve my video analysis".

(** The motion remark, printed when [motion_events] is not empty.  The
    source sums over [m for m in motion_events if m]; a motion
    dictionary has three keys and is never falsy. *)
Definition motion_remark (motion_events : list MotionInfo) : string :=
  let avg_motion :=
    fold_right Qplus 0 (map motion_intensity motion_events)
    / inject_Z (len motion_events) in
  if Qgtb avg_motion 0.1
  then "High motion content - lots of movement and activity"
  else if Qgtb avg_motion 0.05
  then "Moderate motion - some movement and transitions"
  else "Low motion - mostly static content".

End Callers.

(** ** Locating the video: [_prepare_video_for_analysis]

    The method that [resolve_video] stands for.  Its collaborators are
    the file system ([path_exists] is [os.path.exists]), the URL parser
    ([scheme video_url] is [urlparse(video_url).scheme]) and
    [_download_real_video], which catches every exception and returns
    a path or [None].  An exception raised in the body is answered
    with [None]; the collaborators are total here, so the model has no
    such branch. *)
Module Prepare.

Definition video_extensions : list string :=
  [".mp4"; ".avi"; ".mov"; ".mkv"; ".wmv"; ".flv"; ".webm"].

Definition is_web (scheme : string) : bool :=
  existsb (String.eqb scheme) ["http"; "https"].

Section Prepare.
Variable path_exists : string -> bool.
Variable scheme : string -> string.
Variable _download_real_video : string -> option string.

Definition _prepare_video_for_analysis (video_url : string) : option string :=
  if path_exists video_url then Some video_url
  else if is_web (scheme video_url) then
    match _download_real_video video_url with
    | Some downloaded_path =>
        match downloaded_path with
        | EmptyString => None
        | String _ _ => Some downloaded_path
        end
    | None => None
    end
  else
    find path_exists (map (fun ext => video_url ++ ext) video_extensions).

End Prepare.

End Prepare.

(** ** The file interface: [video_vision_interface.py]

    [VideoVisionInterface] checks a path before it hands it to the
    engine, keeps a history of the successful watches and analyses
    batches of files.  The methods are stated here as they run on a
    console that raises nothing; [Console] below prints their lines.
    The file system
    and the clock are collaborators: [path_exists] is [os.path.exists],
    [splitext_lower path] is [os.path.splitext(path)[1].lower()], and
    [now] is the reading of [datetime.now().isoformat()]. *)
Module Interface.

(** What [watch_video_file] returns: the engine's [watch_result], or a
    dict that holds ['success': False] and ['error'] only. *)
Inductive FileResult : Type :=
| Analysed (vision_result : WatchResult)
| ErrorOnly (error : string).

(** [result.get('success', False)], [result.get('frames_analyzed', 0)]
    and [result.get('comprehension_score', 0)]. *)
Definition get_success (result : FileResult) : bool :=
  match result with
  | Analysed vision_result => success vision_result
  | ErrorOnly _ => false
  end.

Definition get_frames_analyzed (result : FileResult) : Z :=
  match result with
  | Analysed vision_result => frames_analyzed vision_result
  | ErrorOnly _ => 0%Z
  end.

Definition get_comprehension_score (result : FileResult) : Q :=
  match result with
  | Analysed vision_result => comprehension_score vision_result
  | ErrorOnly _ => 0
  end.

Record HistoryEntry : Type := {
  entry_video_path : string;
  entry_timestamp : string;
  entry_result : WatchResult
}.

Record BatchEntry : Type := {
  batch_video_path : string;
  batch_result : FileResult
}.

Record BatchSummary : Type := {
  total_frames_analyzed : Z;
  average_comprehension : Q;
  success_rate : Q
}.

(** The dict [results] of [analyze_video_batch]; an empty ['summary']
    is [None]. *)
Record BatchResults : Type := {
  total_videos : Z;
  successful_analyses : Z;
  failed_analyses : Z;
  results : list BatchEntry;
  summary : option BatchSummary
}.

Definition supported_formats : list string :=
  [".mp4"; ".avi"; ".mov"; ".mkv"; ".wmv"; ".webm"; ".flv"].

Section Interface.
Context {Store : Type}.
Variable w : World Store.
Variable path_exists : string -> bool.
Variable splitext_lower : string -> string.
Variable now : string.

(** [self.ai] is [None] or an object whose [video_vision] is the
    engine. *)
Record VideoVisionInterface : Type := {
  ai : option (Engine Store);
  vision_history : list HistoryEntry
}.

Definition watch_video_file (self : VideoVisionInterface)
    (video_path : string) (duration_limit : Z)
  : FileResult * VideoVisionInterface :=
  match ai self with
  | None => (ErrorOnly "AI instance not available", self)
  | Some engine =>
      if negb (path_exists video_path) then
        (ErrorOnly ("Video file not found: " ++ video_path), self)
      else
        let file_ext := splitext_lower video_path in
        if negb (existsb (String.eqb file_ext) supported_formats) then
          (ErrorOnly ("Unsupported format: " ++ file_ext), self)
        else
          match watch_video w engine video_path duration_limit with
          | (Ok vision_result, engine') =>
              if success vision_result then
                (Analysed vision_result,
                 {| ai := Some engine';
                    vision_history :=
                      (vision_history self
                         ++ [ {| entry_video_path := video_path;
                                 entry_timestamp := now;
                                 entry_result := vision_result |} ])%list |})
              else
                (Analysed vision_result,
                 {| ai := Some engine';
                    vision_history := vision_history self |})
          | (Raise e, engine') =>
              (ErrorOnly (str_exc e),
               {| ai := Some engine'; vision_history := vision_history self |})
          end
  end.

(** The loop of [analyze_video_batch]: the counters and the entries
    after the paths [video_paths], in order. *)
Fixpoint batch_loop (self : VideoVisionInterface) (video_paths : list string)
    (duration_limit : Z) (successful failed : Z) (entries : list BatchEntry)
  : Z * Z * list BatchEntry * VideoVisionInterface :=
  match video_paths with
  | [] => (successful, failed, entries, self)
  | video_path :: rest =>
      let '(result, self1) := watch_video_file self video_path duration_limit in
      let entry := {| batch_video_path := video_path; batch_result := result |} in
      if get_success result
      then batch_loop self1 rest duration_limit (successful + 1)%Z failed
             (entries ++ [entry])%list
      else batch_loop self1 rest duration_limit successful (failed + 1)%Z
             (entries ++ [entry])%list
  end.

(** The results of the successful entries. *)
Definition successful_results (entries : list BatchEntry) : list FileResult :=
  filter get_success (map batch_result entries).

Definition analyze_video_batch (self : VideoVisionInterface)
    (video_paths : list string) (duration_limit : Z)
  : Exc BatchResults * VideoVisionInterface :=
  let '(successful, failed, entries, self') :=
    batch_loop self video_paths duration_limit 0 0 [] in
  let total := len video_paths in
  if (0 <? successful)%Z then
    let total_frames :=
      fold_right Z.add 0%Z (map get_frames_analyzed (successful_results entries)) in
    let score_sum :=
      fold_right Qplus 0 (map get_comprehension_score (successful_results entries)) in
    if (successful =? 0)%Z then (Raise ZeroDivisionError, self')
    else
      match truediv successful total with
      | Raise e => (Raise e, self')
      | Ok rate =>
          (Ok {| total_videos := total;
                 successful_analyses := successful;
                 failed_analyses := failed;
                 results := entries;
                 summary :=
                   Some {| total_frames_analyzed := total_frames;
                           average_comprehension := score_sum / inject_Z successful;
                           success_rate := rate |} |},
           self')
      end
  else
    (Ok {| total_videos := total;
           successful_analyses := successful;
           failed_analyses := failed;
           results := entries;
           summary := None |},
     self').

End Interface.

Arguments ai {Store} _.
Arguments vision_history {Store} _.

End Interface.

Module KnowledgeFacts.
Import Knowledge.

(** Every entry lists each video once, and no more videos than
    sightings. *)
Definition well_tracked (objects_tracked : Dict ObjectMemory) : Prop :=
  forall obj_type obj_data,
    get obj_type objects_tracked = Some obj_data ->
    NoDup (videos_seen_in obj_data)
    /\ (len (videos_seen_in obj_data) <= total_sightings obj_data)%Z.

(** How often a type occurs among the objects of a video. *)
Definition occurrences (type_name : string) (objects : list DetectedObject) : Z :=
  len (filter (fun o => String.eqb type_name (obj_type o)) objects).

End KnowledgeFacts.

Module CallerFacts.
Import Callers.

(** The sum of the scores of the successful responses. *)
Definition total_score (responses : list VisionResponse) : Q :=
  fold_right Qplus 0 (map vision_score (filter vision_succeeded responses)).

(** The number of successful responses. *)
Definition successes (responses : list VisionResponse) : Z :=
  len (filter vision_succeeded responses).

(** A response lists no detected object. *)
Definition lists_no_object (response : VisionResponse) : Prop :=
  match response with
  | VisionDone _ _ _ objects_detected _ _ => objects_detected = []
  | VisionFailed _ => True
  end.

End CallerFacts.

Module InterfaceFacts.
Import Interface.

(** A result that reports success carries a count of frames that is
    not negative and a score in [0, 1]. *)
Definition sound_result (result : FileResult) : Prop :=
  get_success result = true ->
  (0 <= get_frames_analyzed result)%Z
  /\ 0 <= get_comprehension_score result <= 1.

(** The sum of the scores of the successful entries. *)
Definition score_sum (entries : list BatchEntry) : Q :=
  fold_right Qplus 0 (map get_comprehension_score (successful_results entries)).

End InterfaceFacts.

(** ** A longer clip *)

Module Clips.

(** 23 frames at 10 frames per second, white and dark in turn. *)
Definition flicker : Capture :=
  {| cap_fps := 10; cap_frame_count := 23;
     cap_frames :=
       map (fun i => if Nat.even i then Scenario.white_frame
                     else Scenario.dark_face_frame)
         (seq 0 23) |}.

Definition cinema : World unit :=
  Scenario.world Scenario.found (fun _ => Some flicker) (fun _ => Ok tt).

(** The state in which [watch_video] starts the analysis. *)
Definition start (url : string) : St unit :=
  {| self := new_engine tt; watch_result := new_watch_result url |}.

(** A file system that holds [clip.mp4] and [notes.txt]; the extension
    is whatever follows the first dot. *)
Definition on_disk (path : string) : bool :=
  existsb (String.eqb path) ["clip.mp4"; "notes.txt"].

Fixpoint from_dot (path : string) : string :=
  match path with
  | EmptyString => EmptyString
  | String c rest => if Ascii.eqb c "."%char then path else from_dot rest
  end.

End Clips.

(** A gauge after an update that raises it by [increment], up to 1.0,
    when [moved] holds, and that leaves it alone otherwise. *)
Definition raised (moved : bool) (increment gauge : Q) : Q :=
  if moved then Qmin 1.0 (gauge + increment) else gauge.

(** The gauges [s'] are the gauges [s] after one watch that returned [r]
    was learned from: gauge by gauge, the observation category that
    moves it and the increment. *)
Definition gauges_after_watch (r : WatchResult) (s s' : Skills) : Prop :=
  frame_analysis s' == raised (0 <? frames_analyzed r)%Z 0.01 (frame_analysis s)
  /\ scene_understanding s'
     == raised (truthy (scenes_detected r)) 0.02 (scene_understanding s)
  /\ object_tracking s'
     == raised (truthy (objects_seen r)) 0.02 (object_tracking s)
  /\ text_recognition s'
     == raised (truthy (text_found r)) 0.02 (text_recognition s)
  /\ motion_detection s'
     == raised (truthy (motion_events r)) 0.02 (motion_detection s)
  /\ content_comprehension s'
     == raised (Qgtb (comprehension_score r) 0.5) 0.01 (content_comprehension s)
  /\ real_time_learning s' == raised true 0.01 (real_time_learning s)
  /\ audio_processing s' == audio_processing s.

(* ================================================================== *)
(** ** The console *)
(* ================================================================== *)

(** [console.print(text)] renders the rich markup of [text] and prints
    it.  It returns, or it raises: rich raises [MarkupError] when [text]
    holds a closing tag that matches no open tag, as a URL such as
    '[/x]' does once it is interpolated.  Rich is no part of the
    repository, so [print] is a collaborator.

    The definitions above are the methods as they run on a console that
    raises nothing.  This module states [watch_video],
    [watch_video_file] and [analyze_video_batch] once more, with every
    line of their own bodies printed where the source prints it; the
    lines printed by the methods they call stay left out.
    [_display_vision_results], which only prints, is a collaborator
    too. *)
Module Console.

(** A console on which no [print] raises. *)
Definition quiet (print : string -> Exc unit) : Prop :=
  forall text, print text = Ok tt.

(** The newline of ['\n']. *)
Definition nl : string := String (ascii_of_nat 10) EmptyString.

Section Console.
Context {Store : Type}.
Variable print : string -> Exc unit.
Variable w : World Store.

Definition say {S : Type} (text : string) : M S unit := lift (print text).

(** The [try] statement of [watch_video] and the call of
    [save_video_vision_data] after it (source lines 105-138). *)
Definition watch_video_body (video_url : string) (duration_limit : Z)
  : M (St Store) unit :=
  try_except
    (match resolve_video w video_url with
     | Some (String c rest as video_path) =>
         _analyze_video_content w video_path duration_limit ;;
         modify (on_result (fun r =>
           set_visual_summary (_generate_video_summary r) r)) ;;
         modify (on_result (fun r =>
           set_comprehension_score (_calculate_comprehension_score r) r)) ;;
         _learn_from_video_watching w ;;
         tmp <- lift (gettempdir w) ;;
         (if prefix tmp video_path
          then try_except (lift (os_remove w video_path)) (fun _ => ret tt)
          else ret tt) ;;
         modify (on_result (set_success true)) ;;
         say "[green]✅ Video watching complete![/green]"
     | _ =>
         modify (on_result (set_error "Could not prepare video for analysis")) ;;
         say "[red]❌ Could not access video for watching[/red]"
     end)
    (fun e =>
       say ("[red]❌ Video watching failed: " ++ str_exc e ++ "[/red]") ;;
       modify (on_result (set_error (str_exc e)))) ;;
  save_video_vision_data w.

(** [watch_video]: the three lines printed before [watch_result] is
    created and before the [try] statement (source lines 86-88), then
    the rest of the method. *)
Definition watch_video (engine : Engine Store) (video_url : string)
    (duration_limit : Z) : Exc WatchResult * Engine Store :=
  match (say "[bold blue]👁️ AI is Watching Video[/bold blue]" ;;
         say ("[yellow]URL: " ++ video_url ++ "[/yellow]") ;;
         say ("[yellow]Duration Limit: " ++ str_int duration_limit
                ++ " seconds[/yellow]") ;;
         watch_video_body video_url duration_limit)
          {| self := engine; watch_result := new_watch_result video_url |} with
  | (Ok _, s) => (Ok (watch_result s), self s)
  | (Raise e, s) => (Raise e, self s)
  end.

Variable path_exists : string -> bool.
Variable splitext_lower : string -> string.
Variable now : string.
Variable _display_vision_results : WatchResult -> string -> Exc unit.

(** [self.ai.video_vision.watch_video(video_path, duration_limit)]: the
    engine of the interface is the engine the call leaves. *)
Definition call_watch_video (engine : Engine Store) (video_path : string)
    (duration_limit : Z) : M Interface.VideoVisionInterface WatchResult :=
  fun self =>
    let '(outcome, engine') := watch_video engine video_path duration_limit in
    (outcome,
     {| Interface.ai := Some engine';
        Interface.vision_history := Interface.vision_history self |}).

Definition watch_video_file (video_path : string) (duration_limit : Z)
  : M Interface.VideoVisionInterface Interface.FileResult :=
  self <- gets (fun self => self) ;;
  match Interface.ai self with
  | None => ret (Interface.ErrorOnly "AI instance not available")
  | Some engine =>
      if negb (path_exists video_path) then
        ret (Interface.ErrorOnly ("Video file not found: " ++ video_path))
      else
        let file_ext := splitext_lower video_path in
        if negb (existsb (String.eqb file_ext) Interface.supported_formats) then
          ret (Interface.ErrorOnly ("Unsupported format: " ++ file_ext))
        else
          say ("[yellow]👁️ AI watching video: " ++ video_path ++ "[/yellow]") ;;
          say ("[dim]Duration limit: " ++ str_int duration_limit
                 ++ " seconds[/dim]") ;;
          try_except
            (vision_result <- call_watch_video engine video_path duration_limit ;;
             if success vision_result then
               modify (fun self =>
                 {| Interface.ai := Interface.ai self;
                    Interface.vision_history :=
                      (Interface.vision_history self
                         ++ [ {| Interface.entry_video_path := video_path;
                                 Interface.entry_timestamp := now;
                                 Interface.entry_result := vision_result |} ])%list
                 |}) ;;
               say "[green]✅ Video analysis complete![/green]" ;;
               lift (_display_vision_results vision_result video_path) ;;
               ret (Interface.Analysed vision_result)
             else
               let error_msg :=
                 match error vision_result with
                 | Some msg => msg
                 | None => "Unknown error"
                 end in
               say ("[red]❌ Video analysis failed: " ++ error_msg
                      ++ "[/red]") ;;
               ret (Interface.Analysed vision_result))
            (fun e =>
               say ("[red]❌ Video vision error: " ++ str_exc e ++ "[/red]") ;;
               ret (Interface.ErrorOnly (str_exc e)))
  end.

(** The loop of [analyze_video_batch]; [i] counts the paths from 1. *)
Fixpoint batch_loop (video_paths : list string) (i total : Z)
    (duration_limit : Z) (successful failed : Z)
    (entries : list Interface.BatchEntry)
  : M Interface.VideoVisionInterface (Z * Z * list Interface.BatchEntry) :=
  match video_paths with
  | [] => ret (successful, failed, entries)
  | video_path :: rest =>
      say (nl ++ "[dim]Processing " ++ str_int i ++ "/" ++ str_int total ++ ": "
              ++ video_path ++ "[/dim]") ;;
      result <- watch_video_file video_path duration_limit ;;
      let entry :=
        {| Interface.batch_video_path := video_path;
           Interface.batch_result := result |} in
      if Interface.get_success result
      then batch_loop rest (i + 1)%Z total duration_limit (successful + 1)%Z
             failed (entries ++ [entry])%list
      else batch_loop rest (i + 1)%Z total duration_limit successful
             (failed + 1)%Z (entries ++ [entry])%list
  end.

Definition analyze_video_batch (video_paths : list string) (duration_limit : Z)
  : M Interface.VideoVisionInterface Interface.BatchResults :=
  let total := len video_paths in
  say ("[yellow]🎬 Batch analyzing " ++ str_int total
         ++ " videos...[/yellow]") ;;
  counted <- batch_loop video_paths 1 total duration_limit 0 0 [] ;;
  let '(successful, failed, entries) := counted in
  summary <-
    (if (0 <? successful)%Z then
       let total_frames :=
         fold_right Z.add 0%Z
           (map Interface.get_frames_analyzed
              (Interface.successful_results entries)) in
       let score_sum :=
         fold_right Qplus 0
           (map Interface.get_comprehension_score
              (Interface.successful_results entries)) in
       if (successful =? 0)%Z then lift (Raise ZeroDivisionError)
       else
         rate <- lift (truediv successful total) ;;
         ret (Some {| Interface.total_frames_analyzed := total_frames;
                      Interface.average_comprehension :=
                        score_sum / inject_Z successful;
                      Interface.success_rate := rate |})
     else ret None) ;;
  say (nl ++ "[green]✅ Batch analysis complete![/green]") ;;
  say ("[cyan]Success: " ++ str_int successful ++ "/" ++ str_int total
         ++ "[/cyan]") ;;
  ret {| Interface.total_videos := total;
         Interface.successful_analyses := successful;
         Interface.failed_analyses := failed;
         Interface.results := entries;
         Interface.summary := summary |}.

End Console.

(** A console that prints every line. *)
Definition silent (text : string) : Exc unit := Ok tt.

(** A console that prints every line but one that holds the closing
    tag '[/x]', which it answers as rich answers a closing tag that
    matches no open tag. *)
Definition strict (text : string) : Exc unit :=
  match index 0 "[/x]" text with
  | Some _ =>
      Raise (MarkupError "closing tag '[/x]' doesn't match any open tag")
  | None => Ok tt
  end.

End Console.

(** A result with three saturated categories: 120 frames, 6 text
    instances and 25 motion events. *)
Definition busy : WatchResult :=
  set_frames_analyzed 120
    (set_text_found
       (repeat {| text := "Text detected (4 regions)"; text_confidence := 0.7;
                  regions_count := 4; text_timestamp := 0 |} 6)
       (set_motion_events
          (repeat {| motion_detected := true; motion_intensity := 0.2;
                     motion_areas := [] |} 25)
          (new_watch_result "busy.mp4"))).

(* ================================================================== *)
(** ** Vocabulary of the proofs *)
(* ================================================================== *)

(** A computation leaves the component [proj] of the state alone, whether
    it returns or raises. *)
Definition preserves {S X A : Type} (proj : S -> X) (m : M S A) : Prop :=
  forall s, proj (snd (m s)) = proj s.

Definition skills_of {Store : Type} (s : St Store) : Skills :=
  video_vision_skills (self s).

Definition success_of {Store : Type} (s : St Store) : bool :=
  success (watch_result s).

Definition error_of {Store : Type} (s : St Store) : option string :=
  error (watch_result s).

Definition result_of {Store : Type} (s : St Store) : WatchResult :=
  watch_result s.


(* ================================================================== *)
(** ** Properties *)
(* ================================================================== *)

(* ------------------------------------------------------------------ *)
(** *** Comparisons and counts *)
(* ------------------------------------------------------------------ *)

Lemma Qgtb_true (a b : Q) : Qgtb a b = true <-> b < a.
Proof.
  unfold Qgtb. rewrite negb_true_iff. split.
  - intro H. apply Qnot_le_lt. intro Hle. apply Qle_bool_iff in Hle. congruence.
  - intro H. destruct (Qle_bool a b) eqn:E; [|reflexivity].
    apply Qle_bool_iff in E. lra.
Qed.

Lemma Qgtb_false (a b : Q) : Qgtb a b = false <-> a <= b.
Proof.
  unfold Qgtb. rewrite negb_false_iff. apply Qle_bool_iff.
Qed.

Lemma Qltb_true (a b : Q) : Qltb a b = true <-> a < b.
Proof. apply Qgtb_true. Qed.

Lemma Qltb_false (a b : Q) : Qltb a b = false <-> b <= a.
Proof. apply Qgtb_false. Qed.

Ltac q_reflect :=
  repeat match goal with
  | H : Qgtb _ _ = true |- _ => apply Qgtb_true in H
  | H : Qgtb _ _ = false |- _ => apply Qgtb_false in H
  | H : Qltb _ _ = true |- _ => apply Qltb_true in H
  | H : Qltb _ _ = false |- _ => apply Qltb_false in H
  end.

Ltac b_reflect :=
  repeat match goal with
  | H : _ && _ = true |- _ => apply andb_true_iff in H; destruct H
  | H : _ && _ = false |- _ => apply andb_false_iff in H
  end; q_reflect.

Lemma len_nonneg {A : Type} (xs : list A) : (0 <= len xs)%Z.
Proof. unfold len. lia. Qed.

Lemma truthy_len {A : Type} (xs : list A) : truthy xs = (0 <? len xs)%Z.
Proof.
  destruct xs; unfold len; cbn [truthy List.length]; [reflexivity|].
  symmetry. apply Z.ltb_lt. lia.
Qed.

Lemma inject_Z_nonneg (n : Z) : (0 <= n)%Z -> 0 <= inject_Z n.
Proof. intro H. change 0 with (inject_Z 0). rewrite <- Zle_Qle. exact H. Qed.

Lemma count_ratio_nonneg (n : Z) (cap : Q) :
  (0 <= n)%Z -> 0 < cap -> 0 <= inject_Z n / cap.
Proof.
  intros Hn Hc. apply inject_Z_nonneg in Hn.
  apply Qle_shift_div_l; [exact Hc|]. lra.
Qed.

(* ------------------------------------------------------------------ *)
(** *** The comprehension score *)
(* ------------------------------------------------------------------ *)

Lemma saturating_bounds (x : Q) :
  0 <= x -> 0 <= Qmin x 1.0 * 0.2 <= 0.2.
Proof.
  intro Hx.
  destruct (Q.min_spec x 1.0) as [[H1 H2]|[H1 H2]]; rewrite H2; lra.
Qed.

(** The score as the plain sum of the five contributions: the
    denominator [max_score] is 1. *)
Lemma score_unfold (r : WatchResult) :
  _calculate_comprehension_score r ==
  ((if (0 <? frames_analyzed r)%Z
    then Qmin (inject_Z (frames_analyzed r) / 100) 1.0 * 0.2 else 0)
   + (if truthy (scenes_detected r)
      then Qmin (inject_Z (len (scenes_detected r)) / 5) 1.0 * 0.2 else 0)
   + (if truthy (objects_seen r)
      then Qmin (inject_Z (len (objects_seen r)) / 10) 1.0 * 0.2 else 0)
   + (if truthy (text_found r)
      then Qmin (inject_Z (len (text_found r)) / 5) 1.0 * 0.2 else 0)
   + (if truthy (motion_events r)
      then Qmin (inject_Z (len (motion_events r)) / 20) 1.0 * 0.2 else 0)).
Proof.
  unfold _calculate_comprehension_score. cbv zeta.
  change (Qgtb (0 + 0.2 + 0.2 + 0.2 + 0.2 + 0.2) 0) with true. cbv iota.
  destruct (0 <? frames_analyzed r)%Z, (truthy (scenes_detected r)),
    (truthy (objects_seen r)), (truthy (text_found r)), (truthy (motion_events r));
    field.
Qed.

Lemma contribution_bounds (c : bool) (x : Q) :
  (c = true -> 0 <= x) ->
  0 <= (if c then Qmin x 1.0 * 0.2 else 0) <= 0.2.
Proof.
  destruct c; intro H; [apply saturating_bounds; auto | lra].
Qed.

Lemma contribution_is_sub_score (c : bool) (n : Z) (cap : Q) :
  0 < cap -> (0 <= n)%Z -> c = (0 <? n)%Z ->
  (if c then Qmin (inject_Z n / cap) 1.0 * 0.2 else 0) == Spec.sub_score n cap.
Proof.
  intros Hcap Hn ->. unfold Spec.sub_score.
  destruct (0 <? n)%Z eqn:E.
  - apply Qmult_comp; [|reflexivity]. apply Q.min_compat; reflexivity.
  - apply Z.ltb_ge in E. assert (n = 0%Z) as -> by lia.
    assert (H0 : inject_Z 0 / cap == 0) by (unfold Qdiv; ring).
    rewrite (Q.min_l (inject_Z 0 / cap) 1); [rewrite H0; ring | rewrite H0; lra].
Qed.

Lemma score_bounds (r : WatchResult) :
  0 <= _calculate_comprehension_score r <= 1.
Proof.
  rewrite score_unfold.
  pose proof (contribution_bounds (0 <? frames_analyzed r)%Z
                (inject_Z (frames_analyzed r) / 100)) as H1.
  pose proof (contribution_bounds (truthy (scenes_detected r))
                (inject_Z (len (scenes_detected r)) / 5)) as H2.
  pose proof (contribution_bounds (truthy (objects_seen r))
                (inject_Z (len (objects_seen r)) / 10)) as H3.
  pose proof (contribution_bounds (truthy (text_found r))
                (inject_Z (len (text_found r)) / 5)) as H4.
  pose proof (contribution_bounds (truthy (motion_events r))
                (inject_Z (len (motion_events r)) / 20)) as H5.
  assert (Hlen : forall (A : Type) (xs : list A) (cap : Q),
             0 < cap -> 0 <= inject_Z (len xs) / cap).
  { intros. apply count_ratio_nonneg; [apply len_nonneg | assumption]. }
  lapply H1; [clear H1; intro H1 | intro E; apply Z.ltb_lt in E;
                apply count_ratio_nonneg; [lia | lra]].
  lapply H2; [clear H2; intro H2 | intros _; apply Hlen; lra].
  lapply H3; [clear H3; intro H3 | intros _; apply Hlen; lra].
  lapply H4; [clear H4; intro H4 | intros _; apply Hlen; lra].
  lapply H5; [clear H5; intro H5 | intros _; apply Hlen; lra].
  lra.
Qed.

(** C7.  For every watch result the comprehension score lies in [0, 1];
    the empty result, with no observation in any category, scores 0. *)
Theorem comprehension_score_in_unit_interval :
  (forall r : WatchResult, 0 <= _calculate_comprehension_score r <= 1)
  /\ (forall url : string,
        _calculate_comprehension_score (new_watch_result url) == 0).
Proof.
  split; [exact score_bounds|]. intro url. vm_compute. reflexivity.
Qed.

(** C1, as stated, fails on scenario A: dividing by the weights of the
    non-empty categories only would give 0.2, and the code does not
    return 0.2. *)
Lemma frames_only_score_is_not_one_fifth :
  Spec.applicable_weight_score Scenario.frames_only == 0.2
  /\ ~ _calculate_comprehension_score Scenario.frames_only == 0.2.
Proof.
  split.
  - vm_compute. reflexivity.
  - vm_compute. discriminate.
Qed.

(** C1 (as amended).  The comprehension score is the sum of the five
    saturating sub-scores divided by the fixed sum of all five weights
    (0.2 five times, i.e. 1), whether or not a category contributed; for a
    watch in which only frame analysis contributed, with 20 frames, the
    score is (min(20/100,1)*0.2)/1 = 0.04. *)
Theorem comprehension_score_fixed_denominator (r : WatchResult) :
  (0 <= frames_analyzed r)%Z ->
  _calculate_comprehension_score r
    == Spec.sub_scores r / (0.2 + 0.2 + 0.2 + 0.2 + 0.2)
  /\ (frames_analyzed r = 20%Z -> scenes_detected r = [] ->
      objects_seen r = [] -> text_found r = [] -> motion_events r = [] ->
      _calculate_comprehension_score r == 0.04).
Proof.
  intro Hframes.
  assert (Hgen : _calculate_comprehension_score r
                 == Spec.sub_scores r / (0.2 + 0.2 + 0.2 + 0.2 + 0.2)).
  { rewrite score_unfold. unfold Spec.sub_scores.
    rewrite (contribution_is_sub_score _ (frames_analyzed r) 100);
      [| lra | exact Hframes | reflexivity].
    rewrite (contribution_is_sub_score _ (len (scenes_detected r)) 5);
      [| lra | apply len_nonneg | apply truthy_len].
    rewrite (contribution_is_sub_score _ (len (objects_seen r)) 10);
      [| lra | apply len_nonneg | apply truthy_len].
    rewrite (contribution_is_sub_score _ (len (text_found r)) 5);
      [| lra | apply len_nonneg | apply truthy_len].
    rewrite (contribution_is_sub_score _ (len (motion_events r)) 20);
      [| lra | apply len_nonneg | apply truthy_len].
    field. }
  split; [exact Hgen|].
  intros Hf Hs Ho Ht Hm. rewrite Hgen. unfold Spec.sub_scores.
  rewrite Hf, Hs, Ho, Ht, Hm. vm_compute. reflexivity.
Qed.

Lemma comprehension_score_fixed_denominator_witness :
  _calculate_comprehension_score Scenario.frames_only
    == Spec.sub_scores Scenario.frames_only / (0.2 + 0.2 + 0.2 + 0.2 + 0.2)
  /\ (frames_analyzed Scenario.frames_only = 20%Z ->
      scenes_detected Scenario.frames_only = [] ->
      objects_seen Scenario.frames_only = [] ->
      text_found Scenario.frames_only = [] ->
      motion_events Scenario.frames_only = [] ->
      _calculate_comprehension_score Scenario.frames_only == 0.04).
Proof.
  apply (comprehension_score_fixed_denominator Scenario.frames_only).
  vm_compute. discriminate.
Defined.

(* ------------------------------------------------------------------ *)
(** *** The dominant colour *)
(* ------------------------------------------------------------------ *)

Lemma dominant_color_cases (r g b : Q) :
  (g < r /\ b < r /\ dominant_color r g b = red)
  \/ (~ (g < r /\ b < r) /\ r < g /\ b < g /\ dominant_color r g b = green)
  \/ (~ (g < r /\ b < r) /\ ~ (r < g /\ b < g) /\ r < b /\ g < b
       /\ dominant_color r g b = blue)
  \/ (~ (g < r /\ b < r) /\ ~ (r < g /\ b < g) /\ ~ (r < b /\ g < b)
       /\ (dominant_color r g b = white \/ dominant_color r g b = black
           \/ dominant_color r g b = mixed)).
Proof.
  unfold dominant_color.
  destruct (Qgtb r g && Qgtb r b) eqn:E1.
  { b_reflect. left. auto. }
  destruct (Qgtb g r && Qgtb g b) eqn:E2.
  { b_reflect. right; left. repeat split; auto. destruct E1; q_reflect; lra. }
  destruct (Qgtb b r && Qgtb b g) eqn:E3.
  { b_reflect. right; right; left.
    repeat split; auto; intros [? ?];
      [destruct E1 | destruct E2]; q_reflect; lra. }
  right; right; right. b_reflect.
  repeat split.
  - intros [? ?]; destruct E1; q_reflect; lra.
  - intros [? ?]; destruct E2; q_reflect; lra.
  - intros [? ?]; destruct E3; q_reflect; lra.
  - destruct (Qgtb r 150 && Qgtb g 150 && Qgtb b 150); auto.
    destruct (Qltb r 50 && Qltb g 50 && Qltb b 50); auto.
Qed.

(** C10.  The comparative red/green/blue rules come before the
    white/black thresholds: white or black is returned only when no mean
    channel strictly exceeds both others, and a frame whose three channel
    means are pairwise distinct is red, green or blue, whatever the
    thresholds say. *)
Theorem dominant_color_comparative_rules_first
    (frame : Frame) (r g b : Q) (c : Color) :
  mean_color frame = (r, g, b) ->
  In c (map color (_analyze_frame_colors frame)) ->
  ((c = white \/ c = black) ->
     ~ (g < r /\ b < r) /\ ~ (r < g /\ b < g) /\ ~ (r < b /\ g < b))
  /\ (~ r == g -> ~ r == b -> ~ g == b -> c = red \/ c = green \/ c = blue).
Proof.
  intros Hmean Hin. unfold _analyze_frame_colors in Hin. rewrite Hmean in Hin.
  destruct Hin as [<- | []]. cbn [color].
  destruct (dominant_color_cases r g b)
    as [(H1 & H2 & ->) | [(H1 & H2 & H3 & ->) | [(H1 & H2 & H3 & H4 & ->)
       | (H1 & H2 & H3 & H4)]]].
  - split; [intros [?|?]; discriminate | auto].
  - split; [intros [?|?]; discriminate | auto].
  - split; [intros [?|?]; discriminate | auto].
  - split; [auto|]. intros Hrg Hrb Hgb. exfalso.
    destruct (Q_dec r g) as [[?|?]|?]; [| |contradiction];
    destruct (Q_dec r b) as [[?|?]|?]; try contradiction;
    destruct (Q_dec g b) as [[?|?]|?]; try contradiction;
    solve [apply H1; split; lra | apply H2; split; lra | apply H3; split; lra].
Qed.

Lemma dominant_color_comparative_rules_first_witness :
  ((red = white \/ red = black) ->
     ~ (180 < 200 /\ 160 < 200) /\ ~ (200 < 180 /\ 160 < 180)
     /\ ~ (200 < 160 /\ 180 < 160))
  /\ (~ 200 == 180 -> ~ 200 == 160 -> ~ 180 == 160 ->
      red = red \/ red = green \/ red = blue).
Proof.
  apply (dominant_color_comparative_rules_first Scenario.pale_frame 200 180 160 red).
  - reflexivity.
  - left. reflexivity.
Defined.

(* ------------------------------------------------------------------ *)
(** *** The motion sentence of the summary *)
(* ------------------------------------------------------------------ *)

Lemma scene_lines_not_motion (scenes : list Scene) :
  forall i p, In p (scene_lines i scenes) -> reported_bucket p = None.
Proof.
  induction scenes as [|scene rest IH]; intros i p Hin; cbn in Hin.
  - contradiction.
  - destruct Hin as [<- | Hin]; [reflexivity | eauto].
Qed.

(** C8, as stated, fails on a single motion event of intensity 0.03: the
    three-way bucketing calls it low, the summary says "Moderate motion". *)
Lemma slow_pan_is_reported_moderate :
  Spec.motion_bucket
    (mean (map motion_intensity (motion_events Scenario.slow_pan))) = Spec.low
  /\ map reported_bucket (motion_part (motion_events Scenario.slow_pan))
     = [Some Spec.moderate]
  /\ _generate_video_summary Scenario.slow_pan
     = ("Watched 0.0 second video, analyzing 2 frames. "
          ++ "Moderate motion with average intensity 0.03.")%string.
Proof. repeat split. Qed.

(** C8 (as amended).  When at least one motion event was recorded, the
    motion sentence is the last sentence of the summary and has two
    classes: an average intensity greater than 0.1 is reported as "High
    motion content", any other as "Moderate motion"; no other sentence of
    the summary reports motion. *)
Theorem summary_motion_has_two_buckets (r : WatchResult) :
  motion_events r <> [] ->
  let avg_motion := mean (map motion_intensity (motion_events r)) in
  exists before,
    (forall p, In p before -> reported_bucket p = None)
    /\ (0.1 < avg_motion -> summary_parts r = (before ++ [HighMotion avg_motion])%list)
    /\ (avg_motion <= 0.1 ->
        summary_parts r = (before ++ [ModerateMotion avg_motion])%list).
Proof.
  intros Hne avg_motion. unfold summary_parts. cbv zeta.
  match goal with
  | |- context [(?a ++ ?b ++ ?c ++ ?d ++ motion_part _)%list] =>
      exists (a ++ b ++ c ++ d)%list
  end.
  split; [|split].
  - intros p Hin. repeat (apply in_app_or in Hin; destruct Hin as [Hin | Hin]).
    + destruct Hin as [<- | []]. reflexivity.
    + destruct (truthy (scenes_detected r)); [|contradiction].
      destruct Hin as [<- | Hin]; [reflexivity|].
      eapply scene_lines_not_motion; eassumption.
    + destruct (truthy (objects_seen r)); [|contradiction].
      destruct Hin as [<- | []]. reflexivity.
    + destruct (truthy (text_found r)); [|contradiction].
      destruct Hin as [<- | []]. reflexivity.
  - intro Hhigh. unfold motion_part.
    destruct (motion_events r) as [|m ms] eqn:E; [contradiction|].
    cbn [truthy]. fold avg_motion.
    apply Qgtb_true in Hhigh. rewrite Hhigh.
    repeat rewrite <- app_assoc. reflexivity.
  - intro Hlow. unfold motion_part.
    destruct (motion_events r) as [|m ms] eqn:E; [contradiction|].
    cbn [truthy]. fold avg_motion.
    apply Qgtb_false in Hlow. rewrite Hlow.
    repeat rewrite <- app_assoc. reflexivity.
Qed.

Lemma summary_motion_has_two_buckets_witness :
  let avg_motion :=
    mean (map motion_intensity (motion_events Scenario.slow_pan)) in
  exists before,
    (forall p, In p before -> reported_bucket p = None)
    /\ (0.1 < avg_motion ->
        summary_parts Scenario.slow_pan = (before ++ [HighMotion avg_motion])%list)
    /\ (avg_motion <= 0.1 ->
        summary_parts Scenario.slow_pan
        = (before ++ [ModerateMotion avg_motion])%list).
Proof.
  apply (summary_motion_has_two_buckets Scenario.slow_pan).
  discriminate.
Defined.

(* ------------------------------------------------------------------ *)
(** *** One update of the skill gauges *)
(* ------------------------------------------------------------------ *)

Lemma nudge_bounds (x inc : Q) :
  0 <= x <= 1 -> 0 <= inc <= 0.02 ->
  0 <= Qmin 1.0 (x + inc) <= 1 /\ x <= Qmin 1.0 (x + inc) <= x + 0.02.
Proof.
  intros Hx Hinc.
  destruct (Q.min_spec 1.0 (x + inc)) as [[H1 H2]|[H1 H2]]; rewrite H2; lra.
Qed.

Lemma gauge_step (c : bool) (x inc : Q) :
  0 <= x <= 1 -> 0 <= inc <= 0.02 ->
  let x' := if c then Qmin 1.0 (x + inc) else x in
  0 <= x' <= 1 /\ x <= x' <= x + 0.02.
Proof.
  intros Hx Hinc. destruct c; cbv zeta; [apply nudge_bounds; assumption | lra].
Qed.

Lemma update_skills_step (s : Skills) (r : WatchResult) :
  gauges_in_unit s ->
  gauges_in_unit (_update_video_vision_skills s r)
  /\ gauges_moved_up_by 0.02 s (_update_video_vision_skills s r).
Proof.
  intros (H1 & H2 & H3 & H4 & H5 & H6 & H7 & H8).
  unfold gauges_in_unit, gauges_moved_up_by, _update_video_vision_skills.
  cbn [frame_analysis motion_detection scene_understanding text_recognition
       object_tracking audio_processing content_comprehension real_time_learning].
  pose proof (gauge_step (0 <? frames_analyzed r)%Z _ 0.01 H1) as G1.
  pose proof (gauge_step (truthy (motion_events r)) _ 0.02 H2) as G2.
  pose proof (gauge_step (truthy (scenes_detected r)) _ 0.02 H3) as G3.
  pose proof (gauge_step (truthy (text_found r)) _ 0.02 H4) as G4.
  pose proof (gauge_step (truthy (objects_seen r)) _ 0.02 H5) as G5.
  pose proof (gauge_step (Qgtb (comprehension_score r) 0.5) _ 0.01 H7) as G7.
  pose proof (gauge_step true _ 0.01 H8) as G8.
  cbv zeta in *.
  lapply G1; [clear G1; intro G1|lra]. lapply G2; [clear G2; intro G2|lra].
  lapply G3; [clear G3; intro G3|lra]. lapply G4; [clear G4; intro G4|lra].
  lapply G5; [clear G5; intro G5|lra]. lapply G7; [clear G7; intro G7|lra].
  lapply G8; [clear G8; intro G8|lra].
  repeat split; try tauto; lra.
Qed.

Lemma moved_up_refl (s : Skills) : gauges_moved_up_by 0 s s.
Proof. unfold gauges_moved_up_by. repeat split; lra. Qed.

Lemma moved_up_trans (d1 d2 : Q) (s1 s2 s3 : Skills) :
  gauges_moved_up_by d1 s1 s2 -> gauges_moved_up_by d2 s2 s3 ->
  gauges_moved_up_by (d1 + d2) s1 s3.
Proof. unfold gauges_moved_up_by. intros H1 H2. repeat split; lra. Qed.

Lemma moved_up_weaken (d d' : Q) (s1 s2 : Skills) :
  d <= d' -> gauges_moved_up_by d s1 s2 -> gauges_moved_up_by d' s1 s2.
Proof. unfold gauges_moved_up_by. intros H1 H2. repeat split; lra. Qed.

(* ------------------------------------------------------------------ *)
(** *** Running a computation *)
(* ------------------------------------------------------------------ *)

Lemma bind_ok {S A B : Type} (m : M S A) (k : A -> M S B) (s s1 : S) (a : A) :
  m s = (Ok a, s1) -> bind m k s = k a s1.
Proof. intro E. unfold bind. rewrite E. reflexivity. Qed.

Lemma try_ok {S A : Type} (m : M S A) h (s s1 : S) (a : A) :
  m s = (Ok a, s1) -> try_except m h s = (Ok a, s1).
Proof. intro E. unfold try_except. rewrite E. reflexivity. Qed.

Lemma try_raise {S A : Type} (m : M S A) h (s s1 : S) e :
  m s = (Raise e, s1) -> try_except m h s = h e s1.
Proof. intro E. unfold try_except. rewrite E. reflexivity. Qed.

Lemma truediv_ok (a b : Z) :
  b <> 0%Z -> truediv a b = Ok (inject_Z a / inject_Z b).
Proof.
  intro H. unfold truediv. apply Z.eqb_neq in H. rewrite H. reflexivity.
Qed.

Lemma mod_ok (a b : Z) : b <> 0%Z -> mod_ a b = Ok (a mod b)%Z.
Proof. intro H. unfold mod_. apply Z.eqb_neq in H. rewrite H. reflexivity. Qed.

Section Frames.
Context {S X : Type} (proj : S -> X).

Lemma preserves_ret {A : Type} (a : A) : preserves proj (ret a).
Proof. intro s. reflexivity. Qed.

Lemma preserves_lift {A : Type} (r : Exc A) : preserves proj (lift r).
Proof. intro s. reflexivity. Qed.

Lemma preserves_gets {A : Type} (f : S -> A) : preserves proj (gets f).
Proof. intro s. reflexivity. Qed.

Lemma preserves_modify (f : S -> S) :
  (forall s, proj (f s) = proj s) -> preserves proj (modify f).
Proof. intros H s. apply H. Qed.

Lemma preserves_bind {A B : Type} (m : M S A) (k : A -> M S B) :
  preserves proj m -> (forall a, preserves proj (k a)) ->
  preserves proj (bind m k).
Proof.
  intros Hm Hk s. unfold bind. specialize (Hm s).
  destruct (m s) as [[a | e] s1]; cbn [snd] in *.
  - rewrite (Hk a s1). exact Hm.
  - exact Hm.
Qed.

Lemma preserves_try_except {A : Type} (body : M S A) (handler : PyExc -> M S A) :
  preserves proj body -> (forall e, preserves proj (handler e)) ->
  preserves proj (try_except body handler).
Proof.
  intros Hb Hh s. unfold try_except. specialize (Hb s).
  destruct (body s) as [[a | e] s1]; cbn [snd] in *.
  - exact Hb.
  - rewrite (Hh e s1). exact Hb.
Qed.

End Frames.

Ltac frame_step :=
  first
    [ apply preserves_ret
    | apply preserves_lift
    | apply preserves_gets
    | apply preserves_bind; [| intro]
    | apply preserves_try_except; [| intro]
    | apply preserves_modify; intros [? ?]; reflexivity
    | match goal with
      | |- preserves _ (if ?c then _ else _) => destruct c
      | |- preserves _ (match ?x with _ => _ end) => destruct x
      end ].

Ltac frame := repeat frame_step.

(* ------------------------------------------------------------------ *)
(** *** What the methods leave alone *)
(* ------------------------------------------------------------------ *)

Section FrameConditions.
Context {Store : Type} (w : World Store).

Lemma analyze_single_frame_keeps_skills frame ts prev :
  preserves (@skills_of Store) (_analyze_single_frame w frame ts prev).
Proof.
  unfold _analyze_single_frame. frame.
Qed.

Lemma analyze_single_frame_keeps_result frame ts prev :
  preserves (@result_of Store) (_analyze_single_frame w frame ts prev).
Proof.
  unfold _analyze_single_frame. frame.
Qed.

Lemma analyze_single_frame_keeps_success frame ts prev :
  preserves (@success_of Store) (_analyze_single_frame w frame ts prev).
Proof.
  intro s. unfold success_of.
  apply (f_equal success (analyze_single_frame_keeps_result frame ts prev s)).
Qed.

Lemma analyze_single_frame_keeps_error frame ts prev :
  preserves (@error_of Store) (_analyze_single_frame w frame ts prev).
Proof.
  intro s. unfold error_of.
  apply (f_equal error (analyze_single_frame_keeps_result frame ts prev s)).
Qed.

Lemma collect_keeps_skills fa n fps :
  preserves (@skills_of Store) (@collect Store fa n fps).
Proof. unfold collect. frame. Qed.

Lemma collect_keeps_success fa n fps :
  preserves (@success_of Store) (@collect Store fa n fps).
Proof. unfold collect. frame. Qed.

Lemma collect_keeps_error fa n fps :
  preserves (@error_of Store) (@collect Store fa n fps).
Proof. unfold collect. frame. Qed.

Lemma frame_loop_keeps_skills fps max_frames frame_skip frames :
  forall frame_count analyzed previous,
    preserves (@skills_of Store)
      (frame_loop w fps max_frames frame_skip frames frame_count analyzed previous).
Proof.
  induction frames as [|frame rest IH]; intros frame_count analyzed previous;
    cbn [frame_loop].
  - frame.
  - frame; try apply analyze_single_frame_keeps_skills;
      try apply collect_keeps_skills; apply IH.
Qed.

Lemma frame_loop_keeps_success fps max_frames frame_skip frames :
  forall frame_count analyzed previous,
    preserves (@success_of Store)
      (frame_loop w fps max_frames frame_skip frames frame_count analyzed previous).
Proof.
  induction frames as [|frame rest IH]; intros frame_count analyzed previous;
    cbn [frame_loop].
  - frame.
  - frame; try apply analyze_single_frame_keeps_success;
      try apply collect_keeps_success; apply IH.
Qed.

Lemma frame_loop_keeps_error fps max_frames frame_skip frames :
  forall frame_count analyzed previous,
    preserves (@error_of Store)
      (frame_loop w fps max_frames frame_skip frames frame_count analyzed previous).
Proof.
  induction frames as [|frame rest IH]; intros frame_count analyzed previous;
    cbn [frame_loop].
  - frame.
  - frame; try apply analyze_single_frame_keeps_error;
      try apply collect_keeps_error; apply IH.
Qed.

Lemma analyze_video_content_keeps_skills path limit :
  preserves (@skills_of Store) (_analyze_video_content w path limit).
Proof.
  unfold _analyze_video_content. frame. apply frame_loop_keeps_skills.
Qed.

Lemma analyze_video_content_keeps_success path limit :
  preserves (@success_of Store) (_analyze_video_content w path limit).
Proof.
  unfold _analyze_video_content. frame. apply frame_loop_keeps_success.
Qed.

(** [_analyze_video_content] catches whatever its body raises. *)
Lemma analyze_video_content_returns path limit (s : St Store) :
  exists s1, _analyze_video_content w path limit s = (Ok tt, s1).
Proof.
  unfold _analyze_video_content, try_except.
  match goal with |- context [match ?m s with _ => _ end] =>
    destruct (m s) as [[[] | e] s1] end; eexists; reflexivity.
Qed.

Lemma learn_returns (s : St Store) :
  exists s1, _learn_from_video_watching w s = (Ok tt, s1)
    /\ watch_result s1 = watch_result s
    /\ (skills_of s1 = skills_of s
        \/ skills_of s1
           = _update_video_vision_skills (skills_of s) (watch_result s)).
Proof.
  unfold _learn_from_video_watching, try_except, bind, gets, modify, ret.
  destruct s as [engine r]. cbn [watch_result self].
  destruct (remember w r (video_understanding engine)) as [[[] | e] store] eqn:E;
    cbn; eexists; (split; [reflexivity|]); (split; [reflexivity|]).
  - right. reflexivity.
  - left. reflexivity.
Qed.

Lemma save_returns (s : St Store) :
  save_video_vision_data w s = (Ok tt, s).
Proof.
  unfold save_video_vision_data, try_except, bind, gets, lift, ret.
  destruct (json_dump w (self s)) as [[] | e]; reflexivity.
Qed.

End FrameConditions.

(* ------------------------------------------------------------------ *)
(** *** Frame sampling *)
(* ------------------------------------------------------------------ *)

(** C3, as stated, fails: with [fps = 0] the stride is [max(1, 0 // 2) = 1],
    not 15. *)
Lemma zero_fps_stride_is_one :
  frame_skip_of 0 = Ok 1%Z /\ frame_skip_of 0 <> Ok Spec.fallback_stride.
Proof. split; [reflexivity | discriminate]. Qed.

Section Sampling.
Context {Store : Type} (w : World Store).

Lemma frame_loop_not_entered fps max_frames frame_skip frames
    frame_count analyzed previous (s : St Store) :
  (max_frames <= frame_count)%Z ->
  frame_loop w fps max_frames frame_skip frames frame_count analyzed previous s
  = (Ok analyzed, s).
Proof.
  intro H. apply Z.ltb_ge in H.
  destruct frames; cbn [frame_loop]; rewrite H; reflexivity.
Qed.

(** C3 (as amended).  When the capture reports [fps = 0], the stride is 1,
    [max_frames] is at most 0 so the loop samples no frame, the duration is
    0, and no division by zero occurs: the method returns without raising
    and without writing 'error'. *)
Theorem zero_fps_samples_no_frame
    (s : St Store) (video_path : string) (duration_limit total_frames : Z)
    (frames : list Frame) :
  open_capture w video_path
    = Some {| cap_fps := 0; cap_frame_count := total_frames; cap_frames := frames |} ->
  frame_skip_of 0 = Ok 1%Z
  /\ _analyze_video_content w video_path duration_limit s
     = (Ok tt,
        on_result (fun r => set_video_duration 0 (set_frames_analyzed 0 r)) s).
Proof.
  intro Hopen. split; [reflexivity|].
  unfold _analyze_video_content. rewrite Hopen.
  cbn [cap_fps cap_frame_count cap_frames].
  apply try_ok.
  change (0 <? 0)%Z with false. cbv iota.
  erewrite bind_ok by reflexivity.
  erewrite bind_ok by reflexivity.
  erewrite bind_ok by (apply frame_loop_not_entered; lia).
  erewrite bind_ok by reflexivity.
  destruct s; reflexivity.
Qed.

(** A capture that does not open leaves the engine and the dictionary as
    they were: nothing is raised and no 'error' is written. *)
Lemma unopened_capture_changes_nothing path limit (s : St Store) :
  open_capture w path = None ->
  _analyze_video_content w path limit s = (Ok tt, s).
Proof.
  intro H. unfold _analyze_video_content. rewrite H. reflexivity.
Qed.

Lemma analyze_single_frame_returns frame ts prev (s : St Store) :
  exists a s', _analyze_single_frame w frame ts prev s = (Ok a, s').
Proof.
  unfold _analyze_single_frame, _detect_scene_change, bind, gets, modify, ret.
  eexists. eexists. reflexivity.
Qed.

Lemma collect_returns fa frame_count fps (s : St Store) :
  fps <> 0%Z -> exists s', collect fa frame_count fps s = (Ok tt, s').
Proof.
  intro Hfps. unfold collect.
  destruct (truthy (objects_detected fa)), (truthy (fa_text_found fa)),
    (fa_motion_detected fa), (scene_change fa);
    rewrite ?(truediv_ok _ _ Hfps); eexists; reflexivity.
Qed.

Lemma frame_loop_returns fps max_frames frame_skip limit frames :
  frame_skip <> 0%Z -> (max_frames <= limit * fps)%Z ->
  forall frame_count analyzed previous (s : St Store),
    (0 <= frame_count)%Z ->
    exists n s',
      frame_loop w fps max_frames frame_skip frames frame_count analyzed previous s
      = (Ok n, s').
Proof.
  intros Hskip Hmax.
  induction frames as [|frame rest IH]; intros frame_count analyzed previous s Hcount;
    cbn [frame_loop].
  - destruct (frame_count <? max_frames)%Z; eexists; eexists; reflexivity.
  - destruct (frame_count <? max_frames)%Z eqn:Hlt;
      [| eexists; eexists; reflexivity].
    apply Z.ltb_lt in Hlt.
    assert (Hfps : fps <> 0%Z) by nia.
    assert (Hfps5 : (fps * 5)%Z <> 0%Z) by lia.
    assert (Hmax0 : max_frames <> 0%Z) by lia.
    rewrite (mod_ok _ _ Hskip).
    erewrite bind_ok by reflexivity.
    destruct (frame_count mod frame_skip =? 0)%Z.
    + rewrite (truediv_ok _ _ Hfps).
      destruct (analyze_single_frame_returns frame
                  (inject_Z frame_count / inject_Z fps) previous s) as (a & s1 & E1).
      destruct (collect_returns a frame_count fps s1 Hfps) as (s2 & E2).
      erewrite bind_ok;
        [| erewrite bind_ok by reflexivity;
           erewrite bind_ok by exact E1;
           erewrite bind_ok by exact E2; reflexivity].
      rewrite (mod_ok _ _ Hfps5). erewrite bind_ok by reflexivity.
      rewrite (truediv_ok _ _ Hmax0).
      erewrite bind_ok;
        [| destruct ((frame_count + 1) mod (fps * 5) =? 0)%Z; reflexivity].
      apply IH. lia.
    + erewrite bind_ok by reflexivity.
      rewrite (mod_ok _ _ Hfps5). erewrite bind_ok by reflexivity.
      rewrite (truediv_ok _ _ Hmax0).
      erewrite bind_ok;
        [| destruct ((frame_count + 1) mod (fps * 5) =? 0)%Z; reflexivity].
      apply IH. lia.
Qed.

(** No division of [_analyze_video_content] has a zero divisor, whatever
    the frame rate: the body never raises, so ['error'] is not set. *)
Lemma analyze_video_content_never_divides_by_zero path limit (s : St Store) :
  exists s',
    _analyze_video_content w path limit s = (Ok tt, s')
    /\ error (watch_result s') = error (watch_result s).
Proof.
  unfold _analyze_video_content.
  destruct (open_capture w path) as [cap|].
  - set (fps := cap_fps cap). set (total := cap_frame_count cap).
    assert (Hdur : exists q,
               (if (0 <? fps)%Z then lift (truediv total fps) else ret 0) s
               = (Ok q, s)).
    { destruct (0 <? fps)%Z eqn:E; [|eexists; reflexivity].
      apply Z.ltb_lt in E. unfold lift. rewrite truediv_ok by lia.
      eexists; reflexivity. }
    destruct Hdur as [q Hdur].
    destruct (frame_loop_returns fps (Z.min total (limit * fps))
                (Z.max 1 (fps / 2)) limit (cap_frames cap)
                ltac:(lia) ltac:(lia) 0%Z 0%Z None s ltac:(lia)) as (n & s1 & E1).
    pose proof (frame_loop_keeps_error w fps (Z.min total (limit * fps))
                  (Z.max 1 (fps / 2)) (cap_frames cap) 0%Z 0%Z None s) as K.
    rewrite E1 in K. cbn [snd] in K.
    eexists. split.
    + apply try_ok.
      erewrite bind_ok by exact Hdur.
      erewrite bind_ok by reflexivity.
      erewrite bind_ok by exact E1.
      erewrite bind_ok by reflexivity.
      reflexivity.
    + destruct s1. exact K.
  - eexists. split; reflexivity.
Qed.

End Sampling.

Lemma zero_fps_samples_no_frame_witness :
  frame_skip_of 0 = Ok 1%Z
  /\ _analyze_video_content Scenario.no_fps_world "clip.mp4" 300
       {| self := new_engine tt; watch_result := new_watch_result "clip.mp4" |}
     = (Ok tt,
        on_result (fun r => set_video_duration 0 (set_frames_analyzed 0 r))
          {| self := new_engine tt; watch_result := new_watch_result "clip.mp4" |}).
Proof.
  apply (zero_fps_samples_no_frame Scenario.no_fps_world _ "clip.mp4" 300 300
           [Scenario.white_frame; Scenario.white_frame; Scenario.white_frame]).
  reflexivity.
Defined.

(* ------------------------------------------------------------------ *)
(** *** Scene segmentation *)
(* ------------------------------------------------------------------ *)

Lemma two_of_three_bool (b1 b2 b3 : bool) (P1 P2 P3 : Prop) :
  (b1 = true <-> P1) -> (b2 = true <-> P2) -> (b3 = true <-> P3) ->
  (2 <=? (if b3
          then (if b2 then (if b1 then 0 + 1 else 0) + 1
                else if b1 then 0 + 1 else 0) + 1
          else if b2 then (if b1 then 0 + 1 else 0) + 1
               else if b1 then 0 + 1 else 0))%Z = true
  <-> at_least_two P1 P2 P3.
Proof.
  intros H1 H2 H3. unfold at_least_two. rewrite <- H1, <- H2, <- H3.
  destruct b1, b2, b3; cbn; intuition discriminate.
Qed.

Section SceneChange.
Context {Store : Type} (w : World Store).

(** Every analysed frame leaves its own brightness as the last-seen one,
    the first frame of an engine included. *)
Lemma analyze_single_frame_sets_last_brightness frame ts prev (s : St Store) :
  exists a s',
    _analyze_single_frame w frame ts prev s = (Ok a, s')
    /\ _last_brightness (self s') = Some (brightness a).
Proof.
  unfold _analyze_single_frame, _detect_scene_change, bind, gets, modify, ret.
  eexists. eexists. split; reflexivity.
Qed.

(** C4.  For a sampled frame that has a previous frame and a last-seen
    brightness, a scene boundary is emitted if and only if at least two of
    the three indicators hold: the absolute brightness difference with the
    last observation exceeds 0.3, the frame has at least one object
    candidate, the motion intensity against the previous frame exceeds
    0.2.  The frame's brightness becomes the last-seen one. *)
Theorem scene_boundary_iff_two_of_three
    (engine : Engine Store) (r : WatchResult) (frame previous : Frame)
    (timestamp last : Q) :
  _last_brightness engine = Some last ->
  let d := absdiff w motion_threshold frame previous in
  let intensity := inject_Z (changed_pixels d) / inject_Z (total_pixels d) in
  exists a s',
    _analyze_single_frame w frame timestamp (Some previous)
      {| self := engine; watch_result := r |} = (Ok a, s')
    /\ brightness a = gray_mean frame / 255.0
    /\ objects_detected a
       = (if object_detector engine then map (face_object timestamp) (faces frame)
          else [])
    /\ _last_brightness (self s') = Some (brightness a)
    /\ (scene_change a = true <->
        at_least_two (0.3 < Qabs (brightness a - last))
                     (objects_detected a <> [])
                     (0.2 < intensity)).
Proof.
  intros Hlast d intensity.
  eexists. eexists. split.
  { unfold _analyze_single_frame, _detect_scene_change, bind, gets, modify, ret.
    cbn [self object_detector _last_brightness watch_result on_self
         set_last_brightness].
    rewrite Hlast. reflexivity. }
  cbn [brightness objects_detected with_scene_change with_scene_description
       scene_change fa_motion_detected self on_self set_last_brightness
       _last_brightness].
  split; [reflexivity|]. split; [reflexivity|]. split; [reflexivity|].
  fold d. unfold _detect_motion. fold intensity.
  set (objects := if object_detector engine
                  then map (face_object timestamp) (faces frame) else []).
  assert (Hobjects : truthy objects = true <-> objects <> []).
  { destruct objects; cbn; split; congruence. }
  destruct (Qgtb intensity 0.01) eqn:Hfloor; cbn [motion_detected motion_intensity].
  - apply two_of_three_bool;
      [apply Qgtb_true | exact Hobjects | apply Qgtb_true].
  - apply (two_of_three_bool _ _ false);
      [apply Qgtb_true | exact Hobjects |].
    apply Qgtb_false in Hfloor. split; [discriminate | intro; exfalso; lra].
Qed.

End SceneChange.

Lemma scene_boundary_iff_two_of_three_witness :
  let engine := set_last_brightness 1 (new_engine tt) in
  let d := absdiff Scenario.two_videos motion_threshold
             Scenario.dark_face_frame Scenario.white_frame in
  let intensity := inject_Z (changed_pixels d) / inject_Z (total_pixels d) in
  exists a s',
    _analyze_single_frame Scenario.two_videos Scenario.dark_face_frame 0.5
      (Some Scenario.white_frame)
      {| self := engine; watch_result := new_watch_result "clip.mp4" |} = (Ok a, s')
    /\ brightness a = gray_mean Scenario.dark_face_frame / 255.0
    /\ objects_detected a
       = (if object_detector engine
          then map (face_object 0.5) (faces Scenario.dark_face_frame)
          else [])
    /\ _last_brightness (self s') = Some (brightness a)
    /\ (scene_change a = true <->
        at_least_two (0.3 < Qabs (brightness a - 1))
                     (objects_detected a <> [])
                     (0.2 < intensity)).
Proof.
  apply (scene_boundary_iff_two_of_three Scenario.two_videos
           (set_last_brightness 1 (new_engine tt)) (new_watch_result "clip.mp4")
           Scenario.dark_face_frame Scenario.white_frame 0.5 1).
  reflexivity.
Defined.

(** C5: the code at the failing input.  [_last_brightness] is an attribute
    of the engine that no call resets: after a white video has been
    watched, the first frame of the next video is compared with it.  The
    same dark frame with a face is no scene boundary on a fresh engine and
    is one on the used engine. *)
Theorem last_brightness_survives_between_watches :
  let fresh := new_engine tt in
  let used := snd (watch_video Scenario.two_videos fresh "white.mp4" 300) in
  _last_brightness fresh = None
  /\ _last_brightness used = Some (gray_mean Scenario.white_frame / 255.0)
  /\ (exists r, fst (watch_video Scenario.two_videos fresh "dark.mp4" 300) = Ok r
                /\ frames_analyzed r = 1%Z /\ scenes_detected r = [])
  /\ (exists r, fst (watch_video Scenario.two_videos used "dark.mp4" 300) = Ok r
                /\ frames_analyzed r = 1%Z
                /\ map scene_timestamp (scenes_detected r) = [0.0]).
Proof.
  cbv zeta. split; [reflexivity|]. split; [vm_compute; reflexivity|].
  split; eexists; (split; [vm_compute; reflexivity|]); split; reflexivity.
Qed.

(* ------------------------------------------------------------------ *)
(** *** The control flow of watch_video *)
(* ------------------------------------------------------------------ *)

Section WatchVideoBody.
Context {Store : Type} (w : World Store).

(** What the cleanup of the temporary file leaves: nothing changes. *)
Lemma cleanup_returns (tmp path : string) (s : St Store) :
  (if prefix tmp path
   then try_except (lift (os_remove w path)) (fun _ => ret tt)
   else ret tt) s = (Ok tt, s).
Proof.
  destruct (prefix tmp path); [|reflexivity].
  unfold try_except, lift, ret.
  destruct (os_remove w path) as [[]|e]; reflexivity.
Qed.

(** The [try] / [except] of [watch_video] followed by the save, around any
    body: nothing is raised; an exception of the body ends up as the
    'error' string of the dictionary the body left, and nothing else is
    touched. *)
Lemma except_clause_reports_any_exception
    (body : M (St Store) unit) (s : St Store) :
  exists s',
    (try_except body (fun e => modify (on_result (set_error (str_exc e)))) ;;
     save_video_vision_data w) s = (Ok tt, s')
    /\ match body s with
       | (Ok _, s1) => s' = s1
       | (Raise e, s1) => s' = on_result (set_error (str_exc e)) s1
       end.
Proof.
  destruct (body s) as [[[] | e] s1] eqn:E; eexists; (split; [|reflexivity]).
  - erewrite bind_ok; [apply save_returns | apply try_ok; exact E].
  - erewrite bind_ok; [apply save_returns |].
    erewrite try_raise by exact E. reflexivity.
Qed.

(** The outcome of [watch_video_body] when it starts from a result whose
    ['success'] is false. *)
Lemma watch_video_body_spec (url : string) (limit : Z) (s : St Store) :
  success_of s = false ->
  exists s',
    watch_video_body w url limit s = (Ok tt, s')
    /\ (skills_of s' = skills_of s
        \/ skills_of s'
           = _update_video_vision_skills (skills_of s) (watch_result s'))
    /\ match resolve_video w url with
       | Some (String _ _) =>
           match gettempdir w with
           | Ok _ => success_of s' = true
           | Raise e =>
               success_of s' = false
               /\ error (watch_result s') = Some (str_exc e)
           end
       | _ =>
           watch_result s'
           = set_error "Could not prepare video for analysis" (watch_result s)
           /\ self s' = self s
       end.
Proof.
  intro Hs. unfold watch_video_body.
  destruct (resolve_video w url) as [[|c rest]|] eqn:R.
  - eexists. split; [|split].
    + erewrite bind_ok; [apply save_returns | reflexivity].
    + left. destruct s; reflexivity.
    + destruct s; split; reflexivity.
  - set (path := String c rest).
    destruct (analyze_video_content_returns w path limit s) as [s1 E1].
    pose proof (analyze_video_content_keeps_skills w path limit s) as K1.
    pose proof (analyze_video_content_keeps_success w path limit s) as S1.
    rewrite E1 in K1, S1. cbn [snd] in K1, S1.
    set (s2 := on_result
                 (fun r =>
                    set_comprehension_score (_calculate_comprehension_score r) r)
                 (on_result
                    (fun r => set_visual_summary (_generate_video_summary r) r)
                    s1)).
    destruct (learn_returns w s2) as (s3 & E3 & R3 & K3).
    assert (K2 : skills_of s2 = skills_of s)
      by (rewrite <- K1; destruct s1; reflexivity).
    assert (S2 : success_of s2 = false)
      by (rewrite <- Hs, <- S1; destruct s1; reflexivity).
    assert (S3 : success_of s3 = false)
      by (unfold success_of; rewrite R3; exact S2).
    assert (K : skills_of s3 = skills_of s
                \/ skills_of s3
                   = _update_video_vision_skills (skills_of s) (watch_result s3)).
    { destruct K3 as [K3 | K3]; rewrite K3, K2; [left; reflexivity |].
      right. rewrite R3. reflexivity. }
    destruct (gettempdir w) as [tmp | e] eqn:G.
    + exists (on_result (set_success true) s3). split; [|split].
      * erewrite bind_ok; [apply save_returns|].
        apply try_ok.
        erewrite bind_ok by exact E1.
        erewrite bind_ok by reflexivity.
        erewrite bind_ok by reflexivity.
        fold s2. erewrite bind_ok by exact E3.
        erewrite bind_ok by reflexivity.
        erewrite bind_ok by apply cleanup_returns.
        reflexivity.
      * destruct s3; exact K.
      * destruct s3; reflexivity.
    + exists (on_result (set_error (str_exc e)) s3). split; [|split].
      * erewrite bind_ok; [apply save_returns|].
        erewrite try_raise; [reflexivity|].
        erewrite bind_ok by exact E1.
        erewrite bind_ok by reflexivity.
        erewrite bind_ok by reflexivity.
        fold s2. erewrite bind_ok by exact E3.
        reflexivity.
      * destruct s3; exact K.
      * destruct s3; split; [exact S3 | reflexivity].
  - eexists. split; [|split].
    + erewrite bind_ok; [apply save_returns | reflexivity].
    + left. destruct s; reflexivity.
    + destruct s; split; reflexivity.
Qed.

End WatchVideoBody.

Section WatchVideo.
Context {Store : Type} (w : World Store).


(** One call either leaves the gauges alone or applies
    [_update_video_vision_skills] once, for the result it returns. *)
Lemma watch_video_skills (engine engine' : Engine Store) (url : string)
    (limit : Z) (r : WatchResult) :
  watch_video w engine url limit = (Ok r, engine') ->
  video_vision_skills engine' = video_vision_skills engine
  \/ video_vision_skills engine'
     = _update_video_vision_skills (video_vision_skills engine) r.
Proof.
  destruct (watch_video_body_spec w url limit
              {| self := engine; watch_result := new_watch_result url |}
              eq_refl) as (s' & E & K & _).
  unfold watch_video. rewrite E. intro H. injection H as <- <-. exact K.
Qed.

Lemma watch_video_always_returns (engine : Engine Store) (url : string)
    (limit : Z) :
  exists r engine', watch_video w engine url limit = (Ok r, engine').
Proof.
  destruct (watch_video_body_spec w url limit
              {| self := engine; watch_result := new_watch_result url |}
              eq_refl) as (s' & E & _).
  exists (watch_result s'), (self s'). unfold watch_video. rewrite E. reflexivity.
Qed.

Lemma watch_video_gauges (engine : Engine Store) (url : string) (limit : Z) :
  gauges_in_unit (video_vision_skills engine) ->
  let engine' := snd (watch_video w engine url limit) in
  gauges_in_unit (video_vision_skills engine')
  /\ gauges_moved_up_by 0.02 (video_vision_skills engine)
       (video_vision_skills engine').
Proof.
  intros Hunit engine'.
  destruct (watch_video_always_returns engine url limit) as (r & e1 & E).
  assert (Heq : engine' = e1) by (unfold engine'; rewrite E; reflexivity).
  destruct (watch_video_skills engine e1 url limit r E) as [K | K];
    rewrite Heq, K.
  - split; [exact Hunit|].
    apply (moved_up_weaken 0); [lra | apply moved_up_refl].
  - apply update_skills_step. exact Hunit.
Qed.

Lemma watch_videos_gauges (calls : list (string * Z)) :
  forall engine : Engine Store,
    gauges_in_unit (video_vision_skills engine) ->
    gauges_in_unit (video_vision_skills (watch_videos w engine calls))
    /\ gauges_moved_up_by (0.02 * inject_Z (len calls))
         (video_vision_skills engine)
         (video_vision_skills (watch_videos w engine calls)).
Proof.
  induction calls as [|[url limit] rest IH]; intros engine Hunit.
  - cbn [watch_videos]. split; [exact Hunit|].
    apply (moved_up_weaken 0); [| apply moved_up_refl].
    unfold len. cbn [List.length Z.of_nat]. change (inject_Z 0) with 0. lra.
  - cbn [watch_videos].
    destruct (watch_video_gauges engine url limit Hunit) as [Hunit1 Hup1].
    destruct (IH _ Hunit1) as [Hunit2 Hup2].
    split; [exact Hunit2|].
    eapply moved_up_weaken; [| eapply moved_up_trans; [exact Hup1 | exact Hup2]].
    unfold len. cbn [List.length]. rewrite Nat2Z.inj_succ, <- Z.add_1_r.
    rewrite inject_Z_plus. change (inject_Z 1) with 1. lra.
Qed.

End WatchVideo.

(** C2: the code at the failing input.  The file exists, so the video is
    "prepared", but [cv2.VideoCapture] cannot open it:
    [_analyze_video_content] returns the untouched dictionary and
    [watch_video] goes on to report success, with no 'error' and zero
    frames analysed. *)
Theorem unopened_video_is_reported_as_success :
  resolve_video Scenario.corrupt_world "corrupt.mp4" = Some "corrupt.mp4"%string
  /\ open_capture Scenario.corrupt_world "corrupt.mp4" = None
  /\ exists r,
       fst (watch_video Scenario.corrupt_world (new_engine tt) "corrupt.mp4" 300)
         = Ok r
       /\ success r = true /\ error r = None /\ frames_analyzed r = 0%Z.
Proof.
  split; [reflexivity|]. split; [reflexivity|].
  eexists. split; [vm_compute; reflexivity|]. repeat split.
Qed.

(* ================================================================== *)
(** ** The frame loop, the knowledge store and the callers *)
(* ================================================================== *)

Section LoopRule.
Context {Store : Type} (w : World Store).

Lemma collect_spec fa frame_count fps (s : St Store) :
  fps <> 0%Z ->
  collect fa frame_count fps s = (Ok tt, on_result (collected fa frame_count fps) s).
Proof.
  intro Hfps. unfold collect, collected. destruct s as [e r].
  destruct (truthy (objects_detected fa)), (truthy (fa_text_found fa)),
    (fa_motion_detected fa), (scene_change fa);
    rewrite ?(truediv_ok _ _ Hfps); reflexivity.
Qed.

(** What [_analyze_single_frame] returns and leaves. *)
Lemma analyze_single_frame_spec frame ts prev (s : St Store) :
  exists a,
    _analyze_single_frame w frame ts prev s
    = (Ok a, on_self (set_last_brightness (gray_mean frame / 255.0)) s)
    /\ objects_detected a
       = (if object_detector (self s) then map (face_object ts) (faces frame) else [])
    /\ fa_text_found a = _detect_text_in_frame frame ts
    /\ fa_motion_detected a
       = match prev with
         | Some previous =>
             let motion_info := _detect_motion (absdiff w motion_threshold frame previous) in
             if motion_detected motion_info then Some motion_info else None
         | None => None
         end
    /\ brightness a = gray_mean frame / 255.0.
Proof.
  unfold _analyze_single_frame, _detect_scene_change, bind, gets, modify, ret.
  eexists. split; [reflexivity|]. repeat split.
Qed.

Lemma frame_loop_rule fps max_frames frame_skip limit
    (Inv : Z -> Z -> option Frame -> St Store -> Prop) :
  frame_skip <> 0%Z -> (max_frames <= limit * fps)%Z ->
  (forall frame c a prev s,
     (0 <= c < max_frames)%Z -> Inv c a prev s ->
     ((c mod frame_skip = 0)%Z ->
      forall fa s1,
        _analyze_single_frame w frame (inject_Z c / inject_Z fps) prev s = (Ok fa, s1) ->
        Inv (c + 1)%Z (a + 1)%Z (Some frame) (on_result (collected fa c fps) s1))
     /\ ((c mod frame_skip <> 0)%Z -> Inv (c + 1)%Z a prev s)) ->
  forall frames c a prev s,
    (0 <= c)%Z -> Inv c a prev s ->
    exists n prev' s',
      frame_loop w fps max_frames frame_skip frames c a prev s = (Ok n, s')
      /\ Inv (loop_exit c frames max_frames) n prev' s'.
Proof.
  intros Hskip Hmax Hstep.
  induction frames as [|frame rest IH]; intros c a prev s Hc HInv;
    cbn [frame_loop].
  - exists a, prev, s. split.
    + destruct (c <? max_frames)%Z; reflexivity.
    + unfold loop_exit, len. cbn [List.length Z.of_nat].
      replace (Z.min (c + 0) (Z.max c max_frames)) with c by lia. exact HInv.
  - destruct (c <? max_frames)%Z eqn:Hlt.
    2:{ exists a, prev, s. split; [reflexivity|].
        apply Z.ltb_ge in Hlt. unfold loop_exit.
        replace (Z.min (c + len (frame :: rest)) (Z.max c max_frames)) with c
          by (unfold len; lia).
        exact HInv. }
    apply Z.ltb_lt in Hlt.
    assert (Hfps : fps <> 0%Z) by nia.
    assert (Hfps5 : (fps * 5)%Z <> 0%Z) by lia.
    assert (Hmax0 : max_frames <> 0%Z) by lia.
    assert (Hexit : loop_exit c (frame :: rest) max_frames
                    = loop_exit (c + 1) rest max_frames).
    { unfold loop_exit, len. cbn [List.length]. lia. }
    rewrite Hexit.
    destruct (Hstep frame c a prev s (conj Hc Hlt) HInv) as [Hyes Hno].
    rewrite (mod_ok _ _ Hskip).
    erewrite bind_ok by reflexivity.
    destruct (c mod frame_skip =? 0)%Z eqn:Hphase.
    + apply Z.eqb_eq in Hphase.
      rewrite (truediv_ok _ _ Hfps).
      destruct (analyze_single_frame_returns w frame
                  (inject_Z c / inject_Z fps) prev s) as (fa & s1 & E1).
      specialize (Hyes Hphase fa s1 E1).
      erewrite bind_ok;
        [| erewrite bind_ok by reflexivity;
           erewrite bind_ok by exact E1;
           erewrite bind_ok by (apply collect_spec; exact Hfps); reflexivity].
      rewrite (mod_ok _ _ Hfps5). erewrite bind_ok by reflexivity.
      rewrite (truediv_ok _ _ Hmax0).
      erewrite bind_ok;
        [| destruct ((c + 1) mod (fps * 5) =? 0)%Z; reflexivity].
      cbn [fst snd]. apply IH; [lia | exact Hyes].
    + apply Z.eqb_neq in Hphase. specialize (Hno Hphase).
      erewrite bind_ok by reflexivity.
      rewrite (mod_ok _ _ Hfps5). erewrite bind_ok by reflexivity.
      rewrite (truediv_ok _ _ Hmax0).
      erewrite bind_ok;
        [| destruct ((c + 1) mod (fps * 5) =? 0)%Z; reflexivity].
      cbn [fst snd]. apply IH; [lia | exact Hno].
Qed.

(** The rule lifted to [_analyze_video_content] on an opened capture. *)
Lemma analyze_video_content_rule path limit cap
    (Inv : Z -> Z -> option Frame -> St Store -> Prop) (s : St Store) :
  open_capture w path = Some cap ->
  let fps := cap_fps cap in
  let max_frames := Z.min (cap_frame_count cap) (limit * fps) in
  let frame_skip := Z.max 1 (fps / 2) in
  (forall frame c a prev s,
     (0 <= c < max_frames)%Z -> Inv c a prev s ->
     ((c mod frame_skip = 0)%Z ->
      forall fa s1,
        _analyze_single_frame w frame (inject_Z c / inject_Z fps) prev s = (Ok fa, s1) ->
        Inv (c + 1)%Z (a + 1)%Z (Some frame) (on_result (collected fa c fps) s1))
     /\ ((c mod frame_skip <> 0)%Z -> Inv (c + 1)%Z a prev s)) ->
  Inv 0%Z 0%Z None s ->
  exists n prev' s1 duration,
    Inv (loop_exit 0 (cap_frames cap) max_frames) n prev' s1
    /\ duration = (if (0 <? fps)%Z
                   then inject_Z (cap_frame_count cap) / inject_Z fps else 0)
    /\ _analyze_video_content w path limit s
       = (Ok tt,
          on_result (fun r => set_video_duration duration (set_frames_analyzed n r)) s1).
Proof.
  intros Hopen fps max_frames frame_skip Hstep H0.
  destruct (frame_loop_rule fps max_frames frame_skip limit Inv
              ltac:(unfold frame_skip; lia) ltac:(unfold max_frames; lia) Hstep
              (cap_frames cap) 0%Z 0%Z None s ltac:(lia) H0)
    as (n & prev' & s1 & E & HI).
  exists n, prev', s1. eexists. split; [exact HI|]. split; [reflexivity|].
  unfold _analyze_video_content. rewrite Hopen. fold fps. apply try_ok.
  assert (Hdur : (if (0 <? fps)%Z
                  then lift (truediv (cap_frame_count cap) fps) else ret 0) s
                 = (Ok (if (0 <? fps)%Z
                        then inject_Z (cap_frame_count cap) / inject_Z fps else 0), s)).
  { destruct (0 <? fps)%Z eqn:Ef; [|reflexivity].
    apply Z.ltb_lt in Ef. unfold lift. rewrite truediv_ok by lia. reflexivity. }
  erewrite bind_ok by exact Hdur.
  erewrite bind_ok by reflexivity.
  erewrite bind_ok by exact E.
  erewrite bind_ok by reflexivity.
  destruct s1; reflexivity.
Qed.

End LoopRule.

(** The score reads the observations only. *)
Lemma score_reads_observations (r r' : WatchResult) :
  same_observations r r' ->
  _calculate_comprehension_score r = _calculate_comprehension_score r'.
Proof.
  intros (H1 & H2 & H3 & H4 & H5 & _).
  unfold _calculate_comprehension_score. cbv zeta.
  rewrite H1, H2, H3, H4, H5. reflexivity.
Qed.

Lemma summarised_score (r1 r : WatchResult) :
  same_observations r r1 ->
  comprehension_score r = comprehension_score (summarised_and_scored r1) ->
  comprehension_score r == _calculate_comprehension_score r.
Proof.
  intros Hobs Hc. rewrite Hc, (score_reads_observations r r1 Hobs).
  unfold summarised_and_scored. cbv zeta.
  cbn [comprehension_score set_comprehension_score].
  rewrite (score_reads_observations
             (set_visual_summary (_generate_video_summary r1) r1) r1);
    [reflexivity | unfold same_observations; repeat split].
Qed.

Section Trace.
Context {Store : Type} (w : World Store).

(** The whole of one [watch_video] call, step by step. *)
Lemma watch_video_trace (engine : Engine Store) (url : string) (limit : Z) :
  let s0 := {| self := engine; watch_result := new_watch_result url |} in
  exists r engine',
    watch_video w engine url limit = (Ok r, engine')
    /\ match resolve_video w url with
       | Some (String c rest) =>
           exists s1 s3,
             _analyze_video_content w (String c rest) limit s0 = (Ok tt, s1)
             /\ _learn_from_video_watching w
                  (on_result summarised_and_scored s1) = (Ok tt, s3)
             /\ watch_result s3 = summarised_and_scored (watch_result s1)
             /\ engine' = self s3
             /\ r = match gettempdir w with
                    | Ok _ => set_success true (watch_result s3)
                    | Raise e => set_error (str_exc e) (watch_result s3)
                    end
       | _ =>
           r = set_error "Could not prepare video for analysis"
                 (new_watch_result url)
           /\ engine' = engine
       end.
Proof.
  intro s0.
  assert (Hfail :
    match resolve_video w url with Some (String _ _) => False | _ => True end ->
    watch_video w engine url limit
    = (Ok (set_error "Could not prepare video for analysis" (new_watch_result url)),
       engine)).
  { intro H. unfold watch_video. fold s0.
    assert (B : watch_video_body w url limit s0
                = (Ok tt, on_result
                            (set_error "Could not prepare video for analysis") s0)).
    { unfold watch_video_body.
      destruct (resolve_video w url) as [[|c rest]|]; try contradiction;
        (erewrite bind_ok; [apply save_returns | reflexivity]). }
    rewrite B. reflexivity. }
  destruct (resolve_video w url) as [[|c rest]|] eqn:R.
  - eexists. eexists. split; [apply Hfail; exact I | split; reflexivity].
  - clear Hfail. set (path := String c rest).
    destruct (analyze_video_content_returns w path limit s0) as [s1 E1].
    destruct (learn_returns w (on_result summarised_and_scored s1))
      as (s3 & E3 & R3 & _).
    assert (Hs2 : on_result
                    (fun r => set_comprehension_score
                                (_calculate_comprehension_score r) r)
                    (on_result
                       (fun r => set_visual_summary (_generate_video_summary r) r)
                       s1)
                  = on_result summarised_and_scored s1)
      by (destruct s1; reflexivity).
    assert (R3' : watch_result s3 = summarised_and_scored (watch_result s1))
      by (rewrite R3; destruct s1; reflexivity).
    destruct (gettempdir w) as [tmp | e] eqn:G.
    + exists (set_success true (watch_result s3)), (self s3).
      split.
      * assert (B : watch_video_body w url limit s0
                    = (Ok tt, on_result (set_success true) s3)).
        { unfold watch_video_body. rewrite R, G.
          erewrite bind_ok; [apply save_returns|].
          apply try_ok.
          erewrite bind_ok by exact E1.
          erewrite bind_ok by reflexivity.
          erewrite bind_ok by reflexivity.
          rewrite Hs2. erewrite bind_ok by exact E3.
          erewrite bind_ok by reflexivity.
          erewrite bind_ok by apply cleanup_returns.
          reflexivity. }
        unfold watch_video. fold s0. rewrite B. destruct s3; reflexivity.
      * exists s1, s3. repeat split; assumption.
    + exists (set_error (str_exc e) (watch_result s3)), (self s3).
      split.
      * assert (B : watch_video_body w url limit s0
                    = (Ok tt, on_result (set_error (str_exc e)) s3)).
        { unfold watch_video_body. rewrite R, G.
          erewrite bind_ok; [apply save_returns|].
          erewrite try_raise; [reflexivity|].
          erewrite bind_ok by exact E1.
          erewrite bind_ok by reflexivity.
          erewrite bind_ok by reflexivity.
          rewrite Hs2. erewrite bind_ok by exact E3.
          reflexivity. }
        unfold watch_video. fold s0. rewrite B. destruct s3; reflexivity.
      * exists s1, s3. repeat split; assumption.
  - eexists. eexists. split; [apply Hfail; exact I | split; reflexivity].
Qed.

(** The observations a call returns are those the analysis collected from
    an empty dictionary; without a prepared video they are empty. *)
Lemma watch_video_observations (engine : Engine Store) (url : string) (limit : Z) :
  let s0 := {| self := engine; watch_result := new_watch_result url |} in
  exists r engine',
    watch_video w engine url limit = (Ok r, engine')
    /\ comprehension_score r == _calculate_comprehension_score r
    /\ match resolve_video w url with
       | Some (String c rest) =>
           exists s1,
             _analyze_video_content w (String c rest) limit s0 = (Ok tt, s1)
             /\ same_observations r (watch_result s1)
       | _ => same_observations r (new_watch_result url)
       end.
Proof.
  intro s0. destruct (watch_video_trace engine url limit) as (r & e' & E & H).
  exists r, e'. split; [exact E|]. fold s0 in H.
  destruct (resolve_video w url) as [[|c rest]|].
  - destruct H as [-> _]. split; [vm_compute; reflexivity|].
    unfold same_observations. repeat split.
  - destruct H as (s1 & s3 & E1 & _ & R3 & _ & ->).
    split.
    + destruct (gettempdir w); rewrite R3;
        (apply (summarised_score (watch_result s1));
         [unfold same_observations; repeat split | reflexivity]).
    + exists s1. split; [exact E1|].
      destruct (gettempdir w); rewrite R3;
        unfold same_observations; repeat split.
  - destruct H as [-> _]. split; [vm_compute; reflexivity|].
    unfold same_observations. repeat split.
Qed.

End Trace.

Lemma collected_fields fa c fps r :
  objects_seen (collected fa c fps r)
  = (objects_seen r ++ objects_detected fa)%list
  /\ text_found (collected fa c fps r) = (text_found r ++ fa_text_found fa)%list
  /\ motion_events (collected fa c fps r)
     = (motion_events r
          ++ match fa_motion_detected fa with Some m => [m] | None => [] end)%list
  /\ scenes_detected (collected fa c fps r)
     = (scenes_detected r
          ++ if scene_change fa
             then [ {| scene_timestamp := inject_Z c / inject_Z fps;
                       description := scene_description fa |} ]
             else [])%list.
Proof.
  unfold collected.
  destruct (objects_detected fa) as [|o os], (fa_text_found fa) as [|t ts],
    (fa_motion_detected fa) as [m|], (scene_change fa);
    cbn; rewrite ?app_nil_r; repeat split.
Qed.

Lemma detect_text_at_most_one frame ts :
  (len (_detect_text_in_frame frame ts) <= 1)%Z
  /\ Forall (fun t => (0 < regions_count t)%Z) (_detect_text_in_frame frame ts).
Proof.
  unfold _detect_text_in_frame.
  destruct (0 <? len (filter text_like (edge_rects frame)))%Z eqn:E.
  - split; [unfold len; cbn; lia|]. constructor; [|constructor].
    cbn. apply Z.ltb_lt. exact E.
  - split; [unfold len; cbn; lia | constructor].
Qed.

Lemma detect_motion_floor d :
  motion_detected (_detect_motion d) = true -> above_floor (_detect_motion d).
Proof.
  unfold _detect_motion, above_floor.
  destruct (Qgtb (inject_Z (changed_pixels d) / inject_Z (total_pixels d)) 0.01)
    eqn:E; cbn; intro H; [|discriminate].
  split; [reflexivity|]. apply Qgtb_true. exact E.
Qed.

Lemma len_app {A : Type} (xs ys : list A) : len (xs ++ ys) = (len xs + len ys)%Z.
Proof. unfold len. rewrite length_app. lia. Qed.

Section Observations.
Context {Store : Type} (w : World Store).

Lemma observations_step frame c fps a prev (s s1 : St Store) fa ts :
  observations_ok a (watch_result s) -> (a = 0%Z -> prev = None) ->
  _analyze_single_frame w frame ts prev s = (Ok fa, s1) ->
  observations_ok (a + 1) (collected fa c fps (watch_result s1)).
Proof.
  intros (Ha & Hs & Ht & Hm & Ho & Hmf & Htf) Hprev E.
  destruct (analyze_single_frame_spec w frame ts prev s)
    as (fa' & E' & Fo & Ft & Fm & _).
  rewrite E' in E. injection E as <- <-.
  assert (Hr : watch_result (on_self (set_last_brightness (gray_mean frame / 255.0)) s)
               = watch_result s) by (destruct s; reflexivity).
  rewrite Hr.
  destruct (collected_fields fa' c fps (watch_result s)) as (Co & Ct & Cm & Cs).
  destruct (detect_text_at_most_one frame ts) as [Tlen Tpos].
  unfold observations_ok. rewrite Co, Ct, Cm, Cs, Fo, Ft, Fm.
  rewrite !len_app.
  split; [lia|]. split.
  { destruct (scene_change fa'); unfold len in *; cbn [List.length] in *; lia. }
  split; [lia|]. split.
  { destruct prev as [previous|].
    - assert (a <> 0%Z) by (intro H0; specialize (Hprev H0); discriminate).
      cbv zeta.
      destruct (motion_detected
                  (_detect_motion (absdiff w motion_threshold frame previous)));
        unfold len in *; cbn [List.length] in *; lia.
    - unfold len in *; cbn [List.length] in *; lia. }
  split.
  { apply Forall_app. split; [exact Ho|].
    destruct (object_detector (self s)); [|constructor].
    apply Forall_forall. intros o Hin. apply in_map_iff in Hin.
    destruct Hin as (rect & <- & _). split; reflexivity. }
  split.
  { apply Forall_app. split; [exact Hmf|].
    destruct prev as [previous|]; [|constructor]. cbv zeta.
    destruct (motion_detected
                (_detect_motion (absdiff w motion_threshold frame previous)))
      eqn:Ed; [|constructor].
    constructor; [|constructor]. apply detect_motion_floor. exact Ed. }
  apply Forall_app. split; assumption.
Qed.

(** The observations [_analyze_video_content] leaves in a dictionary that
    had none. *)
Lemma analysis_observations path limit cap (s : St Store) :
  open_capture w path = Some cap ->
  observations_ok 0 (watch_result s) ->
  exists s',
    _analyze_video_content w path limit s = (Ok tt, s')
    /\ observations_ok (frames_analyzed (watch_result s')) (watch_result s').
Proof.
  intros Hopen H0.
  destruct (analyze_video_content_rule w path limit cap
              (fun c a prev s => observations_ok a (watch_result s)
                                 /\ (a = 0%Z -> prev = None)) s Hopen)
    as (n & prev' & s1 & duration & [HI _] & _ & E).
  - intros frame c a prev s2 Hc [HI Hp]. split.
    + intros _ fa s3 E3. pose proof HI as (Ha & _).
      split; [| intro; exfalso; lia].
      eapply observations_step; eassumption.
    + intros _. split; assumption.
  - split; [exact H0 | reflexivity].
  - eexists. split; [exact E|]. destruct s1 as [e1 r1]. exact HI.
Qed.

End Observations.

Lemma observations_ok_same (r r' : WatchResult) :
  same_observations r r' ->
  observations_ok (frames_analyzed r') r' -> observations_ok (frames_analyzed r) r.
Proof.
  intros (F & S & O & T & M & _). unfold observations_ok.
  rewrite F, S, O, T, M. auto.
Qed.

Lemma observations_ok_new (url : string) :
  observations_ok 0 (new_watch_result url).
Proof.
  unfold observations_ok, len. cbn. repeat split; try lia; constructor.
Qed.

Lemma mean_above (c : Q) (xs : list Q) :
  xs <> [] -> Forall (fun x => c < x) xs -> c < mean xs.
Proof.
  intros Hne Hall. unfold mean.
  assert (Hsum : forall ys, Forall (fun x => c < x) ys ->
                   c * inject_Z (len ys) <= fold_right Qplus 0 ys
                   /\ (ys <> [] -> c * inject_Z (len ys) < fold_right Qplus 0 ys)).
  { induction ys as [|y ys IH]; intro H.
    - change (len (@nil Q)) with 0%Z. change (inject_Z 0) with 0.
      cbn [fold_right]. split; [lra | congruence].
    - inversion H as [|? ? Hy Hys]; subst. destruct (IH Hys) as [IH1 _].
      assert (E : inject_Z (len (y :: ys)) == inject_Z (len ys) + 1).
      { unfold len. cbn [List.length]. rewrite Nat2Z.inj_succ, <- Z.add_1_r.
        rewrite inject_Z_plus. reflexivity. }
      cbn [fold_right]. rewrite E. split; [|intros _]; lra. }
  destruct (Hsum xs Hall) as [_ Hlt]. specialize (Hlt Hne).
  assert (Hpos : 0 < inject_Z (len xs)).
  { destruct xs; [congruence|]. unfold len. cbn [List.length].
    change 0 with (inject_Z 0). rewrite <- Zlt_Qlt. lia. }
  apply Qlt_shift_div_l; assumption.
Qed.

Section WatchObservations.
Context {Store : Type} (w : World Store).

Lemma watch_video_observations_ok (engine : Engine Store) (url : string) (limit : Z) :
  exists r engine',
    watch_video w engine url limit = (Ok r, engine')
    /\ observations_ok (frames_analyzed r) r.
Proof.
  destruct (watch_video_observations w engine url limit) as (r & e' & E & _ & H).
  exists r, e'. split; [exact E|].
  destruct (resolve_video w url) as [[|c rest]|].
  - eapply observations_ok_same; [exact H | apply observations_ok_new].
  - destruct H as (s1 & E1 & Hsame).
    eapply observations_ok_same; [exact Hsame|].
    destruct (open_capture w (String c rest)) as [cap|] eqn:Hopen.
    + destruct (analysis_observations w (String c rest) limit cap
                  {| self := engine; watch_result := new_watch_result url |}
                  Hopen (observations_ok_new url)) as (s' & E' & Hok).
      rewrite E' in E1. injection E1 as <-. exact Hok.
    + rewrite (unopened_capture_changes_nothing w _ limit _ Hopen) in E1.
      injection E1 as <-. apply observations_ok_new.
  - eapply observations_ok_same; [exact H | apply observations_ok_new].
Qed.

(** X1.  [watch_video] returns a result in which no list of observations
    is longer than the number of analysed frames allows: at most one
    scene and one text instance per analysed frame, and at most one
    motion event per analysed frame after the first. *)
Theorem observation_counts_bounded_by_frames
    (engine : Engine Store) (url : string) (limit : Z) :
  exists r engine',
    watch_video w engine url limit = (Ok r, engine')
    /\ (0 <= frames_analyzed r)%Z
    /\ (len (scenes_detected r) <= frames_analyzed r)%Z
    /\ (len (text_found r) <= frames_analyzed r)%Z
    /\ (len (motion_events r) <= Z.max 0 (frames_analyzed r - 1))%Z.
Proof.
  destruct (watch_video_observations_ok engine url limit)
    as (r & e' & E & (H1 & H2 & H3 & H4 & _)).
  exists r, e'. auto.
Qed.

(** X2.  Every motion event [watch_video] records has an intensity above
    0.01, the threshold of [_detect_motion]; so has the average the
    summary reports, whenever there is an event. *)
Theorem recorded_motion_is_above_floor
    (engine : Engine Store) (url : string) (limit : Z) :
  exists r engine',
    watch_video w engine url limit = (Ok r, engine')
    /\ Forall above_floor (motion_events r)
    /\ (motion_events r <> [] ->
        0.01 < mean (map motion_intensity (motion_events r))).
Proof.
  destruct (watch_video_observations_ok engine url limit)
    as (r & e' & E & (_ & _ & _ & _ & _ & Hm & _)).
  exists r, e'. split; [exact E|]. split; [exact Hm|].
  intro Hne. apply mean_above.
  - destruct (motion_events r); [congruence | discriminate].
  - apply Forall_map. eapply Forall_impl; [|exact Hm]. intros m [_ H]. exact H.
Qed.

(** X3.  Every object [watch_video] records is a face of confidence 0.8:
    the Haar cascade is the only detector.  A result with objects has
    exactly one object type. *)
Theorem every_object_is_a_face
    (engine : Engine Store) (url : string) (limit : Z) :
  exists r engine',
    watch_video w engine url limit = (Ok r, engine')
    /\ Forall is_face (objects_seen r)
    /\ (objects_seen r <> [] -> unique (map obj_type (objects_seen r)) = ["face"]).
Proof.
  destruct (watch_video_observations_ok engine url limit)
    as (r & e' & E & (_ & _ & _ & _ & Ho & _)).
  exists r, e'. split; [exact E|]. split; [exact Ho|].
  intro Hne. unfold unique.
  induction (objects_seen r) as [|o os IH]; [congruence|].
  inversion Ho as [|? ? [Ht _] Hos]; subst. cbn [map nodup]. rewrite Ht.
  destruct os as [|o' os'].
  - reflexivity.
  - specialize (IH Hos ltac:(discriminate)).
    destruct (in_dec string_dec "face" (map obj_type (o' :: os'))) as [Hin|Hnin].
    + exact IH.
    + exfalso. apply Hnin. inversion Hos as [|? ? [Ht' _] _]; subst.
      cbn [map]. left. exact Ht'.
Qed.

(** X4.  In the result of [watch_video], 'success' is true exactly when
    no 'error' was recorded: a successful result never carries an error
    string, since the [except] clause of [_analyze_video_content] is
    never taken, whatever the capture delivers. *)
Theorem success_iff_no_error
    (engine : Engine Store) (url : string) (limit : Z) :
  exists r engine',
    watch_video w engine url limit = (Ok r, engine')
    /\ (success r = true <-> error r = None).
Proof.
  destruct (watch_video_trace w engine url limit) as (r & e' & E & H).
  exists r, e'. split; [exact E|].
  destruct (resolve_video w url) as [[|c rest]|].
  - destruct H as [-> _]. cbn. split; discriminate.
  - destruct H as (s1 & s3 & E1 & _ & R3 & _ & ->).
    destruct (analyze_video_content_never_divides_by_zero w (String c rest) limit
                {| self := engine; watch_result := new_watch_result url |})
      as (s1' & E1' & Herr).
    rewrite E1 in E1'. injection E1' as <-. cbn in Herr.
    pose proof (analyze_video_content_keeps_success w (String c rest) limit
                  {| self := engine; watch_result := new_watch_result url |}) as S1.
    rewrite E1 in S1. unfold success_of in S1. cbn in S1.
    destruct (gettempdir w); rewrite R3; cbn.
    + rewrite Herr. split; reflexivity.
    + rewrite S1. split; discriminate.
  - destruct H as [-> _]. cbn. split; discriminate.
Qed.

(** X5.  The 'comprehension_score' of the returned result is the score
    of that very result (the summary written before it and the success
    flag written after it do not enter the score), and lies in [0, 1]. *)
Theorem returned_score_is_consistent
    (engine : Engine Store) (url : string) (limit : Z) :
  exists r engine',
    watch_video w engine url limit = (Ok r, engine')
    /\ comprehension_score r == _calculate_comprehension_score r
    /\ 0 <= comprehension_score r <= 1.
Proof.
  destruct (watch_video_observations w engine url limit) as (r & e' & E & Hs & _).
  exists r, e'. split; [exact E|]. split; [exact Hs|].
  rewrite Hs. apply score_bounds.
Qed.

(** X6.  When the video cannot be prepared, [watch_video] returns the
    initial dictionary with the error "Could not prepare video for
    analysis" and leaves the engine as it was: no skill moves and
    nothing is learned. *)
Theorem unprepared_video_changes_nothing
    (engine : Engine Store) (url : string) (limit : Z) :
  resolve_video w url = None ->
  watch_video w engine url limit
  = (Ok (set_error "Could not prepare video for analysis" (new_watch_result url)),
     engine).
Proof.
  intro R. destruct (watch_video_trace w engine url limit) as (r & e' & E & H).
  rewrite R in H. destruct H as [-> ->]. exact E.
Qed.

End WatchObservations.

Lemma unprepared_video_changes_nothing_witness :
  watch_video (Scenario.world (fun _ => None) (fun _ => None) (fun _ => Ok tt))
    (new_engine tt) "missing.mp4" 300
  = (Ok (set_error "Could not prepare video for analysis"
           (new_watch_result "missing.mp4")),
     new_engine tt).
Proof.
  apply (unprepared_video_changes_nothing
           (Scenario.world (fun _ => None) (fun _ => None) (fun _ => Ok tt))).
  reflexivity.
Defined.

Lemma score_le_categories (r : WatchResult) :
  _calculate_comprehension_score r <= 0.2 * inject_Z (nonempty_categories r).
Proof.
  assert (Hterm : forall (c : bool) (x : Q), (c = true -> 0 <= x) ->
            (if c then Qmin x 1.0 * 0.2 else 0)
            <= 0.2 * inject_Z (if c then 1 else 0)).
  { intros c x Hx. pose proof (contribution_bounds c x Hx) as B.
    destruct c; [change (inject_Z 1) with 1 | change (inject_Z 0) with 0]; lra. }
  assert (Hlen : forall (A : Type) (xs : list A) (cap : Q),
             0 < cap -> truthy xs = true -> 0 <= inject_Z (len xs) / cap).
  { intros. apply count_ratio_nonneg; [apply len_nonneg | assumption]. }
  rewrite score_unfold. unfold nonempty_categories.
  rewrite !inject_Z_plus.
  pose proof (Hterm (0 <? frames_analyzed r)%Z
                (inject_Z (frames_analyzed r) / 100)
                ltac:(intro E; apply Z.ltb_lt in E;
                      apply count_ratio_nonneg; [lia | lra])) as T1.
  pose proof (Hterm _ _ (Hlen _ (scenes_detected r) 5 ltac:(lra))) as T2.
  pose proof (Hterm _ _ (Hlen _ (objects_seen r) 10 ltac:(lra))) as T3.
  pose proof (Hterm _ _ (Hlen _ (text_found r) 5 ltac:(lra))) as T4.
  pose proof (Hterm _ _ (Hlen _ (motion_events r) 20 ltac:(lra))) as T5.
  lra.
Qed.

Lemma categories_above (r : WatchResult) (n : Z) :
  0.2 * inject_Z n < _calculate_comprehension_score r ->
  (n < nonempty_categories r)%Z.
Proof.
  intro H. pose proof (score_le_categories r) as Hle.
  destruct (Z_lt_le_dec n (nonempty_categories r)) as [|Hge]; [assumption|].
  exfalso. rewrite Zle_Qle in Hge. lra.
Qed.

(** X7.  Each non-empty observation category is worth at most 0.2 of the
    comprehension score; a score above 0.5 needs at least three of the
    five categories. *)
Theorem score_needs_categories (r : WatchResult) :
  _calculate_comprehension_score r <= 0.2 * inject_Z (nonempty_categories r)
  /\ (0.5 < _calculate_comprehension_score r -> (3 <= nonempty_categories r)%Z).
Proof.
  split; [apply score_le_categories|]. intro H.
  assert ((2 < nonempty_categories r)%Z); [|lia].
  apply categories_above. change (inject_Z 2) with 2. lra.
Qed.

Lemma ceil_div_0 (k : Z) : (0 < k)%Z -> ceil_div 0 k = 0%Z.
Proof. intro Hk. unfold ceil_div. apply Z.div_small. lia. Qed.

Lemma ceil_div_step (c k : Z) :
  (0 < k)%Z -> (0 <= c)%Z ->
  ceil_div (c + 1) k
  = (if (c mod k =? 0)%Z then ceil_div c k + 1 else ceil_div c k)%Z.
Proof.
  intros Hk Hc. unfold ceil_div.
  pose proof (Z.div_mod c k ltac:(lia)) as Hdm.
  pose proof (Z.mod_pos_bound c k Hk) as Hb.
  destruct (c mod k =? 0)%Z eqn:E.
  - apply Z.eqb_eq in E.
    rewrite <- (Z.div_unique (c + 1 + k - 1) k (c / k + 1) 0) by lia.
    rewrite <- (Z.div_unique (c + k - 1) k (c / k) (k - 1)) by lia. reflexivity.
  - apply Z.eqb_neq in E.
    rewrite <- (Z.div_unique (c + 1 + k - 1) k (c / k + 1) (c mod k)) by lia.
    rewrite <- (Z.div_unique (c + k - 1) k (c / k + 1) (c mod k - 1)) by lia.
    reflexivity.
Qed.

Lemma ceil_div_bounds (n k : Z) :
  (0 < k)%Z -> (0 <= n)%Z ->
  (0 <= ceil_div n k <= n)%Z /\ ((0 < n)%Z -> (1 <= ceil_div n k)%Z)
  /\ (k * (ceil_div n k - 1) < n <= k * ceil_div n k)%Z \/ n = 0%Z.
Proof.
  intros Hk Hn. unfold ceil_div.
  destruct (Z.eq_dec n 0) as [->|Hn0]; [right; reflexivity | left].
  pose proof (Z.div_mod (n + k - 1) k ltac:(lia)) as Hdm.
  pose proof (Z.mod_pos_bound (n + k - 1) k Hk) as Hb.
  assert (1 <= (n + k - 1) / k)%Z by nia.
  repeat split; try nia.
Qed.

Section Sampling2.
Context {Store : Type} (w : World Store).

(** X8.  For a capture that opens, the analysis terminates without an
    exception and analyses one frame per stride: with [available] the
    number of frames read before the loop stops (the frames the file
    delivers, capped by the reported frame count and by
    [duration_limit * fps]), 'frames_analyzed' is [available] divided by
    the stride, rounded up. *)
Theorem frames_analyzed_is_the_number_of_strides
    (path : string) (limit : Z) (cap : Capture) (s : St Store) :
  open_capture w path = Some cap ->
  let fps := cap_fps cap in
  let frame_skip := Z.max 1 (fps / 2) in
  let available :=
    Z.max 0 (Z.min (len (cap_frames cap))
               (Z.min (cap_frame_count cap) (limit * fps))) in
  exists s',
    _analyze_video_content w path limit s = (Ok tt, s')
    /\ frames_analyzed (watch_result s') = ceil_div available frame_skip
    /\ (frames_analyzed (watch_result s') <= available)%Z
    /\ ((0 < available)%Z -> (1 <= frames_analyzed (watch_result s'))%Z).
Proof.
  intros Hopen fps frame_skip available.
  assert (Hskip : (0 < frame_skip)%Z) by (unfold frame_skip; lia).
  destruct (analyze_video_content_rule w path limit cap
              (fun c a _ _ => (0 <= c)%Z /\ a = ceil_div c frame_skip) s Hopen)
    as (n & prev' & s1 & duration & [_ HI] & _ & E).
  - fold fps. fold frame_skip. intros frame c a prev s2 Hc [_ ->].
    rewrite (ceil_div_step c frame_skip Hskip ltac:(lia)). split.
    + intros Hm _ _ _. apply Z.eqb_eq in Hm. rewrite Hm. split; [lia | reflexivity].
    + intros Hm. apply Z.eqb_neq in Hm. rewrite Hm. split; [lia | reflexivity].
  - split; [lia|]. rewrite ceil_div_0 by exact Hskip. reflexivity.
  - eexists. split; [exact E|].
    assert (Hexit : loop_exit 0 (cap_frames cap)
                      (Z.min (cap_frame_count cap) (limit * cap_fps cap))
                    = available).
    { unfold loop_exit, available, fps. pose proof (len_nonneg (cap_frames cap)). lia. }
    rewrite Hexit in HI.
    assert (Hn : frames_analyzed
                   (watch_result
                      (on_result (fun r => set_video_duration duration
                                             (set_frames_analyzed n r)) s1)) = n)
      by (destruct s1; reflexivity).
    rewrite Hn, HI.
    assert (Ha : (0 <= available)%Z) by (unfold available; lia).
    destruct (ceil_div_bounds available frame_skip Hskip Ha) as [(B1 & B2 & _) | H0].
    + split; [reflexivity|]. split; [lia | exact B2].
    + rewrite H0, (ceil_div_0 frame_skip Hskip).
      split; [reflexivity|]. split; lia.
Qed.

End Sampling2.

Lemma sorted_snoc (ts : list Q) (t : Q) :
  StronglySorted Qlt ts -> Forall (fun x => x < t) ts ->
  StronglySorted Qlt (ts ++ [t]).
Proof.
  induction ts as [|x xs IH]; intros Hs Hall; cbn.
  - constructor; constructor.
  - inversion Hs as [|? ? Hxs Hx]; subst. inversion Hall as [|? ? Hxt Hxst]; subst.
    constructor; [apply IH; assumption|].
    apply Forall_app. split; [assumption | constructor; [assumption | constructor]].
Qed.

Lemma timestamp_order (c c' fps : Z) :
  (0 < fps)%Z -> (c < c')%Z -> inject_Z c / inject_Z fps < inject_Z c' / inject_Z fps.
Proof.
  intros Hf Hc.
  assert (0 < inject_Z fps) by (change 0 with (inject_Z 0); rewrite <- Zlt_Qlt; lia).
  assert (inject_Z c < inject_Z c') by (rewrite <- Zlt_Qlt; lia).
  apply Qlt_shift_div_l; [assumption|].
  unfold Qdiv. rewrite <- Qmult_assoc, (Qmult_comm (/ inject_Z fps)), Qmult_inv_r by lra.
  lra.
Qed.

Lemma timestamp_le (c c' fps : Z) :
  (0 < fps)%Z -> (c <= c')%Z -> inject_Z c / inject_Z fps <= inject_Z c' / inject_Z fps.
Proof.
  intros Hf Hc. destruct (Z.eq_dec c c') as [->|Hne]; [lra|].
  apply Qlt_le_weak. apply timestamp_order; lia.
Qed.

Section Scenes.
Context {Store : Type} (w : World Store).

(** X9.  For a capture with a positive frame rate, the timestamps of the
    scenes the analysis records increase strictly, and each lies in
    [0, frame_count / fps). *)
Theorem scene_timestamps_strictly_increase
    (path : string) (limit : Z) (cap : Capture) (s : St Store) :
  open_capture w path = Some cap ->
  (0 < cap_fps cap)%Z ->
  scenes_detected (watch_result s) = [] ->
  exists s',
    _analyze_video_content w path limit s = (Ok tt, s')
    /\ StronglySorted Qlt (map scene_timestamp (scenes_detected (watch_result s')))
    /\ Forall (fun t => 0 <= t
                        /\ t < inject_Z (cap_frame_count cap) / inject_Z (cap_fps cap))
         (map scene_timestamp (scenes_detected (watch_result s'))).
Proof.
  intros Hopen Hfps Hempty.
  set (fps := cap_fps cap) in *.
  destruct (analyze_video_content_rule w path limit cap
              (fun c _ _ s =>
                 let ts := map scene_timestamp (scenes_detected (watch_result s)) in
                 StronglySorted Qlt ts
                 /\ Forall (fun t => 0 <= t /\ t < inject_Z c / inject_Z fps) ts)
              s Hopen)
    as (n & prev' & s1 & duration & [Hsorted Hall] & _ & E).
  - fold fps. intros frame c a prev s2 Hc [Hs Ha]. cbv zeta in *.
    assert (Hweaken :
      Forall (fun t => 0 <= t /\ t < inject_Z (c + 1) / inject_Z fps)
        (map scene_timestamp (scenes_detected (watch_result s2)))).
    { eapply Forall_impl; [|exact Ha]. intros t [H0 Ht]. split; [exact H0|].
      pose proof (timestamp_order c (c + 1) fps Hfps ltac:(lia)). lra. }
    split.
    + intros _ fa s3 E3.
      pose proof (analyze_single_frame_keeps_result w frame
                    (inject_Z c / inject_Z fps) prev s2) as K.
      rewrite E3 in K. unfold result_of in K. cbn [snd] in K.
      destruct (collected_fields fa c fps (watch_result s3)) as (_ & _ & _ & Cs).
      assert (Hwr : watch_result (on_result (collected fa c fps) s3)
                    = collected fa c fps (watch_result s3))
        by (destruct s3; reflexivity).
      rewrite Hwr, Cs, K. destruct (scene_change fa).
      * rewrite map_app. cbn [map scene_timestamp]. split.
        -- apply sorted_snoc; [exact Hs|].
           eapply Forall_impl; [|exact Ha]. intros t [_ Ht]. exact Ht.
        -- apply Forall_app. split; [exact Hweaken|].
           constructor; [|constructor]. split.
           ++ pose proof (timestamp_le 0 c fps Hfps ltac:(lia)) as H0.
              assert (Hz : inject_Z 0 / inject_Z fps == 0) by (unfold Qdiv; ring).
              lra.
           ++ apply timestamp_order; lia.
      * rewrite app_nil_r. split; assumption.
    + intros _. split; assumption.
  - cbv zeta. rewrite Hempty. split; constructor.
  - eexists. split; [exact E|]. cbv zeta in Hsorted, Hall.
    assert (Hwr : scenes_detected
                    (watch_result
                       (on_result (fun r => set_video_duration duration
                                              (set_frames_analyzed n r)) s1))
                  = scenes_detected (watch_result s1))
      by (destruct s1; reflexivity).
    rewrite Hwr. split; [exact Hsorted|].
    eapply Forall_impl; [|exact Hall]. intros t [H0 Ht]. split; [exact H0|].
    fold fps.
    set (exit := loop_exit 0 (cap_frames cap)
                   (Z.min (cap_frame_count cap) (limit * cap_fps cap))) in *.
    destruct (Z_le_gt_dec exit (cap_frame_count cap)) as [Hle|Hgt].
    + pose proof (timestamp_le exit (cap_frame_count cap) fps Hfps Hle). lra.
    + exfalso. assert (Hexit0 : exit = 0%Z).
      { unfold exit, loop_exit in *. pose proof (len_nonneg (cap_frames cap)). lia. }
      rewrite Hexit0 in Ht.
      assert (Hz : inject_Z 0 / inject_Z fps == 0) by (unfold Qdiv; ring). lra.
Qed.

End Scenes.

(* static scene *)
Lemma join_starts_with_first (sep x : string) (rest : list string) :
  exists tail, join sep (x :: rest) = x ++ tail.
Proof.
  destruct rest as [|y ys]; cbn [join].
  - exists EmptyString. clear. induction x; cbn; congruence.
  - eexists. reflexivity.
Qed.

(** X10.  The description of a frame always starts with its brightness
    class (bright above 0.7, dark below 0.3, moderately lit between), so
    the fallback "static scene" is never returned. *)
Theorem frame_description_starts_with_brightness (a : FrameAnalysis) :
  _describe_frame_scene a <> "static scene"
  /\ exists tail,
       (0.7 < brightness a -> _describe_frame_scene a = "bright scene" ++ tail)
       /\ (brightness a <= 0.7 -> brightness a < 0.3 ->
           _describe_frame_scene a = "dark scene" ++ tail)
       /\ (0.3 <= brightness a <= 0.7 ->
           _describe_frame_scene a = "moderately lit scene" ++ tail).
Proof.
  unfold _describe_frame_scene. cbv zeta.
  match goal with
  | |- context [((if Qgtb ?b 0.7 then ?p1 else ?p2) ++ ?rest)%list] =>
      set (others := rest)
  end.
  destruct (Qgtb (brightness a) 0.7) eqn:E1;
    [| destruct (Qltb (brightness a) 0.3) eqn:E2];
    cbn [app truthy]; q_reflect;
    match goal with
    | |- context [join ", " (?x :: others)] =>
        destruct (join_starts_with_first ", " x others) as [tail ->]
    end;
    (split; [cbn; discriminate|]); exists tail;
    repeat split; intros; try reflexivity; exfalso; lra.
Qed.

Module KnowledgeProofs.
Import Knowledge KnowledgeFacts.

Lemma get_set_same {V : Type} (k : string) (v : V) (d : Dict V) :
  get k (set k v d) = Some v.
Proof.
  induction d as [|[k' v'] rest IH]; cbn.
  - rewrite String.eqb_refl. reflexivity.
  - destruct (String.eqb k k') eqn:E; cbn.
    + rewrite String.eqb_refl. reflexivity.
    + rewrite E. exact IH.
Qed.

Lemma get_set_other {V : Type} (k k' : string) (v : V) (d : Dict V) :
  k' <> k -> get k' (set k v d) = get k' d.
Proof.
  intro Hne. induction d as [|[k0 v0] rest IH]; cbn.
  - apply String.eqb_neq in Hne. rewrite Hne. reflexivity.
  - destruct (String.eqb k k0) eqn:E; cbn.
    + apply String.eqb_eq in E. subst k0.
      apply String.eqb_neq in Hne. rewrite Hne. reflexivity.
    + destruct (String.eqb k' k0); [reflexivity | exact IH].
Qed.

Lemma contains_in (x : string) (xs : list string) :
  contains x xs = true <-> In x xs.
Proof.
  unfold contains. rewrite existsb_exists. split.
  - intros (y & Hin & E). apply String.eqb_eq in E. subst. exact Hin.
  - intro Hin. exists x. split; [exact Hin | apply String.eqb_refl].
Qed.

(** What one round does to the entry of the object's type. *)
Lemma track_object_same (video_id : string) (d : Dict ObjectMemory)
    (obj : DetectedObject) :
  exists obj_data,
    get (obj_type obj) (track_object video_id d obj) = Some obj_data
    /\ total_sightings obj_data = (sightings_of (obj_type obj) d + 1)%Z
    /\ In video_id (videos_seen_in obj_data)
    /\ match get (obj_type obj) d with
       | Some old =>
           videos_seen_in obj_data
           = (if contains video_id (videos_seen_in old)
              then videos_seen_in old
              else videos_seen_in old ++ [video_id])%list
       | None => videos_seen_in obj_data = [video_id]
       end.
Proof.
  unfold track_object, sightings_of.
  destruct (get (obj_type obj) d) as [old|] eqn:E.
  - rewrite E. eexists. split; [apply get_set_same|]. cbn.
    split; [reflexivity|]. split; [|reflexivity].
    destruct (contains video_id (videos_seen_in old)) eqn:C.
    + apply contains_in. exact C.
    + apply in_or_app. right. left. reflexivity.
  - rewrite get_set_same. eexists. split; [apply get_set_same|]. cbn.
    split; [reflexivity|]. split; [left|]; reflexivity.
Qed.

Lemma track_object_other (video_id : string) (d : Dict ObjectMemory)
    (obj : DetectedObject) (t : string) :
  t <> obj_type obj ->
  get t (track_object video_id d obj) = get t d.
Proof.
  intro Hne. unfold track_object.
  destruct (get (obj_type obj) d) as [old|] eqn:E.
  - rewrite E. apply get_set_other. exact Hne.
  - rewrite get_set_same. rewrite !get_set_other by exact Hne. reflexivity.
Qed.

Lemma occurrences_cons (t : string) (o : DetectedObject) (os : list DetectedObject) :
  occurrences t (o :: os)
  = ((if String.eqb t (obj_type o) then 1 else 0) + occurrences t os)%Z.
Proof.
  unfold occurrences, len. cbn [filter].
  destruct (String.eqb t (obj_type o)); cbn [List.length]; lia.
Qed.

(** X11.  The object loop of [_learn_from_video_watching] adds to the
    'total_sightings' of each type the number of objects of that type
    in the video, and to no other. *)
Theorem sightings_count_every_object
    (video_id : string) (objects : list DetectedObject) (d : Dict ObjectMemory)
    (t : string) :
  sightings_of t (track_objects video_id objects d)
  = (sightings_of t d + occurrences t objects)%Z.
Proof.
  unfold track_objects. revert d.
  induction objects as [|o os IH]; intro d; cbn [fold_left].
  - unfold occurrences, len. cbn. lia.
  - rewrite IH, occurrences_cons.
    destruct (String.eqb t (obj_type o)) eqn:E.
    + apply String.eqb_eq in E. subst t.
      destruct (track_object_same video_id d o) as (data & G & S & _).
      unfold sightings_of at 1. rewrite G, S. lia.
    + apply String.eqb_neq in E.
      unfold sightings_of at 1. rewrite (track_object_other video_id d o t E).
      fold (sightings_of t d). lia.
Qed.

Lemma track_object_well (video_id : string) (d : Dict ObjectMemory)
    (obj : DetectedObject) :
  well_tracked d -> well_tracked (track_object video_id d obj).
Proof.
  intros Hw t data G.
  destruct (string_dec t (obj_type obj)) as [->|Hne].
  - destruct (track_object_same video_id d obj) as (data' & G' & S & _ & V).
    rewrite G in G'. injection G' as <-.
    unfold sightings_of in S.
    destruct (get (obj_type obj) d) as [old|] eqn:E.
    + destruct (Hw _ _ E) as [Hnd Hlen]. rewrite V, S.
      destruct (contains video_id (videos_seen_in old)) eqn:C.
      * split; [exact Hnd | lia].
      * split.
        -- apply NoDup_app; [exact Hnd | constructor; [intros [] | constructor] |].
           intros x Hx [<- | []]. apply contains_in in Hx. congruence.
        -- unfold len in *. rewrite length_app. cbn [List.length]. lia.
    + rewrite V, S. split.
      * constructor; [intros [] | constructor].
      * unfold len. cbn. lia.
  - rewrite (track_object_other video_id d obj t Hne) in G. exact (Hw _ _ G).
Qed.

Lemma seen_video_stays (video_id t : string) (objects : list DetectedObject) :
  forall (d : Dict ObjectMemory) obj_data,
    get t d = Some obj_data -> In video_id (videos_seen_in obj_data) ->
    exists obj_data',
      get t (fold_left (track_object video_id) objects d) = Some obj_data'
      /\ In video_id (videos_seen_in obj_data').
Proof.
  induction objects as [|o os IH]; intros d data G I; cbn [fold_left].
  - eauto.
  - destruct (string_dec t (obj_type o)) as [->|Hne].
    + destruct (track_object_same video_id d o) as (data2 & G2 & _ & I2 & _).
      exact (IH _ _ G2 I2).
    + rewrite <- (track_object_other video_id d o t Hne) in G.
      exact (IH _ _ G I).
Qed.

(** X12.  The object loop keeps 'videos_seen_in' free of duplicates and
    no longer than 'total_sightings'; after it, the video is listed for
    the type of every object it showed. *)
Theorem tracked_videos_are_deduplicated
    (video_id : string) (objects : list DetectedObject) (d : Dict ObjectMemory) :
  well_tracked d ->
  well_tracked (track_objects video_id objects d)
  /\ forall o, In o objects ->
       exists obj_data,
         get (obj_type o) (track_objects video_id objects d) = Some obj_data
         /\ In video_id (videos_seen_in obj_data).
Proof.
  unfold track_objects. revert d.
  induction objects as [|o os IH]; intros d Hw; cbn [fold_left].
  - split; [exact Hw | intros o []].
  - destruct (IH _ (track_object_well video_id d o Hw)) as [Hw' Hin].
    split; [exact Hw'|]. intros o' [<- | Ho']; [|apply Hin; exact Ho'].
    destruct (track_object_same video_id d o) as (data & G & _ & I & _).
    exact (seen_video_stays video_id (obj_type o) os _ _ G I).
Qed.

Lemma tracked_videos_are_deduplicated_witness :
  let objects :=
    [face_object 0 {| rect_x := 1; rect_y := 1; rect_w := 9; rect_h := 9 |}] in
  well_tracked (track_objects "video_1" objects [])
  /\ forall o, In o objects ->
       exists obj_data,
         get (obj_type o) (track_objects "video_1" objects []) = Some obj_data
         /\ In "video_1" (videos_seen_in obj_data).
Proof.
  apply (tracked_videos_are_deduplicated "video_1"
           [face_object 0 {| rect_x := 1; rect_y := 1; rect_w := 9; rect_h := 9 |}]
           []).
  intros t data G. discriminate G.
Defined.

End KnowledgeProofs.

Module ReportProofs.
Import Knowledge.

Section Sorting.
Context {A : Type} (key : A -> Z).

Let ge (a b : A) : Prop := (key b <= key a)%Z.

Lemma insert_desc_perm (x : A) (l : list A) :
  Permutation (x :: l) (insert_desc key x l).
Proof.
  induction l as [|y rest IH]; cbn [insert_desc].
  - apply Permutation_refl.
  - destruct (key x <? key y)%Z.
    + eapply perm_trans; [apply perm_swap|]. apply perm_skip. exact IH.
    + apply Permutation_refl.
Qed.

Lemma sorted_desc_perm (l : list A) : Permutation l (sorted_desc key l).
Proof.
  induction l as [|x rest IH]; cbn.
  - apply perm_nil.
  - eapply perm_trans; [apply perm_skip; exact IH | apply insert_desc_perm].
Qed.

Lemma insert_desc_sorted (x : A) (l : list A) :
  StronglySorted ge l -> StronglySorted ge (insert_desc key x l).
Proof.
  induction l as [|y rest IH]; intro Hs; cbn [insert_desc].
  - constructor; constructor.
  - inversion Hs as [|? ? Hrest Hy]; subst.
    destruct (key x <? key y)%Z eqn:E.
    + apply Z.ltb_lt in E. constructor; [apply IH; exact Hrest|].
      eapply Permutation_Forall; [apply insert_desc_perm|].
      constructor; [unfold ge; lia | exact Hy].
    + apply Z.ltb_ge in E. constructor; [exact Hs|].
      constructor; [exact E|].
      eapply Forall_impl; [|exact Hy]. intros z Hz. unfold ge in *. lia.
Qed.

Lemma sorted_desc_sorted (l : list A) : StronglySorted ge (sorted_desc key l).
Proof.
  induction l as [|x rest IH]; cbn.
  - constructor.
  - apply insert_desc_sorted. exact IH.
Qed.

Lemma sorted_app_cross (l1 l2 : list A) :
  StronglySorted ge (l1 ++ l2) ->
  StronglySorted ge l1 /\ forall a b, In a l1 -> In b l2 -> ge a b.
Proof.
  induction l1 as [|x rest IH]; cbn; intro Hs.
  - split; [constructor | intros a b []].
  - inversion Hs as [|? ? Hrest Hx]; subst. destruct (IH Hrest) as [IH1 IH2].
    apply Forall_app in Hx. destruct Hx as [Hx1 Hx2].
    split; [constructor; assumption|].
    intros a b [<- | Ha] Hb; [|apply IH2; assumption].
    rewrite Forall_forall in Hx2. apply Hx2. exact Hb.
Qed.

End Sorting.

(** X13.  [_get_most_detected_objects] returns min(5, number of tracked
    types) entries, in descending order of sightings, and no tracked
    type it leaves out has more sightings than one it returns. *)
Theorem most_detected_objects_are_the_top_five (objects_tracked : Dict ObjectMemory) :
  let top := _get_most_detected_objects objects_tracked in
  len top = Z.min 5 (len objects_tracked)
  /\ StronglySorted (fun a b => (sightings b <= sightings a)%Z) top
  /\ exists others,
       Permutation (top ++ others)
         (map (fun entry =>
                 {| count_type := fst entry;
                    sightings := total_sightings (snd entry);
                    videos := len (videos_seen_in (snd entry)) |})
              objects_tracked)
       /\ forall a b, In a top -> In b others -> (sightings b <= sightings a)%Z.
Proof.
  unfold _get_most_detected_objects. cbv zeta.
  set (objects := map _ objects_tracked).
  set (sorted := sorted_desc sightings objects).
  pose proof (sorted_desc_perm sightings objects) as Hperm. fold sorted in Hperm.
  pose proof (sorted_desc_sorted sightings objects) as Hsorted. fold sorted in Hsorted.
  rewrite <- (firstn_skipn 5 sorted) in Hsorted.
  destruct (sorted_app_cross sightings _ _ Hsorted) as [Htop Hcross].
  split; [|split; [exact Htop|]].
  - unfold len. rewrite length_firstn.
    rewrite <- (Permutation_length Hperm). unfold objects. rewrite length_map. lia.
  - exists (skipn 5 sorted). split; [|exact Hcross].
    rewrite firstn_skipn. apply Permutation_sym. exact Hperm.
Qed.

Lemma sum_bounds (lo hi : Q) (xs : list Q) :
  Forall (fun x => lo <= x <= hi) xs ->
  lo * inject_Z (len xs) <= fold_right Qplus 0 xs <= hi * inject_Z (len xs).
Proof.
  induction xs as [|x rest IH]; intro H.
  - change (len (@nil Q)) with 0%Z. change (inject_Z 0) with 0. cbn [fold_right]. lra.
  - inversion H as [|? ? Hx Hrest]; subst. specialize (IH Hrest).
    assert (E : inject_Z (len (x :: rest)) == inject_Z (len rest) + 1).
    { unfold len. cbn [List.length]. rewrite Nat2Z.inj_succ, <- Z.add_1_r.
      rewrite inject_Z_plus. reflexivity. }
    cbn [fold_right]. rewrite E. lra.
Qed.

Lemma len_pos_Q {A : Type} (xs : list A) : xs <> [] -> 0 < inject_Z (len xs).
Proof.
  intro H. destruct xs; [congruence|]. unfold len. cbn [List.length].
  change 0 with (inject_Z 0). rewrite <- Zlt_Qlt. lia.
Qed.

(** X14.  [_get_average_comprehension] is 0 when no video was watched
    and otherwise lies within any bounds that hold all watched scores;
    it never divides by zero. *)
Theorem average_comprehension_stays_in_range (lo hi : Q) (scores : list Q) :
  lo <= 0 <= hi ->
  Forall (fun c => lo <= c <= hi) scores ->
  lo <= _get_average_comprehension scores <= hi
  /\ (scores = [] -> _get_average_comprehension scores == 0).
Proof.
  intros Hz Hall. unfold _get_average_comprehension.
  destruct scores as [|c rest] eqn:E; cbn [truthy].
  - split; [lra | intros _; reflexivity].
  - split; [|discriminate]. rewrite <- E in *.
    assert (Hne : scores <> []) by (rewrite E; discriminate).
    pose proof (sum_bounds lo hi scores Hall) as [H1 H2].
    pose proof (len_pos_Q scores Hne) as Hpos.
    split.
    + apply Qle_shift_div_l; [exact Hpos | lra].
    + apply Qle_shift_div_r; [exact Hpos | lra].
Qed.

Lemma average_comprehension_stays_in_range_witness :
  0 <= _get_average_comprehension [0.2; 0.04] <= 1
  /\ ([0.2; 0.04] = [] -> _get_average_comprehension [0.2; 0.04] == 0).
Proof.
  apply (average_comprehension_stays_in_range 0 1 [0.2; 0.04]).
  - lra.
  - repeat constructor; cbn; lra.
Defined.

Lemma overall_bounds (s : Skills) :
  gauges_in_unit s -> 0 <= overall_video_vision s <= 1.
Proof.
  unfold gauges_in_unit, overall_video_vision.
  intros (H1 & H2 & H3 & H4 & H5 & H6 & H7 & H8).
  split; [apply Qle_shift_div_l | apply Qle_shift_div_r]; lra.
Qed.

Lemma overall_moves_up (d : Q) (s s' : Skills) :
  gauges_moved_up_by d s s' ->
  overall_video_vision s <= overall_video_vision s' <= overall_video_vision s + d.
Proof.
  unfold gauges_moved_up_by, overall_video_vision.
  intros (H1 & H2 & H3 & H4 & H5 & H6 & H7 & H8).
  assert (forall x y, x <= y -> x / 8 <= y / 8) as Hdiv.
  { intros x y Hxy. unfold Qdiv. apply Qmult_le_compat_r; [exact Hxy | vm_compute; discriminate]. }
  split.
  - apply Hdiv. lra.
  - set (a := frame_analysis s + motion_detection s + scene_understanding s
              + text_recognition s + object_tracking s + audio_processing s
              + content_comprehension s + real_time_learning s).
    assert (E : a / 8 + d == (a + 8 * d) / 8) by field.
    rewrite E. apply Hdiv. unfold a. lra.
Qed.

End ReportProofs.

Section OverallSkill.
Context {Store : Type} (w : World Store).
Import Knowledge.

(** X15.  The 'overall_video_vision' figure of the status report stays in
    [0, 1] and never decreases over any sequence of watches. *)
Theorem overall_video_vision_stays_in_unit_interval
    (calls : list (string * Z)) (engine : Engine Store) :
  gauges_in_unit (video_vision_skills engine) ->
  let engine' := watch_videos w engine calls in
  0 <= overall_video_vision (video_vision_skills engine') <= 1
  /\ overall_video_vision (video_vision_skills engine)
     <= overall_video_vision (video_vision_skills engine').
Proof.
  intros Hunit engine'.
  destruct (watch_videos_gauges w calls engine Hunit) as [H1 H2].
  split; [apply ReportProofs.overall_bounds; exact H1|].
  apply (ReportProofs.overall_moves_up _ _ _ H2).
Qed.

(** X16.  No sequence of watches changes the 'audio_processing' skill. *)
Theorem audio_processing_is_never_updated
    (calls : list (string * Z)) (engine : Engine Store) :
  audio_processing (video_vision_skills (watch_videos w engine calls))
  = audio_processing (video_vision_skills engine).
Proof.
  revert engine. induction calls as [|[url limit] rest IH]; intro engine;
    cbn [watch_videos]; [reflexivity|].
  rewrite IH.
  destruct (watch_video_always_returns w engine url limit) as (r & e1 & E).
  rewrite E. cbn [snd].
  destruct (watch_video_skills w engine e1 url limit r E) as [K | K];
    rewrite K; reflexivity.
Qed.

(** X17.  The 'object_detection' insight needs more than two object
    types, and the engine only ever records faces: for a result of
    [watch_video] the insight is never generated, and at most three
    insights are. *)
Theorem engine_never_reports_object_variety
    (engine : Engine Store) (url : string) (limit : Z) :
  exists r engine',
    watch_video w engine url limit = (Ok r, engine')
    /\ Forall (fun i => insight_type i <> "object_detection")
         (_generate_learning_insights r)
    /\ (len (_generate_learning_insights r) <= 3)%Z.
Proof.
  destruct (watch_video_observations_ok w engine url limit)
    as (r & e' & E & (_ & _ & _ & _ & Ho & _)).
  exists r, e'. split; [exact E|].
  assert (Hu : (len (unique (map obj_type (objects_seen r))) <= 1)%Z).
  { unfold unique, len. clear E.
    induction (objects_seen r) as [|o os IH]; [cbn; lia|].
    inversion Ho as [|? ? [Ht _] Hos]; subst. specialize (IH Hos).
    cbn [map nodup]. rewrite Ht.
    destruct (in_dec string_dec "face" (map obj_type os)) as [Hin|Hnin];
      [exact IH|].
    destruct os as [|o' os']; [cbn; lia|].
    exfalso. apply Hnin. inversion Hos as [|? ? [Ht' _] _]; subst.
    left. exact Ht'. }
  unfold _generate_learning_insights. cbv zeta.
  assert (Hobj : (2 <? len (unique (map obj_type (objects_seen r))))%Z = false)
    by (apply Z.ltb_ge; lia).
  rewrite Hobj. split.
  - repeat (apply Forall_app; split);
      repeat match goal with
             | |- Forall _ (if ?c then _ else _) => destruct c
             end;
      repeat constructor; cbn; discriminate.
  - rewrite !len_app.
    destruct (Qgtb (comprehension_score r) 0.8), (3 <? len (scenes_detected r))%Z,
      (truthy (motion_events r)); unfold len; cbn; lia.
Qed.

End OverallSkill.

Module CallerProofs.
Import Callers CallerFacts.

Section Manager.
Context {Store : Type} (w : World Store).

Lemma watch_video_score_in_unit (engine engine' : Engine Store) url limit r :
  watch_video w engine url limit = (Ok r, engine') ->
  0 <= comprehension_score r <= 1.
Proof.
  intro E.
  destruct (watch_video_observations w engine url limit) as (r0 & e0 & E0 & Hs & _).
  rewrite E in E0. injection E0 as <- <-. rewrite Hs. apply score_bounds.
Qed.

(** One call keeps the running average exact. *)
Lemma execute_video_vision_step (ai : option (Engine Store)) (m : Metrics)
    (path : string) :
  (0 <= total_videos_processed m)%Z -> 0 <= average_comprehension m <= 1 ->
  let result := execute_video_vision w ai m path in
  let response := fst (fst result) in
  let m' := snd result in
  lists_no_object response
  /\ (0 <= total_videos_processed m')%Z
  /\ 0 <= average_comprehension m' <= 1
  /\ total_videos_processed m'
     = (total_videos_processed m
        + if vision_succeeded response then 1 else 0)%Z
  /\ average_comprehension m' * inject_Z (total_videos_processed m')
     == average_comprehension m * inject_Z (total_videos_processed m)
        + (if vision_succeeded response then vision_score response else 0).
Proof.
  intros Ht Ha. unfold execute_video_vision.
  destruct ai as [engine|]; cbn [fst snd];
    [| repeat split; try exact I; try lia; try lra; cbn; ring].
  destruct (watch_video w engine path 300) as [[r | e] engine'] eqn:E;
    cbn [fst snd];
    [| repeat split; try exact I; try lia; try lra; cbn; ring].
  destruct (success r);
    [| cbn [fst snd]; repeat split; try exact I; try lia; try lra; cbn; ring].
  pose proof (watch_video_score_in_unit engine engine' path 300 r E) as Hc.
  destruct (total_videos_processed m + 1 =? 0)%Z eqn:Ez;
    [apply Z.eqb_eq in Ez; lia|].
  cbn [fst snd total_videos_processed average_comprehension lists_no_object
       vision_succeeded vision_score].
  set (t := total_videos_processed m) in *.
  set (a := average_comprehension m) in *.
  set (c := comprehension_score r) in *.
  replace (t + 1 - 1)%Z with t by lia.
  assert (Htq : 0 <= inject_Z t) by (apply inject_Z_nonneg; exact Ht).
  assert (Et : inject_Z (t + 1) == inject_Z t + 1)
    by (rewrite inject_Z_plus; reflexivity).
  assert (Hpos : 0 < inject_Z (t + 1)) by (rewrite Et; lra).
  split; [reflexivity|]. split; [lia|]. split; [|split; [lia|]].
  - split.
    + apply Qle_shift_div_l; [exact Hpos|].
      assert (0 <= a * inject_Z t) by (apply Qmult_le_0_compat; lra). lra.
    + apply Qle_shift_div_r; [exact Hpos|]. rewrite Et.
      assert (a * inject_Z t <= 1 * inject_Z t)
        by (apply Qmult_le_compat_r; lra). lra.
  - field. lra.
Qed.

Lemma execute_video_visions_invariant (paths : list string) :
  forall (ai : option (Engine Store)) (m : Metrics),
    (0 <= total_videos_processed m)%Z -> 0 <= average_comprehension m <= 1 ->
    let result := execute_video_visions w ai m paths in
    let responses := fst (fst result) in
    let m' := snd result in
    Forall lists_no_object responses
    /\ (0 <= total_videos_processed m')%Z
    /\ 0 <= average_comprehension m' <= 1
    /\ total_videos_processed m'
       = (total_videos_processed m + successes responses)%Z
    /\ average_comprehension m' * inject_Z (total_videos_processed m')
       == average_comprehension m * inject_Z (total_videos_processed m)
          + total_score responses.
Proof.
  induction paths as [|path rest IH]; intros ai m Ht Ha; cbn [execute_video_visions].
  - cbn [fst snd]. unfold successes, total_score, len. cbn.
    repeat split; try constructor; try lia; try lra.
  - pose proof (execute_video_vision_step ai m path Ht Ha) as Hstep.
    destruct (execute_video_vision w ai m path) as [[response ai1] m1].
    cbn [fst snd] in Hstep. destruct Hstep as (N1 & T1 & A1 & C1 & S1).
    specialize (IH ai1 m1 T1 A1).
    destruct (execute_video_visions w ai1 m1 rest) as [[responses ai2] m2].
    cbn [fst snd] in IH |- *. destruct IH as (N2 & T2 & A2 & C2 & S2).
    split; [constructor; assumption|]. split; [exact T2|]. split; [exact A2|].
    unfold successes, total_score in *. cbn [filter].
    destruct (vision_succeeded response); cbn [map fold_right];
      unfold len in *; cbn [List.length]; split; try lia; rewrite S2, S1; ring.
Qed.

(** X18.  Starting from new metrics, after any sequence of
    [execute_video_vision] calls 'total_videos_processed' is the number
    of successful responses and 'average_comprehension' is the mean of
    their scores (it lies in [0, 1]); the division never fails, and no
    response ever lists a detected object. *)
Theorem running_average_is_the_mean_of_successes
    (ai : option (Engine Store)) (paths : list string) :
  let result := execute_video_visions w ai new_metrics paths in
  let responses := fst (fst result) in
  let metrics := snd result in
  total_videos_processed metrics = successes responses
  /\ average_comprehension metrics * inject_Z (successes responses)
     == total_score responses
  /\ 0 <= average_comprehension metrics <= 1
  /\ Forall lists_no_object responses.
Proof.
  cbv zeta.
  destruct (execute_video_visions_invariant paths ai new_metrics)
    as (N & T & A & C & S).
  - cbn. lia.
  - cbn. lra.
  - cbn [new_metrics total_videos_processed average_comprehension] in C, S.
    split; [lia|]. split; [|split; assumption].
    rewrite C in S. rewrite S.
    replace (0 + successes (fst (fst (execute_video_visions w ai new_metrics paths))))%Z
      with (successes (fst (fst (execute_video_visions w ai new_metrics paths))))
      by lia.
    change (inject_Z 0) with 0. ring.
Qed.

End Manager.

(** X19.  The remark [_watch_video_real] prints for a score within 0.001
    of the exact score of a result (the float the program holds differs
    from the exact score by rounding only): "Excellent" needs at least
    four non-empty observation categories, "Good" at least three and
    "Moderate" at least two.  Three saturated categories score
    0.6000000000000001 in floats, which is above 0.6. *)
Theorem remark_reflects_the_number_of_categories
    (r : WatchResult) (score : Q) :
  Qabs (score - _calculate_comprehension_score r) <= 0.001 ->
  let remark := comprehension_remark score in
  (remark = "Excellent understanding - I grasped the video content very well!" ->
   (4 <= nonempty_categories r)%Z)
  /\ (remark = "Good understanding - I understood most of the video content" ->
      (3 <= nonempty_categories r)%Z)
  /\ (remark = "Moderate understanding - I caught some key elements" ->
      (2 <= nonempty_categories r)%Z).
Proof.
  intros Hnear. cbv zeta. unfold comprehension_remark.
  apply Qabs_Qle_condition in Hnear. destruct Hnear as [Hlo Hhi].
  destruct (Qgtb score 0.8) eqn:E8;
    [| destruct (Qgtb score 0.6) eqn:E6; [| destruct (Qgtb score 0.4) eqn:E4]];
    q_reflect; (split; [|split]); intro H; try discriminate H.
  - assert ((3 < nonempty_categories r)%Z); [|lia].
    apply categories_above. change (inject_Z 3) with 3. lra.
  - assert ((2 < nonempty_categories r)%Z); [|lia].
    apply categories_above. change (inject_Z 2) with 2. lra.
  - assert ((1 < nonempty_categories r)%Z); [|lia].
    apply categories_above. change (inject_Z 1) with 1. lra.
Qed.

Lemma remark_reflects_the_number_of_categories_witness :
  let remark := comprehension_remark 0.6000000000000001 in
  (remark = "Excellent understanding - I grasped the video content very well!" ->
   (4 <= nonempty_categories busy)%Z)
  /\ (remark = "Good understanding - I understood most of the video content" ->
      (3 <= nonempty_categories busy)%Z)
  /\ (remark = "Moderate understanding - I caught some key elements" ->
      (2 <= nonempty_categories busy)%Z).
Proof.
  apply (remark_reflects_the_number_of_categories busy 0.6000000000000001).
  vm_compute. discriminate.
Defined.

(** X20.  For the same motion events, the remark of [_watch_video_real]
    and the summary of the engine agree on high motion; what the remark
    calls "Low motion - mostly static content" the summary calls
    moderate motion. *)
Theorem low_motion_remark_is_summarised_as_moderate
    (motion_events : list MotionInfo) :
  motion_events <> [] ->
  let avg_motion := mean (map motion_intensity motion_events) in
  (motion_remark motion_events
   = "High motion content - lots of movement and activity"
   <-> motion_part motion_events = [HighMotion avg_motion])
  /\ (motion_remark motion_events = "Low motion - mostly static content"
      -> avg_motion <= 0.05
         /\ motion_part motion_events = [ModerateMotion avg_motion]).
Proof.
  intros Hne avg_motion.
  assert (Ht : truthy motion_events = true)
    by (destruct motion_events; [congruence | reflexivity]).
  subst avg_motion. unfold motion_remark, motion_part, mean. rewrite Ht.
  cbv zeta.
  set (avg_motion := fold_right Qplus 0 (map motion_intensity motion_events)
                     / inject_Z (len (map motion_intensity motion_events))).
  replace (len motion_events) with (len (map motion_intensity motion_events))
    by (unfold len; rewrite length_map; reflexivity).
  fold avg_motion.
  destruct (Qgtb avg_motion 0.1) eqn:E1;
    [| destruct (Qgtb avg_motion 0.05) eqn:E5]; q_reflect;
    (split; [split|]); intro H; try reflexivity; try discriminate H.
  split; [lra | reflexivity].
Qed.

Lemma low_motion_remark_is_summarised_as_moderate_witness :
  let events := motion_events Scenario.slow_pan in
  let avg_motion := mean (map motion_intensity events) in
  (motion_remark events
   = "High motion content - lots of movement and activity"
   <-> motion_part events = [HighMotion avg_motion])
  /\ (motion_remark events = "Low motion - mostly static content"
      -> avg_motion <= 0.05
         /\ motion_part events = [ModerateMotion avg_motion]).
Proof.
  apply (low_motion_remark_is_summarised_as_moderate
           (motion_events Scenario.slow_pan)).
  discriminate.
Defined.

End CallerProofs.

Module InterfaceProofs.
Import Interface InterfaceFacts.

Section Files.
Context {Store : Type}.
Variable w : World Store.
Variable path_exists : string -> bool.
Variable splitext_lower : string -> string.
Variable now : string.

(** What one call of [watch_video_file] does. *)
Lemma watch_video_file_spec (self : VideoVisionInterface) (video_path : string)
    (duration_limit : Z) :
  let result := fst (Interface.watch_video_file w path_exists splitext_lower now self
       video_path duration_limit) in
  let self' := snd (Interface.watch_video_file w path_exists splitext_lower now self
       video_path duration_limit) in
  sound_result result
  /\ len (vision_history self')
     = (len (vision_history self) + if get_success result then 1 else 0)%Z
  /\ (forall error, result = ErrorOnly error ->
        self' = self
        /\ (ai self = None
            \/ path_exists video_path = false
            \/ existsb (String.eqb (splitext_lower video_path)) supported_formats
               = false)).
Proof.
  cbv zeta. unfold Interface.watch_video_file.
  destruct (ai self) as [engine|] eqn:Eai; cbn [fst snd];
    [| split; [intro H; discriminate H|]; split; [cbn; lia|];
       intros; split; [reflexivity | left; reflexivity]].
  destruct (path_exists video_path); cbn [negb fst snd];
    [| split; [intro H; discriminate H|]; split; [cbn; lia|];
       intros; split; [reflexivity | right; left; reflexivity]].
  destruct (existsb _ supported_formats); cbn [negb fst snd];
    [| split; [intro H; discriminate H|]; split; [cbn; lia|];
       intros; split; [reflexivity | right; right; reflexivity]].
  destruct (watch_video_observations_ok w engine video_path duration_limit)
    as (r & engine' & E & Hok).
  pose proof (CallerProofs.watch_video_score_in_unit w engine engine'
                video_path duration_limit r E) as Hscore.
  rewrite E. destruct (success r) eqn:Es; cbn [fst snd vision_history].
  - split; [intros _; cbn; split; [apply Hok | exact Hscore]|].
    split; [| intros error H; discriminate H].
    cbn [get_success]. rewrite Es, len_app. reflexivity.
  - split; [intro H; cbn in H; congruence|].
    split; [| intros error H; discriminate H].
    cbn [get_success]. rewrite Es. lia.
Qed.

Lemma successful_results_snoc (entries : list BatchEntry) (entry : BatchEntry) :
  successful_results (entries ++ [entry])
  = (successful_results entries
       ++ if get_success (batch_result entry) then [batch_result entry] else [])%list.
Proof.
  unfold successful_results. rewrite map_app, filter_app. cbn [map filter].
  destruct (get_success (batch_result entry)); reflexivity.
Qed.

(** The invariant of the loop of [analyze_video_batch]. *)
Lemma batch_loop_invariant (video_paths : list string) (duration_limit : Z) :
  forall (self : VideoVisionInterface) (successful failed : Z)
         (entries : list BatchEntry),
    successful = len (successful_results entries) ->
    (successful + failed)%Z = len entries ->
    Forall sound_result (map batch_result entries) ->
    let out := Interface.batch_loop w path_exists splitext_lower now self video_paths duration_limit successful failed entries in
    let successful' := fst (fst (fst out)) in
    let failed' := snd (fst (fst out)) in
    let entries' := snd (fst out) in
    let self' := snd out in
    successful' = len (successful_results entries')
    /\ (successful' + failed')%Z = len entries'
    /\ Forall sound_result (map batch_result entries')
    /\ len entries' = (len entries + len video_paths)%Z
    /\ len (vision_history self')
       = (len (vision_history self) + (successful' - successful))%Z.
Proof.
  induction video_paths as [|video_path rest IH];
    intros self successful failed entries Hs Hsum Hsound; cbn [Interface.batch_loop].
  - cbn [fst snd]. repeat split; try assumption; unfold len; cbn; lia.
  - pose proof (watch_video_file_spec self video_path duration_limit)
      as (Hres & Hhist & _).
    destruct (Interface.watch_video_file w path_exists splitext_lower now self
       video_path duration_limit) as [result self1].
    cbn [fst snd] in Hres, Hhist.
    set (entry := {| batch_video_path := video_path; batch_result := result |}).
    assert (Hsound' : Forall sound_result (map batch_result (entries ++ [entry]))).
    { rewrite map_app. apply Forall_app. split; [assumption|].
      constructor; [exact Hres | constructor]. }
    assert (Hlen : len (entries ++ [entry]) = (len entries + 1)%Z)
      by (rewrite len_app; reflexivity).
    assert (Hrest : len (video_path :: rest) = (1 + len rest)%Z)
      by (unfold len; cbn [List.length]; lia).
    pose proof (successful_results_snoc entries entry) as Hsnoc.
    cbn [batch_result entry] in Hsnoc.
    destruct (get_success result) eqn:Eg.
    + specialize (IH self1 (successful + 1)%Z failed (entries ++ [entry])%list).
      destruct IH as (I1 & I2 & I3 & I4 & I5);
        [rewrite Hsnoc, len_app; subst successful; reflexivity | lia | assumption |].
      repeat split; try assumption; lia.
    + specialize (IH self1 successful (failed + 1)%Z (entries ++ [entry])%list).
      destruct IH as (I1 & I2 & I3 & I4 & I5);
        [rewrite Hsnoc, app_nil_r; assumption | lia | assumption |].
      repeat split; try assumption; lia.
Qed.

Lemma sound_scores (rs : list FileResult) :
  Forall sound_result rs ->
  Forall (fun x => 0 <= x <= 1) (map get_comprehension_score (filter get_success rs))
  /\ (0 <= fold_right Z.add 0 (map get_frames_analyzed (filter get_success rs)))%Z.
Proof.
  induction 1 as [|r rest Hr Hrest [IH1 IH2]]; [split; [constructor | cbn; lia]|].
  cbn [filter]. destruct (get_success r) eqn:E; [| split; assumption].
  destruct (Hr E) as (Hf & Hc). cbn [map fold_right].
  split; [constructor; assumption | lia].
Qed.

(** What [analyze_video_batch] returns on a console that raises
    nothing. *)
Lemma analyze_video_batch_spec (self : VideoVisionInterface)
    (video_paths : list string) (duration_limit : Z) :
  exists (batch : BatchResults) (self' : VideoVisionInterface),
    Interface.analyze_video_batch w path_exists splitext_lower now self video_paths duration_limit = (Ok batch, self')
    /\ total_videos batch = len video_paths
    /\ len (results batch) = total_videos batch
    /\ (successful_analyses batch + failed_analyses batch)%Z = total_videos batch
    /\ successful_analyses batch = len (successful_results (results batch))
    /\ len (vision_history self')
       = (len (vision_history self) + successful_analyses batch)%Z
    /\ (summary batch = None <-> successful_analyses batch = 0%Z)
    /\ (forall s, summary batch = Some s ->
          (0 <= total_frames_analyzed s)%Z
          /\ 0 <= average_comprehension s <= 1
          /\ average_comprehension s * inject_Z (successful_analyses batch)
             == score_sum (results batch)
          /\ 0 < success_rate s <= 1).
Proof.
  unfold Interface.analyze_video_batch.
  pose proof (batch_loop_invariant video_paths duration_limit self 0 0 []
                eq_refl eq_refl (Forall_nil _)) as H.
  destruct (Interface.batch_loop w path_exists splitext_lower now self video_paths duration_limit 0 0 [])
    as [[[successful failed] entries] self'].
  cbn [fst snd] in H. destruct H as (I1 & I2 & I3 & I4 & I5).
  change (len (@nil BatchEntry)) with 0%Z in I4.
  assert (Hnn : (0 <= successful)%Z) by (rewrite I1; apply len_nonneg).
  assert (Hfn : (0 <= failed)%Z).
  { assert (len (successful_results entries) <= len entries)%Z; [|lia].
    unfold successful_results, len.
    pose proof (filter_length_le get_success (map batch_result entries)) as L.
    rewrite length_map in L. lia. }
  destruct (0 <? successful)%Z eqn:Epos.
  - apply Z.ltb_lt in Epos.
    destruct (successful =? 0)%Z eqn:Ez; [apply Z.eqb_eq in Ez; lia|].
    unfold truediv.
    destruct (len video_paths =? 0)%Z eqn:Et; [apply Z.eqb_eq in Et; lia|].
    apply Z.eqb_neq in Et.
    eexists _, _. split; [reflexivity|].
    cbn [total_videos results successful_analyses failed_analyses summary].
    split; [reflexivity|]. split; [lia|]. split; [lia|]. split; [exact I1|].
    split; [lia|]. split; [split; [discriminate | lia]|].
    intros s Hs. injection Hs as <-.
    cbn [total_frames_analyzed average_comprehension success_rate].
    destruct (sound_scores _ I3) as (Hsc & Hfr).
    pose proof (ReportProofs.sum_bounds 0 1 _ Hsc) as Hsum.
    fold (successful_results entries) in Hsum, Hfr.
    unfold len in Hsum. rewrite length_map in Hsum.
    fold (len (successful_results entries)) in Hsum. rewrite <- I1 in Hsum.
    fold (score_sum entries) in Hsum |- *.
    assert (Hsq : 0 < inject_Z successful)
      by (change 0 with (inject_Z 0); rewrite <- Zlt_Qlt; lia).
    assert (Htq : 0 < inject_Z (len video_paths))
      by (change 0 with (inject_Z 0); rewrite <- Zlt_Qlt; lia).
    assert (Hle : inject_Z successful <= inject_Z (len video_paths))
      by (rewrite <- Zle_Qle; lia).
    split; [exact Hfr|]. split; [|split].
    + split; [apply Qle_shift_div_l | apply Qle_shift_div_r]; lra.
    + field. lra.
    + split; [apply Qlt_shift_div_l | apply Qle_shift_div_r]; lra.
  - apply Z.ltb_ge in Epos.
    eexists _, _. split; [reflexivity|].
    cbn [total_videos results successful_analyses failed_analyses summary].
    split; [reflexivity|]. split; [lia|]. split; [lia|]. split; [exact I1|].
    split; [lia|]. split; [split; [lia | reflexivity]|].
    intros s Hs. discriminate Hs.
Qed.

(** X22.  A path that does not exist, or whose extension is not one of
    the seven supported formats, is answered with an error and leaves
    the interface and the engine untouched. *)
Theorem refused_file_never_reaches_the_engine (self : VideoVisionInterface)
    (video_path : string) (duration_limit : Z) :
  path_exists video_path = false
  \/ ~ In (splitext_lower video_path) supported_formats ->
  exists error,
    Interface.watch_video_file w path_exists splitext_lower now self
       video_path duration_limit = (ErrorOnly error, self).
Proof.
  intro H. unfold Interface.watch_video_file.
  destruct (ai self) as [engine|]; [| eexists; reflexivity].
  destruct (path_exists video_path) eqn:Ep; cbn [negb]; [| eexists; reflexivity].
  destruct H as [H | H]; [discriminate H|].
  destruct (existsb _ supported_formats) eqn:Ex; cbn [negb]; [| eexists; reflexivity].
  exfalso. apply H. apply existsb_exists in Ex.
  destruct Ex as (x & Hin & Heq). apply String.eqb_eq in Heq. subst x. exact Hin.
Qed.

(** X23.  [watch_video_file] appends one entry to the history exactly
    when the result reports success.  A result that holds an error only
    comes from one of the three checks before the engine is called (the
    [except] clause is never taken), and the interface is unchanged. *)
Theorem history_grows_exactly_on_success (self : VideoVisionInterface)
    (video_path : string) (duration_limit : Z) :
  let result := fst (Interface.watch_video_file w path_exists splitext_lower now self
       video_path duration_limit) in
  let self' := snd (Interface.watch_video_file w path_exists splitext_lower now self
       video_path duration_limit) in
  len (vision_history self')
  = (len (vision_history self) + if get_success result then 1 else 0)%Z
  /\ (forall error, result = ErrorOnly error ->
        self' = self
        /\ (ai self = None
            \/ path_exists video_path = false
            \/ ~ In (splitext_lower video_path) supported_formats)).
Proof.
  cbv zeta.
  destruct (watch_video_file_spec self video_path duration_limit) as (_ & H1 & H2).
  split; [exact H1|]. intros error E. destruct (H2 error E) as (Hs & Hc).
  split; [exact Hs|]. destruct Hc as [Hc | [Hc | Hc]]; [tauto | tauto |].
  right; right. intro Hin.
  assert (existsb (String.eqb (splitext_lower video_path)) supported_formats = true);
    [| congruence].
  apply existsb_exists. exists (splitext_lower video_path).
  split; [exact Hin | apply String.eqb_refl].
Qed.

End Files.

End InterfaceProofs.

Module PrepareProofs.
Import Prepare.

Section Located.
Variable path_exists : string -> bool.
Variable scheme : string -> string.
Variable _download_real_video : string -> option string.

Lemma find_first {A : Type} (f : A -> bool) (xs : list A) (x : A) :
  find f xs = Some x ->
  exists before after,
    xs = (before ++ x :: after)%list /\ f x = true
    /\ Forall (fun y => f y = false) before.
Proof.
  induction xs as [|y rest IH]; cbn [find]; [discriminate|].
  destruct (f y) eqn:E.
  - intro H. injection H as ->. exists [], rest. repeat split; [exact E | constructor].
  - intro H. destruct (IH H) as (before & after & -> & Hx & Hb).
    exists (y :: before), after. repeat split; [exact Hx | constructor; assumption].
Qed.

Lemma map_split {A B : Type} (f : A -> B) (xs : list A) (ys zs : list B) (y : B) :
  map f xs = (ys ++ y :: zs)%list ->
  exists before x after,
    xs = (before ++ x :: after)%list /\ map f before = ys /\ f x = y.
Proof.
  revert ys. induction xs as [|a rest IH]; intros ys H.
  - destruct ys; discriminate H.
  - destruct ys as [|b ys]; cbn in H; injection H as Ha Hrest.
    + exists [], a, rest. repeat split. exact Ha.
    + destruct (IH ys Hrest) as (before & x & after & -> & Hm & Hx).
      exists (a :: before), x, after. repeat split; [cbn; congruence | exact Hx].
Qed.

(** X24.  A path [_prepare_video_for_analysis] returns is the argument
    itself, which then exists; or the non-empty path of a download, for
    a web URL that is not an existing path; or the argument with the
    first of the seven extensions for which a file exists. *)
Theorem prepared_path_exists_unless_downloaded (video_url prepared : string) :
  _prepare_video_for_analysis path_exists scheme _download_real_video video_url
  = Some prepared ->
  (prepared = video_url /\ path_exists video_url = true)
  \/ (path_exists video_url = false /\ is_web (scheme video_url) = true
      /\ _download_real_video video_url = Some prepared
      /\ prepared <> EmptyString)
  \/ (path_exists video_url = false /\ is_web (scheme video_url) = false
      /\ path_exists prepared = true
      /\ exists earlier ext later,
           video_extensions = (earlier ++ ext :: later)%list
           /\ prepared = video_url ++ ext
           /\ Forall (fun e => path_exists (video_url ++ e) = false) earlier).
Proof.
  unfold _prepare_video_for_analysis.
  destruct (path_exists video_url) eqn:Ep.
  - intro H. injection H as <-. left. split; reflexivity.
  - destruct (is_web (scheme video_url)) eqn:Ew.
    + destruct (_download_real_video video_url) as [[|c rest]|]; try discriminate.
      intro H. injection H as <-. right; left. repeat split. discriminate.
    + intro H. right; right. destruct (find_first _ _ _ H) as (ys & zs & Hm & Hx & Hb).
      destruct (map_split _ _ _ _ _ Hm) as (earlier & ext & later & Hv & <- & <-).
      repeat split. exact Hx. exists earlier, ext, later.
      repeat split; [exact Hv|]. apply Forall_map in Hb. exact Hb.
Qed.

End Located.

Lemma prepared_path_exists_unless_downloaded_witness :
  let path_exists := String.eqb "clip.avi" in
  let scheme := fun _ : string => EmptyString in
  let download := fun _ : string => @None string in
  (("clip.avi" = "clip" /\ path_exists "clip" = true)
   \/ (path_exists "clip" = false /\ is_web (scheme "clip") = true
       /\ download "clip" = Some "clip.avi" /\ "clip.avi" <> EmptyString)
   \/ (path_exists "clip" = false /\ is_web (scheme "clip") = false
       /\ path_exists "clip.avi" = true
       /\ exists earlier ext later,
            video_extensions = (earlier ++ ext :: later)%list
            /\ "clip.avi" = "clip" ++ ext
            /\ Forall (fun e => path_exists ("clip" ++ e) = false) earlier)).
Proof.
  exact (prepared_path_exists_unless_downloaded
           (String.eqb "clip.avi") (fun _ => EmptyString) (fun _ => None)
           "clip" "clip.avi" eq_refl).
Defined.

End PrepareProofs.

Lemma frames_analyzed_is_the_number_of_strides_witness :
  exists s',
    _analyze_video_content Clips.cinema "flicker.mp4" 300 (Clips.start "flicker.mp4")
    = (Ok tt, s')
    /\ frames_analyzed (watch_result s') = 5%Z
    /\ (frames_analyzed (watch_result s') <= 23)%Z
    /\ ((0 < 23)%Z -> (1 <= frames_analyzed (watch_result s'))%Z).
Proof.
  exact (frames_analyzed_is_the_number_of_strides Clips.cinema "flicker.mp4" 300
           Clips.flicker (Clips.start "flicker.mp4") eq_refl).
Defined.

Lemma scene_timestamps_strictly_increase_witness :
  exists s',
    _analyze_video_content Clips.cinema "flicker.mp4" 300 (Clips.start "flicker.mp4")
    = (Ok tt, s')
    /\ StronglySorted Qlt (map scene_timestamp (scenes_detected (watch_result s')))
    /\ Forall (fun t => 0 <= t /\ t < inject_Z 23 / inject_Z 10)
         (map scene_timestamp (scenes_detected (watch_result s'))).
Proof.
  exact (scene_timestamps_strictly_increase Clips.cinema "flicker.mp4" 300
           Clips.flicker (Clips.start "flicker.mp4") eq_refl eq_refl eq_refl).
Defined.

Lemma overall_video_vision_stays_in_unit_interval_witness :
  let calls := [("white.mp4"%string, 300%Z); ("dark.mp4"%string, 300%Z)] in
  let engine' := watch_videos Scenario.two_videos (new_engine tt) calls in
  0 <= Knowledge.overall_video_vision (video_vision_skills engine') <= 1
  /\ Knowledge.overall_video_vision (video_vision_skills (new_engine tt))
     <= Knowledge.overall_video_vision (video_vision_skills engine').
Proof.
  apply (overall_video_vision_stays_in_unit_interval Scenario.two_videos
           [("white.mp4"%string, 300%Z); ("dark.mp4"%string, 300%Z)]
           (new_engine tt)).
  unfold gauges_in_unit. cbn. repeat split; lra.
Defined.

Lemma refused_file_never_reaches_the_engine_witness :
  let self := {| Interface.ai := Some (new_engine tt);
                 Interface.vision_history := [] |} in
  exists error,
    Interface.watch_video_file Clips.cinema Clips.on_disk Clips.from_dot
      "2026-01-01T00:00:00" self "notes.txt" 300
    = (Interface.ErrorOnly error, self).
Proof.
  apply (InterfaceProofs.refused_file_never_reaches_the_engine
           Clips.cinema Clips.on_disk Clips.from_dot "2026-01-01T00:00:00"
           {| Interface.ai := Some (new_engine tt);
              Interface.vision_history := [] |}
           "notes.txt" 300).
  right. vm_compute. intuition discriminate.
Defined.

(* ================================================================== *)
(** ** The gauges after one watch, and the methods on a console *)
(* ================================================================== *)

Section Gauges.
Context {Store : Type} (w : World Store).

(** [_learn_from_video_watching] updates the gauges exactly when the
    bookkeeping before the update returns. *)
Lemma learn_updates (s : St Store) :
  exists s1,
    _learn_from_video_watching w s = (Ok tt, s1)
    /\ skills_of s1
       = match fst (remember w (watch_result s) (video_understanding (self s))) with
         | Ok _ => _update_video_vision_skills (skills_of s) (watch_result s)
         | Raise _ => skills_of s
         end.
Proof.
  unfold _learn_from_video_watching, try_except, bind, gets, modify, ret.
  destruct s as [engine r]. cbn [watch_result self].
  destruct (remember w r (video_understanding engine)) as [[[] | e] store] eqn:E;
    cbn; eexists; (split; reflexivity).
Qed.

Lemma update_is_gauges_after_watch (s : Skills) (r r' : WatchResult) :
  frames_analyzed r' = frames_analyzed r ->
  scenes_detected r' = scenes_detected r ->
  objects_seen r' = objects_seen r ->
  text_found r' = text_found r ->
  motion_events r' = motion_events r ->
  comprehension_score r' = comprehension_score r ->
  gauges_after_watch r' s (_update_video_vision_skills s r).
Proof.
  intros H1 H2 H3 H4 H5 H6.
  unfold gauges_after_watch, _update_video_vision_skills, raised.
  cbn [frame_analysis scene_understanding object_tracking text_recognition
       motion_detection content_comprehension real_time_learning
       audio_processing].
  rewrite H1, H2, H3, H4, H5, H6. repeat split; reflexivity.
Qed.

(** The gauges after one call. *)
Lemma watch_video_gauges_exact (engine engine1 : Engine Store) (url : string)
    (limit : Z) (r : WatchResult) :
  watch_video w engine url limit = (Ok r, engine1) ->
  (video_vision_skills engine1 = video_vision_skills engine
   \/ gauges_after_watch r (video_vision_skills engine)
        (video_vision_skills engine1))
  /\ (resolve_video w url = None \/ resolve_video w url = Some EmptyString ->
      video_vision_skills engine1 = video_vision_skills engine)
  /\ (forall c rest,
        resolve_video w url = Some (String c rest) ->
        (forall res store, fst (remember w res store) = Ok tt) ->
        gauges_after_watch r (video_vision_skills engine)
          (video_vision_skills engine1))
  /\ (forall c rest,
        resolve_video w url = Some (String c rest) ->
        (forall res store, exists e, fst (remember w res store) = Raise e) ->
        video_vision_skills engine1 = video_vision_skills engine).
Proof.
  intro E.
  destruct (watch_video_trace w engine url limit) as (r0 & e0 & E0 & H).
  rewrite E in E0. injection E0 as <- <-.
  destruct (resolve_video w url) as [[|c rest]|] eqn:R.
  - destruct H as [_ ->].
    split; [left; reflexivity|]. split; [reflexivity|].
    split; intros; discriminate.
  - destruct H as (s1 & s3 & E1 & E3 & R3 & -> & Hr).
    pose proof (analyze_video_content_keeps_skills w (String c rest) limit
                  {| self := engine; watch_result := new_watch_result url |}) as K1.
    rewrite E1 in K1. cbn [snd] in K1. unfold skills_of in K1. cbn [self] in K1.
    destruct (learn_updates (on_result summarised_and_scored s1))
      as (s3' & E3' & K3).
    rewrite E3 in E3'. injection E3' as <-.
    unfold skills_of in K3. destruct s1 as [e1 r1].
    cbn [on_result self watch_result] in K3, R3, K1.
    assert (Hup : gauges_after_watch r (video_vision_skills engine)
                    (_update_video_vision_skills (video_vision_skills engine)
                       (summarised_and_scored r1))).
    { apply update_is_gauges_after_watch;
        rewrite Hr, R3; destruct (gettempdir w); reflexivity. }
    rewrite K1 in K3.
    destruct (fst (remember w (summarised_and_scored r1) (video_understanding e1)))
      as [[]|e] eqn:Erem.
    + rewrite K3. split; [right; exact Hup|].
      split; [intros [?|?]; discriminate|].
      split; [intros; exact Hup|].
      intros ? ? _ Hall.
      destruct (Hall (summarised_and_scored r1) (video_understanding e1)) as [e F].
      congruence.
    + rewrite K3. split; [left; reflexivity|].
      split; [intros [?|?]; discriminate|].
      split; [| intros; reflexivity].
      intros ? ? _ Hall.
      specialize (Hall (summarised_and_scored r1) (video_understanding e1)).
      congruence.
  - destruct H as [_ ->].
    split; [left; reflexivity|]. split; [reflexivity|].
    split; intros; discriminate.
Qed.

(** C6.  After any number N of watch_video calls on an engine whose gauges
    start in [0, 1], every gauge is still in [0, 1], no gauge has
    decreased, and none has moved up by more than 0.02 per call.  One
    call moves the gauges as follows.  When the video was prepared and
    the bookkeeping of [_learn_from_video_watching] returned, each
    gauge becomes [min(1.0, gauge + increment)] if its observation
    category is non-empty in the result, and stays as it was otherwise:
    frame_analysis by 0.01 for frames_analyzed > 0; scene_understanding,
    object_tracking, text_recognition and motion_detection by 0.02 for
    a non-empty list of scenes, objects, text instances and motion
    events; content_comprehension by 0.01 for a score above 0.5;
    real_time_learning by 0.01 at every such call; audio_processing
    never.  When the video was not prepared, or the bookkeeping raised,
    no gauge moves. *)
Theorem skill_gauges_stay_in_unit_interval
    (calls : list (string * Z)) (engine : Engine Store) :
  gauges_in_unit (video_vision_skills engine) ->
  let engine' := watch_videos w engine calls in
  gauges_in_unit (video_vision_skills engine')
  /\ gauges_moved_up_by (0.02 * inject_Z (len calls))
       (video_vision_skills engine) (video_vision_skills engine')
  /\ (forall url limit r engine1,
        watch_video w engine url limit = (Ok r, engine1) ->
        (video_vision_skills engine1 = video_vision_skills engine
         \/ gauges_after_watch r (video_vision_skills engine)
              (video_vision_skills engine1))
        /\ (resolve_video w url = None \/ resolve_video w url = Some EmptyString ->
            video_vision_skills engine1 = video_vision_skills engine)
        /\ (forall c rest,
              resolve_video w url = Some (String c rest) ->
              (forall res store, fst (remember w res store) = Ok tt) ->
              gauges_after_watch r (video_vision_skills engine)
                (video_vision_skills engine1))
        /\ (forall c rest,
              resolve_video w url = Some (String c rest) ->
              (forall res store, exists e, fst (remember w res store) = Raise e) ->
              video_vision_skills engine1 = video_vision_skills engine)).
Proof.
  intros Hunit engine'.
  destruct (watch_videos_gauges w calls engine Hunit) as [H1 H2].
  split; [exact H1|]. split; [exact H2|].
  intros url limit r engine1. apply watch_video_gauges_exact.
Qed.

End Gauges.

Lemma skill_gauges_stay_in_unit_interval_witness :
  let calls := [("white.mp4"%string, 300%Z); ("dark.mp4"%string, 300%Z)] in
  let engine := new_engine tt in
  let engine' := watch_videos Scenario.two_videos engine calls in
  gauges_in_unit (video_vision_skills engine')
  /\ gauges_moved_up_by (0.02 * inject_Z (len calls))
       (video_vision_skills engine) (video_vision_skills engine')
  /\ (forall url limit r engine1,
        watch_video Scenario.two_videos engine url limit = (Ok r, engine1) ->
        (video_vision_skills engine1 = video_vision_skills engine
         \/ gauges_after_watch r (video_vision_skills engine)
              (video_vision_skills engine1))
        /\ (resolve_video Scenario.two_videos url = None
            \/ resolve_video Scenario.two_videos url = Some EmptyString ->
            video_vision_skills engine1 = video_vision_skills engine)
        /\ (forall c rest,
              resolve_video Scenario.two_videos url = Some (String c rest) ->
              (forall res store,
                 fst (remember Scenario.two_videos res store) = Ok tt) ->
              gauges_after_watch r (video_vision_skills engine)
                (video_vision_skills engine1))
        /\ (forall c rest,
              resolve_video Scenario.two_videos url = Some (String c rest) ->
              (forall res store,
                 exists e, fst (remember Scenario.two_videos res store) = Raise e) ->
              video_vision_skills engine1 = video_vision_skills engine)).
Proof.
  apply (skill_gauges_stay_in_unit_interval Scenario.two_videos
           [("white.mp4"%string, 300%Z); ("dark.mp4"%string, 300%Z)]
           (new_engine tt)).
  unfold gauges_in_unit. cbn. repeat split; lra.
Defined.

Module ConsoleProofs.

Lemma bind_ext {S A B : Type} (m m' : M S A) (k k' : A -> M S B) (s : S) :
  m s = m' s -> (forall a s', k a s' = k' a s') -> bind m k s = bind m' k' s.
Proof.
  intros Hm Hk. unfold bind. rewrite Hm.
  destruct (m' s) as [[a | e] s']; [apply Hk | reflexivity].
Qed.

Lemma try_except_ext {S A : Type} (body body' : M S A)
    (handler handler' : PyExc -> M S A) (s : S) :
  body s = body' s -> (forall e s', handler e s' = handler' e s') ->
  try_except body handler s = try_except body' handler' s.
Proof.
  intros Hb Hh. unfold try_except. rewrite Hb.
  destruct (body' s) as [[a | e] s']; [reflexivity | apply Hh].
Qed.

Section Quiet.
Context {Store : Type}.
Variable print : string -> Exc unit.
Variable w : World Store.
Hypothesis Hquiet : Console.quiet print.

Lemma say_quiet {S : Type} (text : string) (s : S) :
  Console.say print text s = (Ok tt, s).
Proof. unfold Console.say, lift. rewrite Hquiet. reflexivity. Qed.

Lemma say_then {S A : Type} (text : string) (m : M S A) (s : S) :
  (Console.say print text ;; m) s = m s.
Proof. unfold bind. rewrite say_quiet. reflexivity. Qed.

Lemma then_say {S : Type} (text : string) (m : M S unit) (s : S) :
  (m ;; Console.say print text) s = m s.
Proof.
  unfold bind. destruct (m s) as [[[] | e] s']; [apply say_quiet | reflexivity].
Qed.

(** On a quiet console the body is the body stated without its lines. *)
Lemma watch_video_body_quiet (video_url : string) (duration_limit : Z)
    (s : St Store) :
  Console.watch_video_body print w video_url duration_limit s
  = watch_video_body w video_url duration_limit s.
Proof.
  unfold Console.watch_video_body, watch_video_body.
  apply bind_ext; [| reflexivity].
  apply try_except_ext; [| intros e s'; apply say_then].
  destruct (resolve_video w video_url) as [[|c rest]|]; try apply then_say.
  repeat (apply bind_ext; [reflexivity | intros ? ?]).
  apply then_say.
Qed.

Lemma watch_video_quiet (engine : Engine Store) (video_url : string)
    (duration_limit : Z) :
  Console.watch_video print w engine video_url duration_limit
  = watch_video w engine video_url duration_limit.
Proof.
  unfold Console.watch_video, watch_video.
  rewrite !say_then, watch_video_body_quiet. reflexivity.
Qed.

End Quiet.

Section Announce.
Context {Store : Type}.
Variable print : string -> Exc unit.
Variable w : World Store.


(** X25.  The URL is printed through rich markup before the [try]
    statement of [watch_video]: when that [print] raises, the exception
    reaches the caller, no result dictionary is returned, and the
    engine is as it was. *)
Theorem announcement_failure_reaches_the_caller
    (engine : Engine Store) (video_url : string) (duration_limit : Z)
    (e : PyExc) :
  print "[bold blue]👁️ AI is Watching Video[/bold blue]" = Ok tt ->
  print ("[yellow]URL: " ++ video_url ++ "[/yellow]") = Raise e ->
  Console.watch_video print w engine video_url duration_limit = (Raise e, engine).
Proof.
  intros H1 H2. unfold Console.watch_video, bind, Console.say, lift.
  rewrite H1, H2. reflexivity.
Qed.

End Announce.



Lemma announcement_failure_reaches_the_caller_witness :
  Console.watch_video Console.strict Scenario.two_videos (new_engine tt) "[/x]" 300
  = (Raise (MarkupError "closing tag '[/x]' doesn't match any open tag"),
     new_engine tt).
Proof.
  apply (announcement_failure_reaches_the_caller Console.strict Scenario.two_videos
           (new_engine tt) "[/x]" 300); reflexivity.
Defined.


Section QuietFiles.
Context {Store : Type}.
Variable print : string -> Exc unit.
Variable w : World Store.
Variable path_exists : string -> bool.
Variable splitext_lower : string -> string.
Variable now : string.
Variable _display_vision_results : WatchResult -> string -> Exc unit.
Hypothesis Hquiet : Console.quiet print.
Hypothesis Hdisplay : forall r source, _display_vision_results r source = Ok tt.

(** On a quiet console [watch_video_file] is the method stated without
    its lines. *)
Lemma watch_video_file_quiet (video_path : string) (duration_limit : Z)
    (self : Interface.VideoVisionInterface) :
  Console.watch_video_file print w path_exists splitext_lower now
    _display_vision_results video_path duration_limit self
  = (Ok (fst (Interface.watch_video_file w path_exists splitext_lower now self
                video_path duration_limit)),
     snd (Interface.watch_video_file w path_exists splitext_lower now self
            video_path duration_limit)).
Proof.
  unfold Console.watch_video_file, Interface.watch_video_file.
  unfold bind at 1. cbn [gets].
  destruct (Interface.ai self) as [engine|]; [| reflexivity].
  destruct (path_exists video_path); cbn [negb]; [| reflexivity].
  destruct (existsb _ Interface.supported_formats); cbn [negb]; [| reflexivity].
  rewrite !(say_then print Hquiet).
  unfold try_except, bind, Console.call_watch_video.
  rewrite (watch_video_quiet print w Hquiet).
  destruct (watch_video w engine video_path duration_limit) as [[r | e] engine'].
  - destruct (success r); cbn [modify];
      rewrite !(say_quiet print Hquiet); [rewrite Hdisplay|]; reflexivity.
  - rewrite (say_quiet print Hquiet). reflexivity.
Qed.

Lemma batch_loop_quiet (video_paths : list string) (total duration_limit : Z) :
  forall (i successful failed : Z) (entries : list Interface.BatchEntry)
         (self : Interface.VideoVisionInterface),
    Console.batch_loop print w path_exists splitext_lower now
      _display_vision_results video_paths i total duration_limit
      successful failed entries self
    = (let '(successful', failed', entries', self') :=
         Interface.batch_loop w path_exists splitext_lower now self video_paths
           duration_limit successful failed entries in
       (Ok (successful', failed', entries'), self')).
Proof.
  induction video_paths as [|video_path rest IH];
    intros i successful failed entries self; [reflexivity|].
  cbn [Console.batch_loop Interface.batch_loop].
  rewrite (say_then print Hquiet). unfold bind at 1.
  rewrite watch_video_file_quiet.
  destruct (Interface.watch_video_file w path_exists splitext_lower now self
              video_path duration_limit) as [result self1].
  cbn [fst snd].
  destruct (Interface.get_success result); apply IH.
Qed.

Lemma analyze_video_batch_quiet (video_paths : list string)
    (duration_limit : Z) (self : Interface.VideoVisionInterface) :
  Console.analyze_video_batch print w path_exists splitext_lower now
    _display_vision_results video_paths duration_limit self
  = Interface.analyze_video_batch w path_exists splitext_lower now self
      video_paths duration_limit.
Proof.
  unfold Console.analyze_video_batch, Interface.analyze_video_batch.
  cbv zeta. rewrite (say_then print Hquiet). unfold bind at 1.
  rewrite batch_loop_quiet.
  destruct (Interface.batch_loop w path_exists splitext_lower now self
              video_paths duration_limit 0 0 [])
    as [[[successful failed] entries] self'].
  unfold bind, lift, ret, truediv.
  destruct (0 <? successful)%Z.
  - destruct (successful =? 0)%Z; [reflexivity|].
    destruct (len video_paths =? 0)%Z; [reflexivity|].
    rewrite !(say_quiet print Hquiet). reflexivity.
  - rewrite !(say_quiet print Hquiet). reflexivity.
Qed.

End QuietFiles.

Section Batch.
Context {Store : Type}.
Variable print : string -> Exc unit.
Variable w : World Store.
Variable path_exists : string -> bool.
Variable splitext_lower : string -> string.
Variable now : string.
Variable _display_vision_results : WatchResult -> string -> Exc unit.

(** X21.  On a console whose [print] and [_display_vision_results] raise
    nothing, [analyze_video_batch] returns: the two counters add up to
    the number of paths, which is the number of entries; the history
    grows by the number of successes; the summary is present exactly
    when a video succeeded, and then holds a frame total that is not
    negative, the mean score of the successes in [0, 1] and a success
    rate in (0, 1]; no division is by zero. *)
Theorem batch_summary_never_divides_by_zero
    (self : Interface.VideoVisionInterface) (video_paths : list string)
    (duration_limit : Z) :
  Console.quiet print ->
  (forall r source, _display_vision_results r source = Ok tt) ->
  exists (batch : Interface.BatchResults)
         (self' : Interface.VideoVisionInterface),
    Console.analyze_video_batch print w path_exists splitext_lower now
      _display_vision_results video_paths duration_limit self
    = (Ok batch, self')
    /\ Interface.total_videos batch = len video_paths
    /\ len (Interface.results batch) = Interface.total_videos batch
    /\ (Interface.successful_analyses batch + Interface.failed_analyses batch)%Z
       = Interface.total_videos batch
    /\ Interface.successful_analyses batch
       = len (Interface.successful_results (Interface.results batch))
    /\ len (Interface.vision_history self')
       = (len (Interface.vision_history self)
          + Interface.successful_analyses batch)%Z
    /\ (Interface.summary batch = None
        <-> Interface.successful_analyses batch = 0%Z)
    /\ (forall s, Interface.summary batch = Some s ->
          (0 <= Interface.total_frames_analyzed s)%Z
          /\ 0 <= Interface.average_comprehension s <= 1
          /\ Interface.average_comprehension s
             * inject_Z (Interface.successful_analyses batch)
             == InterfaceFacts.score_sum (Interface.results batch)
          /\ 0 < Interface.success_rate s <= 1).
Proof.
  intros Hquiet Hdisplay.
  rewrite (analyze_video_batch_quiet print w path_exists splitext_lower now
             _display_vision_results Hquiet Hdisplay).
  apply InterfaceProofs.analyze_video_batch_spec.
Qed.

End Batch.

Lemma batch_summary_never_divides_by_zero_witness :
  let self := {| Interface.ai := Some (new_engine tt);
                 Interface.vision_history := [] |} in
  let video_paths := ["clip.mp4"; "notes.txt"] in
  exists (batch : Interface.BatchResults)
         (self' : Interface.VideoVisionInterface),
    Console.analyze_video_batch Console.silent Clips.cinema Clips.on_disk
      Clips.from_dot "2026-01-01T00:00:00" (fun _ _ => Ok tt)
      video_paths 300 self
    = (Ok batch, self')
    /\ Interface.total_videos batch = len video_paths
    /\ len (Interface.results batch) = Interface.total_videos batch
    /\ (Interface.successful_analyses batch + Interface.failed_analyses batch)%Z
       = Interface.total_videos batch
    /\ Interface.successful_analyses batch
       = len (Interface.successful_results (Interface.results batch))
    /\ len (Interface.vision_history self')
       = (len (Interface.vision_history self)
          + Interface.successful_analyses batch)%Z
    /\ (Interface.summary batch = None
        <-> Interface.successful_analyses batch = 0%Z)
    /\ (forall s, Interface.summary batch = Some s ->
          (0 <= Interface.total_frames_analyzed s)%Z
          /\ 0 <= Interface.average_comprehension s <= 1
          /\ Interface.average_comprehension s
             * inject_Z (Interface.successful_analyses batch)
             == InterfaceFacts.score_sum (Interface.results batch)
          /\ 0 < Interface.success_rate s <= 1).
Proof.
  apply (batch_summary_never_divides_by_zero Console.silent Clips.cinema
           Clips.on_disk Clips.from_dot "2026-01-01T00:00:00"
           (fun _ _ => Ok tt)
           {| Interface.ai := Some (new_engine tt);
              Interface.vision_history := [] |}
           ["clip.mp4"; "notes.txt"] 300).
  - intro text. reflexivity.
  - intros r source. reflexivity.
Defined.

End ConsoleProofs.
